(** * OpenRCT2 network layer: packet framing and connection transport

    A shallow embedding of [NetworkPacket.cpp] and [NetworkConnection.cpp]:
    the packet accessors, the inbound reassembly ([ReadPacket]), the outbound
    queue ([QueuePacket], [SendQueuedPackets], [SendPacket]) and the traffic
    counters ([RecordPacketStats]), followed by the properties established
    about them. *)

From Stdlib Require Import ZArith List Lia Bool NArith Permutation.
From Stdlib.Strings Require Import Byte.
From Stdlib.Strings Require String.
Import ListNotations.

Local Open Scope Z_scope.

(* ------------------------------------------------------------------ *)
(** ** Machine integers and bytes *)

(** [uint8_t] values are [Byte.byte]; the two conversions below move between
    a byte and its numeric value. *)
Definition u8_to_Z (b : byte) : Z := Z.of_N (Byte.to_N b).

Definition u8_of_Z (z : Z) : byte :=
  match Byte.of_N (Z.to_N (z mod 256)) with
  | Some b => b
  | None => x00
  end.

(** Wrap-around of the unsigned types the code computes with. *)
Definition uint16_t (z : Z) : Z := z mod 2 ^ 16.
Definition uint32_t (z : Z) : Z := z mod 2 ^ 32.
Definition size_t (z : Z) : Z := z mod 2 ^ 64.

(** The [n] low-order bytes of [v], least significant first, and the value
    such a sequence denotes. *)
Fixpoint bytes_le (n : nat) (v : Z) : list byte :=
  match n with
  | O => []
  | S n' => u8_of_Z v :: bytes_le n' (v / 256)
  end.

Fixpoint value_le (bs : list byte) : Z :=
  match bs with
  | [] => 0
  | b :: rest => u8_to_Z b + 256 * value_le rest
  end.

(** Most significant byte first: the order of the wire. *)
Definition bytes_be (n : nat) (v : Z) : list byte := rev (bytes_le n v).
Definition value_be (bs : list byte) : Z := value_le (rev bs).

(** Reversal of the [n] bytes of a value. *)
Definition ByteSwap (n : nat) (v : Z) : Z := value_le (bytes_be n v).

(** Modelled from the spec: the endianness helpers [Convert::HostToNetwork],
    [Convert::NetworkToHost] and [ByteSwapBE] are defined in the core
    library. They convert between host byte order and the big-endian order
    of the wire: a byte swap on a little-endian host, the identity on a
    big-endian one. The byte order of the host is a parameter. *)
Class Platform := { little_endian : bool }.

Section HostOrder.
Context {host : Platform}.

(** How a value sits in memory, and how memory is read back as a value. *)
Definition to_host_bytes (n : nat) (v : Z) : list byte :=
  if little_endian then bytes_le n v else bytes_be n v.

Definition of_host_bytes (bs : list byte) : Z :=
  if little_endian then value_le bs else value_be bs.

Definition HostToNetwork (n : nat) (v : Z) : Z :=
  if little_endian then ByteSwap n v else v.

Definition NetworkToHost (n : nat) (v : Z) : Z :=
  if little_endian then ByteSwap n v else v.

Definition ByteSwapBE (n : nat) (v : Z) : Z :=
  if little_endian then ByteSwap n v else v.
End HostOrder.

(* ------------------------------------------------------------------ *)
(** ** Enumerations *)

(** [enum class NetworkCommand : uint32_t]. The enumerators are declared in
    [NetworkTypes.h]; their numbering is kept abstract, and a command
    identifier is any 32-bit value (identifiers arrive from the wire). *)
Module NetworkCommand.
Class Ids := {
  Auth : Z;
  Map : Z;
  Ping : Z;
  GameInfo : Z;
  Token : Z;
  ObjectsList : Z;
  MapRequest : Z;
  GameAction : Z;
  Scripts : Z;
  Heartbeat : Z;
  Invalid : Z
}.
End NetworkCommand.

(** Modelled from the spec: the declaration of [NetworkAuth] is in
    [NetworkTypes.h]; the connection only ever compares against [Ok], the
    spec lists the type as {Unverified, Ok, ...}. The enumerators the code
    never names are kept as [Other n]. *)
Module NetworkAuth.
Inductive t := Unverified | Ok | Other (code : Z).

Definition eqb (a b : t) : bool :=
  match a, b with
  | Unverified, Unverified => true
  | Ok, Ok => true
  | Other m, Other n => m =? n
  | _, _ => false
  end.
End NetworkAuth.

(** Result of a receive attempt. [Success] and [MoreData] are the values
    [ReadPacket] produces itself; [Disconnected] and [Error] are the other
    statuses a socket may report (spec, section 6). *)
Module NetworkReadPacket.
Inductive t := Success | MoreData | Disconnected | Error.

Definition is_Success (s : t) : bool :=
  match s with Success => true | _ => false end.
End NetworkReadPacket.

Module NetworkStatisticsGroup.
Inductive t := Total | Base | Commands | MapData.
End NetworkStatisticsGroup.

(* ------------------------------------------------------------------ *)
(** ** NetworkPacket *)

Record PacketHeader := {
  Size : Z;   (* uint16_t *)
  Id : Z      (* NetworkCommand, a uint32_t *)
}.

Definition sizeof_Size : nat := 2.
Definition sizeof_Id : nat := 4.
(** The header is packed (a 6-byte header, a 16-bit size and a 32-bit
    command): [sizeof(PacketHeader) = 6]. *)
Definition sizeof_PacketHeader : nat := 6.

Record NetworkPacket := {
  Header : PacketHeader;
  Data : list byte;
  BytesTransferred : Z;   (* size_t *)
  BytesRead : Z           (* size_t *)
}.

(** [NetworkPacket::NetworkPacket(NetworkCommand id)]: [Header{0, id}], the
    other members are value-initialised. *)
Definition NetworkPacket_new (id : Z) : NetworkPacket :=
  {| Header := {| Size := 0; Id := id |};
     Data := [];
     BytesTransferred := 0;
     BytesRead := 0 |}.

Definition GetCommand (p : NetworkPacket) : Z := Id (Header p).

Definition Clear (p : NetworkPacket) : NetworkPacket :=
  {| Header := Header p; Data := []; BytesTransferred := 0; BytesRead := 0 |}.

Definition Write (p : NetworkPacket) (bytes : list byte) : NetworkPacket :=
  {| Header := Header p;
     Data := Data p ++ bytes;
     BytesTransferred := BytesTransferred p;
     BytesRead := BytesRead p |}.

(** [WriteString]: the characters followed by the terminating zero. *)
Definition WriteString (p : NetworkPacket) (s : list byte) : NetworkPacket :=
  Write p (s ++ [x00]).

Definition set_Header (p : NetworkPacket) (h : PacketHeader) : NetworkPacket :=
  {| Header := h;
     Data := Data p;
     BytesTransferred := BytesTransferred p;
     BytesRead := BytesRead p |}.

Definition set_BytesTransferred (p : NetworkPacket) (n : Z) : NetworkPacket :=
  {| Header := Header p;
     Data := Data p;
     BytesTransferred := n;
     BytesRead := BytesRead p |}.

Definition set_BytesRead (p : NetworkPacket) (n : Z) : NetworkPacket :=
  {| Header := Header p;
     Data := Data p;
     BytesTransferred := BytesTransferred p;
     BytesRead := n |}.

Definition data_size (p : NetworkPacket) : Z := Z.of_nat (length (Data p)).

Section Commands.
Context {ids : NetworkCommand.Ids}.

(** The [switch] of [NetworkPacket::CommandRequiresAuth]. *)
Definition CommandRequiresAuth (p : NetworkPacket) : bool :=
  let c := GetCommand p in
  if (c =? NetworkCommand.Ping)
     || (c =? NetworkCommand.Auth)
     || (c =? NetworkCommand.Token)
     || (c =? NetworkCommand.GameInfo)
     || (c =? NetworkCommand.ObjectsList)
     || (c =? NetworkCommand.Scripts)
     || (c =? NetworkCommand.MapRequest)
     || (c =? NetworkCommand.Heartbeat)
  then false
  else true.

(** The commands a peer may send before it is authenticated. *)
Definition pre_auth_commands : list Z :=
  [ NetworkCommand.Ping; NetworkCommand.Auth; NetworkCommand.Token;
    NetworkCommand.GameInfo; NetworkCommand.ObjectsList;
    NetworkCommand.Scripts; NetworkCommand.MapRequest;
    NetworkCommand.Heartbeat ].
End Commands.

(** Whether [Data.data()] is a pointer to a buffer rather than the null
    pointer. A vector that holds elements owns a buffer. An empty vector
    owns one or not, depending on what happened to it: the vector of a
    packet that has just been constructed owns none, and [clear()] keeps
    the buffer of a vector that held elements. [buffer] tells which for an
    empty vector. *)
Definition Data_allocated (buffer : bool) (p : NetworkPacket) : bool :=
  buffer || negb (data_size p =? 0).

(** [NetworkPacket::Read]: [None] for a null result; otherwise the bytes
    found at the returned pointer [Data.data() + BytesRead], of which the
    caller reads [size]. The sum [BytesRead + size] is computed in [size_t].
    The pointer of the [else] branch is itself null when [Data.data()] is
    null and [BytesRead] is 0: the caller then sees the value of the first
    branch. *)
Definition Read (buffer : bool) (p : NetworkPacket) (size : Z)
    : option (list byte) * NetworkPacket :=
  if size_t (BytesRead p + size) >? data_size p then (None, p)
  else
    let data :=
      if Data_allocated buffer p || negb (BytesRead p =? 0)
      then Some (firstn (Z.to_nat size)
                   (skipn (Z.to_nat (BytesRead p)) (Data p)))
      else None in
    (data, set_BytesRead p (size_t (BytesRead p + size))).

(** *** ReadString

    [Data.data()[i]]: an element of the vector or, for an index at or past
    [Data.size()], whatever lies in memory behind the elements. C++ leaves
    such a read undefined; [beyond] stands for the byte found there. *)
Definition peek (beyond : byte) (data : list byte) (i : Z) : byte :=
  nth (Z.to_nat i) data beyond.

Definition is_nul (b : byte) : bool :=
  match b with x00 => true | _ => false end.

(** The [while] loop of [ReadString], walking the unread part [rest] of the
    body. [start] is [BytesRead] on entry, so that [str = Data.data() + start]
    and [str[stringLen]] is the element at index [start + stringLen]. [seen]
    accumulates the indices whose byte the loop condition looks at. The
    result is [BytesRead], [stringLen] and [seen] when the loop is left. *)
Fixpoint ReadString_scan (rest : list byte) (start pos stringLen : Z)
    (seen : list Z) : Z * Z * list Z :=
  match rest with
  | [] => (pos, stringLen, seen)               (* BytesRead < Data.size() fails *)
  | ch :: rest' =>
      let seen' := seen ++ [start + stringLen] in
      if is_nul ch then (pos, stringLen, seen')  (* str[stringLen] == 0 *)
      else ReadString_scan rest' start (pos + 1) (stringLen + 1) seen'
  end.

(** [NetworkPacket::ReadString]. The result is the string (the bytes in front
    of the terminator; [None] for [nullptr]), the packet with its advanced
    cursor, and the indices of [Data.data()] whose content was inspected, in
    order. *)
Definition ReadString (beyond : byte) (p : NetworkPacket)
    : option (list byte) * NetworkPacket * list Z :=
  if BytesRead p >=? data_size p then (None, p, [])
  else
    let start := BytesRead p in
    let '(pos, stringLen, seen) :=
      ReadString_scan (skipn (Z.to_nat start) (Data p)) start start 0 [] in
    let seen' := seen ++ [start + stringLen] in
    if negb (is_nul (peek beyond (Data p) (start + stringLen)))
    then (None, set_BytesRead p pos, seen')
    else
      (Some (firstn (Z.to_nat stringLen) (skipn (Z.to_nat start) (Data p))),
       set_BytesRead p (pos + 1), seen').

(** The indices a call of [ReadString] looked at. *)
Definition inspected {A B : Type} (r : A * B * list Z) : list Z := snd r.

(* ------------------------------------------------------------------ *)
(** ** The socket

    Modelled from the spec: the transport is an external collaborator
    ([Socket.h]), a non-blocking stream socket of which the connection uses
    [ReceiveData] and [SendData]. A receive reports a status and, on
    success, at most the requested number of bytes; a send accepts any
    number of the offered bytes, possibly none. The socket below is
    scripted: it carries the bytes still on their way to this endpoint and,
    for every future call, what the operation will do. Quantifying over the
    scripts covers the behaviours of the transport. *)

Inductive RxEvent :=
| RxData (k : nat)                     (* data is ready, at most [k] bytes *)
| RxFail (st : NetworkReadPacket.t).   (* the call reports [st], no data *)

Record TcpSocket := {
  rx_pending : list byte;   (* inbound stream not yet handed out *)
  rx_script : list RxEvent; (* outcome of the coming [ReceiveData] calls *)
  tx_script : list nat;     (* bytes the coming [SendData] calls accept *)
  tx_wire : list byte       (* everything accepted for sending so far *)
}.

(** [ReceiveData(buffer, size, &sizeReceived)]: status, bytes stored at the
    start of [buffer], and the socket afterwards. Once the script has run
    out nothing is available. *)
Definition ReceiveData (s : TcpSocket) (size : Z)
    : NetworkReadPacket.t * list byte * TcpSocket :=
  match rx_script s with
  | [] => (NetworkReadPacket.MoreData, [], s)
  | RxFail st :: evs =>
      (st, [],
       {| rx_pending := rx_pending s; rx_script := evs;
          tx_script := tx_script s; tx_wire := tx_wire s |})
  | RxData k :: evs =>
      let n := Nat.min k (Nat.min (Z.to_nat size) (length (rx_pending s))) in
      (NetworkReadPacket.Success, firstn n (rx_pending s),
       {| rx_pending := skipn n (rx_pending s); rx_script := evs;
          tx_script := tx_script s; tx_wire := tx_wire s |})
  end.

(** [SendData(buffer, size)]: the number of bytes accepted, and the socket
    afterwards. Under back-pressure (script run out, or a [0] entry) nothing
    is accepted. *)
Definition SendData (s : TcpSocket) (buffer : list byte) : Z * TcpSocket :=
  match tx_script s with
  | [] => (0, s)
  | k :: ks =>
      let n := Nat.min k (length buffer) in
      (Z.of_nat n,
       {| rx_pending := rx_pending s; rx_script := rx_script s;
          tx_script := ks; tx_wire := tx_wire s ++ firstn n buffer |})
  end.

(* ------------------------------------------------------------------ *)
(** ** NetworkConnection *)

(** Modelled from the spec: [NetworkStats_t] is declared in [NetworkTypes.h].
    The spec describes it as per-class byte counters (total, base, commands,
    map data) kept separately for the sent and the received direction and
    only ever growing; the counters are unbounded integers here. *)
Record Counters := {
  cnt_Total : Z;
  cnt_Base : Z;
  cnt_Commands : Z;
  cnt_MapData : Z
}.

Record NetworkStats := {
  bytesReceived : Counters;
  bytesSent : Counters
}.

(** [a[EnumValue(g)]] and [a[EnumValue(g)] += n]. *)
Definition counter (a : Counters) (g : NetworkStatisticsGroup.t) : Z :=
  match g with
  | NetworkStatisticsGroup.Total => cnt_Total a
  | NetworkStatisticsGroup.Base => cnt_Base a
  | NetworkStatisticsGroup.Commands => cnt_Commands a
  | NetworkStatisticsGroup.MapData => cnt_MapData a
  end.

Definition counter_add (a : Counters) (g : NetworkStatisticsGroup.t) (n : Z)
    : Counters :=
  match g with
  | NetworkStatisticsGroup.Total =>
      {| cnt_Total := cnt_Total a + n; cnt_Base := cnt_Base a;
         cnt_Commands := cnt_Commands a; cnt_MapData := cnt_MapData a |}
  | NetworkStatisticsGroup.Base =>
      {| cnt_Total := cnt_Total a; cnt_Base := cnt_Base a + n;
         cnt_Commands := cnt_Commands a; cnt_MapData := cnt_MapData a |}
  | NetworkStatisticsGroup.Commands =>
      {| cnt_Total := cnt_Total a; cnt_Base := cnt_Base a;
         cnt_Commands := cnt_Commands a + n; cnt_MapData := cnt_MapData a |}
  | NetworkStatisticsGroup.MapData =>
      {| cnt_Total := cnt_Total a; cnt_Base := cnt_Base a;
         cnt_Commands := cnt_Commands a; cnt_MapData := cnt_MapData a + n |}
  end.

Record NetworkConnection := {
  Socket : TcpSocket;
  InboundPacket : NetworkPacket;
  AuthStatus : NetworkAuth.t;
  Stats : NetworkStats;
  ShouldDisconnect : bool;
  _outboundPackets : list NetworkPacket;
  _lastPacketTime : Z;
  _lastDisconnectReason : option String.string
}.

Definition set_Socket (c : NetworkConnection) (s : TcpSocket) :=
  {| Socket := s; InboundPacket := InboundPacket c;
     AuthStatus := AuthStatus c; Stats := Stats c;
     ShouldDisconnect := ShouldDisconnect c;
     _outboundPackets := _outboundPackets c;
     _lastPacketTime := _lastPacketTime c;
     _lastDisconnectReason := _lastDisconnectReason c |}.

Definition set_InboundPacket (c : NetworkConnection) (p : NetworkPacket) :=
  {| Socket := Socket c; InboundPacket := p;
     AuthStatus := AuthStatus c; Stats := Stats c;
     ShouldDisconnect := ShouldDisconnect c;
     _outboundPackets := _outboundPackets c;
     _lastPacketTime := _lastPacketTime c;
     _lastDisconnectReason := _lastDisconnectReason c |}.

Definition set_Stats (c : NetworkConnection) (st : NetworkStats) :=
  {| Socket := Socket c; InboundPacket := InboundPacket c;
     AuthStatus := AuthStatus c; Stats := st;
     ShouldDisconnect := ShouldDisconnect c;
     _outboundPackets := _outboundPackets c;
     _lastPacketTime := _lastPacketTime c;
     _lastDisconnectReason := _lastDisconnectReason c |}.

Definition set_outboundPackets (c : NetworkConnection)
    (q : list NetworkPacket) :=
  {| Socket := Socket c; InboundPacket := InboundPacket c;
     AuthStatus := AuthStatus c; Stats := Stats c;
     ShouldDisconnect := ShouldDisconnect c;
     _outboundPackets := q;
     _lastPacketTime := _lastPacketTime c;
     _lastDisconnectReason := _lastDisconnectReason c |}.

Definition set_lastPacketTime (c : NetworkConnection) (t : Z) :=
  {| Socket := Socket c; InboundPacket := InboundPacket c;
     AuthStatus := AuthStatus c; Stats := Stats c;
     ShouldDisconnect := ShouldDisconnect c;
     _outboundPackets := _outboundPackets c;
     _lastPacketTime := t;
     _lastDisconnectReason := _lastDisconnectReason c |}.

(** 64 KiB, maximum packet size. *)
Definition NetworkBufferSize : Z := 1024 * 64.

Section Connection.
Context {host : Platform} {ids : NetworkCommand.Ids}.

(** *** The header as raw memory

    [ReadPacket] and [SendPacket] both reach the header through
    [reinterpret_cast<uint8_t*>(&header)]: six bytes, the two fields one
    after the other in host byte order. *)
Definition header_storage (h : PacketHeader) : list byte :=
  to_host_bytes sizeof_Size (Size h) ++ to_host_bytes sizeof_Id (Id h).

Definition header_of_storage (bs : list byte) : PacketHeader :=
  {| Size := of_host_bytes (firstn sizeof_Size bs);
     Id := of_host_bytes (firstn sizeof_Id (skipn sizeof_Size bs)) |}.

(** A receive into [buffer] puts the bytes it got at [buffer[0..]] and
    leaves the rest of the storage as it was. *)
Definition store_at_start (chunk storage : list byte) : list byte :=
  chunk ++ skipn (length chunk) storage.

(** *** RecordPacketStats *)

(** The [switch] over the command that picks the traffic group. *)
Definition TrafficGroup (packet : NetworkPacket) : NetworkStatisticsGroup.t :=
  if GetCommand packet =? NetworkCommand.GameAction
  then NetworkStatisticsGroup.Commands
  else if GetCommand packet =? NetworkCommand.Map
  then NetworkStatisticsGroup.MapData
  else NetworkStatisticsGroup.Base.

Definition RecordPacketStats (stats : NetworkStats) (packet : NetworkPacket)
    (sending : bool) : NetworkStats :=
  let packetSize := uint32_t (BytesTransferred packet) in
  let trafficGroup := TrafficGroup packet in
  if sending then
    {| bytesReceived := bytesReceived stats;
       bytesSent :=
         counter_add
           (counter_add (bytesSent stats) trafficGroup packetSize)
           NetworkStatisticsGroup.Total packetSize |}
  else
    {| bytesReceived :=
         counter_add
           (counter_add (bytesReceived stats) trafficGroup packetSize)
           NetworkStatisticsGroup.Total packetSize;
       bytesSent := bytesSent stats |}.

(** *** ReadPacket

    [now] is the value [platform_get_ticks()] returns during the call. *)

(** "Normalise values." and the compatibility adjustment of the size. *)
Definition normalise_header (h : PacketHeader) : PacketHeader :=
  let size := NetworkToHost sizeof_Size (Size h) in
  let id := ByteSwapBE sizeof_Id (Id h) in
  {| Size := uint16_t (size - Z.min size (Z.of_nat sizeof_Id)); Id := id |}.

(** The closing test of the body block. *)
Definition ReadPacket_complete (now : Z) (c : NetworkConnection)
    : NetworkReadPacket.t * NetworkConnection :=
  if data_size (InboundPacket c) =? Size (Header (InboundPacket c)) then
    (NetworkReadPacket.Success,
     set_Stats (set_lastPacketTime c now)
       (RecordPacketStats (Stats c) (InboundPacket c) false))
  else (NetworkReadPacket.MoreData, c).

(** "Read packet body." *)
Definition ReadPacket_body (now : Z) (c : NetworkConnection)
    : NetworkReadPacket.t * NetworkConnection :=
  let inbound := InboundPacket c in
  let missingLength :=
    size_t (Size (Header inbound)
            - size_t (BytesTransferred inbound
                      - Z.of_nat sizeof_PacketHeader)) in
  if missingLength >? 0 then
    let '(status, buffer, sock) :=
      ReceiveData (Socket c) (Z.min missingLength NetworkBufferSize) in
    if negb (NetworkReadPacket.is_Success status)
    then (status, set_Socket c sock)
    else
      let bytesRead := Z.of_nat (length buffer) in
      let inbound :=
        Write (set_BytesTransferred inbound
                 (BytesTransferred inbound + bytesRead)) buffer in
      ReadPacket_complete now (set_InboundPacket (set_Socket c sock) inbound)
  else ReadPacket_complete now c.

Definition ReadPacket (now : Z) (c : NetworkConnection)
    : NetworkReadPacket.t * NetworkConnection :=
  let inbound := InboundPacket c in
  if BytesTransferred inbound <? Z.of_nat sizeof_PacketHeader then
    let missingLength :=
      size_t (Z.of_nat sizeof_PacketHeader - BytesTransferred inbound) in
    (* buffer = &InboundPacket.Header, the start of the header *)
    let '(status, received, sock) := ReceiveData (Socket c) missingLength in
    if negb (NetworkReadPacket.is_Success status)
    then (status, set_Socket c sock)
    else
      let bytesRead := Z.of_nat (length received) in
      let inbound :=
        set_Header inbound
          (header_of_storage
             (store_at_start received (header_storage (Header inbound)))) in
      let inbound :=
        set_BytesTransferred inbound (BytesTransferred inbound + bytesRead) in
      let c := set_InboundPacket (set_Socket c sock) inbound in
      if BytesTransferred inbound <? Z.of_nat sizeof_PacketHeader
      then (NetworkReadPacket.MoreData, c)
      else
        let inbound := set_Header inbound (normalise_header (Header inbound)) in
        ReadPacket_body now (set_InboundPacket c inbound)
  else ReadPacket_body now c.

(** *** SendPacket *)

(** The contiguous [buffer] that [SendPacket] builds: the adjusted header
    in wire order, then the body. *)
Definition SendPacket_buffer (packet : NetworkPacket) : list byte :=
  let header := Header packet in
  let size := uint16_t (Size header + Z.of_nat sizeof_Id) in
  let size := HostToNetwork sizeof_Size size in
  let id := ByteSwapBE sizeof_Id (Id header) in
  header_storage {| Size := size; Id := id |} ++ Data packet.

(** The size field of a serialised packet as a peer reads it off the wire:
    the first two bytes, most significant first. *)
Definition wire_size (buffer : list byte) : Z :=
  value_be (firstn sizeof_Size buffer).

(** Returns [sendComplete], the packet (it is passed by reference and its
    [BytesTransferred] advances) and the connection. *)
Definition SendPacket (c : NetworkConnection) (packet : NetworkPacket)
    : bool * NetworkPacket * NetworkConnection :=
  let buffer := SendPacket_buffer packet in
  let buffer_size := Z.of_nat (length buffer) in
  let bufferSize := size_t (buffer_size - BytesTransferred packet) in
  let '(sent, sock) :=
    SendData (Socket c)
      (firstn (Z.to_nat bufferSize)
         (skipn (Z.to_nat (BytesTransferred packet)) buffer)) in
  let packet :=
    if sent >? 0
    then set_BytesTransferred packet (BytesTransferred packet + sent)
    else packet in
  let c := set_Socket c sock in
  let sendComplete := BytesTransferred packet =? buffer_size in
  if sendComplete
  then (true, packet, set_Stats c (RecordPacketStats (Stats c) packet true))
  else (false, packet, c).

(** *** QueuePacket *)

(** [packet.Header.Size = static_cast<uint16_t>(packet.Data.size())]. *)
Definition stamp_Size (packet : NetworkPacket) : NetworkPacket :=
  set_Header packet
    {| Size := uint16_t (data_size packet); Id := Id (Header packet) |}.

(** The condition under which [QueuePacket] accepts a packet. *)
Definition authorized (c : NetworkConnection) (p : NetworkPacket) : Prop :=
  AuthStatus c = NetworkAuth.Ok \/ CommandRequiresAuth p = false.

Definition QueuePacket (c : NetworkConnection) (packet : NetworkPacket)
    (front : bool) : NetworkConnection :=
  if NetworkAuth.eqb (AuthStatus c) NetworkAuth.Ok
     || negb (CommandRequiresAuth packet)
  then
    let packet := stamp_Size packet in
    if front then
      match _outboundPackets c with
      | first :: rest =>
          (* If the first packet was already partially sent add new packet
             to second position *)
          if BytesTransferred first >? 0
          then set_outboundPackets c (first :: packet :: rest)
          else set_outboundPackets c (packet :: first :: rest)
      | [] => set_outboundPackets c [packet]
      end
    else set_outboundPackets c (_outboundPackets c ++ [packet])
  else c.

(** *** SendQueuedPackets

    The loop sends the front packet and pops it while the send completes;
    it ends on the first incomplete send or on an empty queue. Each round
    shortens the queue, which gives the recursion. *)
Fixpoint SendQueuedPackets_loop (c : NetworkConnection)
    (queue : list NetworkPacket) : NetworkConnection * list NetworkPacket :=
  match queue with
  | [] => (c, [])
  | front :: rest =>
      let '(sendComplete, front', c') := SendPacket c front in
      if sendComplete
      then SendQueuedPackets_loop c' rest        (* pop_front *)
      else (c', front' :: rest)
  end.

Definition SendQueuedPackets (c : NetworkConnection) : NetworkConnection :=
  let '(c', queue) := SendQueuedPackets_loop c (_outboundPackets c) in
  set_outboundPackets c' queue.

(** *** The session layer

    The caller polls [ReadPacket] for as long as it answers [MoreData]
    (here at most [n] times) and stops on any other status. *)
Fixpoint ReadPacket_poll (n : nat) (now : Z) (c : NetworkConnection)
    : NetworkReadPacket.t * NetworkConnection :=
  match n with
  | O => (NetworkReadPacket.MoreData, c)
  | S n' =>
      let '(status, c') := ReadPacket now c in
      match status with
      | NetworkReadPacket.MoreData => ReadPacket_poll n' now c'
      | _ => (status, c')
      end
  end.

(** What a caller does to the outbound side: build a packet from a command
    and a body and queue it at the tail, or drain the queue. *)
Inductive SendOp :=
| Enqueue (command : Z) (body : list byte)
| Drain.

Definition make_packet (command : Z) (body : list byte) : NetworkPacket :=
  Write (NetworkPacket_new command) body.

Definition apply_SendOp (c : NetworkConnection) (op : SendOp)
    : NetworkConnection :=
  match op with
  | Enqueue command body => QueuePacket c (make_packet command body) false
  | Drain => SendQueuedPackets c
  end.

Definition run_SendOps (c : NetworkConnection) (ops : list SendOp)
    : NetworkConnection :=
  fold_left apply_SendOp ops c.

(** *** States and observations used in the properties *)

(** The inbound packet waits for more body bytes than the peer will ever
    send. *)
Definition starved (c : NetworkConnection) : Prop :=
  rx_pending (Socket c) = []
  /\ BytesTransferred (InboundPacket c)
     = Z.of_nat sizeof_PacketHeader + data_size (InboundPacket c)
  /\ data_size (InboundPacket c) < Size (Header (InboundPacket c)) < 2 ^ 16.

(** The header of a packet with command [command] and body [body] has been
    decoded, and the first [j] body bytes have been received; the transport
    will hand out the rest of the body, and the stream [rest] that follows
    the packet, in pieces of at most [chunks]. *)
Definition body_in_progress (command : Z) (body : list byte) (j : nat)
    (chunks : list nat) (rest : list byte) (c : NetworkConnection) : Prop :=
  Header (InboundPacket c)
  = {| Size := Z.of_nat (length body); Id := command |}
  /\ Data (InboundPacket c) = firstn j body
  /\ BytesTransferred (InboundPacket c)
     = Z.of_nat sizeof_PacketHeader + Z.of_nat j
  /\ rx_pending (Socket c) = skipn j body ++ rest
  /\ rx_script (Socket c) = map RxData chunks
  /\ (j <= length body)%nat.

(** The bytes of the queued packets that the socket has not accepted yet,
    in queue order: the rest of the front packet, then the others whole. *)
Definition unsent (queue : list NetworkPacket) : list byte :=
  match queue with
  | [] => []
  | front :: rest =>
      skipn (Z.to_nat (BytesTransferred front)) (SendPacket_buffer front)
      ++ concat (List.map SendPacket_buffer rest)
  end.

(** Only the front packet of the queue may be partly sent. *)
Definition front_only_in_flight (queue : list NetworkPacket) : Prop :=
  match queue with
  | [] => True
  | front :: rest =>
      0 <= BytesTransferred front
         <= Z.of_nat (length (SendPacket_buffer front))
      /\ Forall (fun p => BytesTransferred p = 0) rest
  end.

(** Serialised packets are shorter than [size_t] can count. *)
Definition addressable (p : NetworkPacket) : Prop :=
  Z.of_nat (length (SendPacket_buffer p)) < 2 ^ 64.

Definition op_addressable (op : SendOp) : Prop :=
  match op with
  | Enqueue command body => addressable (make_packet command body)
  | Drain => True
  end.

(** What an operation adds to the stream of bytes to be sent: the
    serialised packet when [QueuePacket] accepts it, nothing otherwise. *)
Definition queued_bytes (c : NetworkConnection) (op : SendOp) : list byte :=
  match op with
  | Enqueue command body =>
      if NetworkAuth.eqb (AuthStatus c) NetworkAuth.Ok
         || negb (CommandRequiresAuth (make_packet command body))
      then SendPacket_buffer (stamp_Size (make_packet command body))
      else []
  | Drain => []
  end.

End Connection.

(** What receiving leaves alone: the authentication status, the disconnect
    request and reason, the queue, the sending side of the socket and the
    counters of the sent direction. *)
Definition receiving_untouched (c c' : NetworkConnection) : Prop :=
  AuthStatus c' = AuthStatus c
  /\ ShouldDisconnect c' = ShouldDisconnect c
  /\ _lastDisconnectReason c' = _lastDisconnectReason c
  /\ _outboundPackets c' = _outboundPackets c
  /\ tx_script (Socket c') = tx_script (Socket c)
  /\ tx_wire (Socket c') = tx_wire (Socket c)
  /\ bytesSent (Stats c') = bytesSent (Stats c).

(** What sending leaves alone: the authentication status, the disconnect
    request and reason, the inbound packet, the time of the last packet,
    the receiving side of the socket and the counters of the received
    direction. *)
Definition sending_untouched (c c' : NetworkConnection) : Prop :=
  AuthStatus c' = AuthStatus c
  /\ ShouldDisconnect c' = ShouldDisconnect c
  /\ _lastDisconnectReason c' = _lastDisconnectReason c
  /\ InboundPacket c' = InboundPacket c
  /\ _lastPacketTime c' = _lastPacketTime c
  /\ rx_pending (Socket c') = rx_pending (Socket c)
  /\ rx_script (Socket c') = rx_script (Socket c)
  /\ bytesReceived (Stats c') = bytesReceived (Stats c).

(* ------------------------------------------------------------------ *)
(** ** Liveness and validity *)

Definition set_ShouldDisconnect (c : NetworkConnection) (b : bool) :=
  {| Socket := Socket c; InboundPacket := InboundPacket c;
     AuthStatus := AuthStatus c; Stats := Stats c;
     ShouldDisconnect := b;
     _outboundPackets := _outboundPackets c;
     _lastPacketTime := _lastPacketTime c;
     _lastDisconnectReason := _lastDisconnectReason c |}.

Definition Disconnect (c : NetworkConnection) : NetworkConnection :=
  set_ShouldDisconnect c true.

(** Modelled from the spec: what [Socket->GetStatus()] answers; the
    connection only compares it against [Connected]. *)
Module SocketStatus.
Inductive t := Connected | Other (code : Z).

Definition is_Connected (s : t) : bool :=
  match s with Connected => true | Other _ => false end.
End SocketStatus.

(** [IsValid], given the status the socket reports. *)
Definition IsValid (status : SocketStatus.t) (c : NetworkConnection) : bool :=
  negb (ShouldDisconnect c) && SocketStatus.is_Connected status.

(** [now] is the value of [platform_get_ticks()]. *)
Definition ResetLastPacketTime (now : Z) (c : NetworkConnection)
    : NetworkConnection :=
  set_lastPacketTime c now.

(** [ReceivedPacketRecently]. The tick counter is taken to be 32 bits wide
    ([platform_get_ticks] and [_lastPacketTime] are declared outside these
    sources), so the sum is computed modulo 2^32; [DEBUG] tells whether the
    build defines the macro of that name, which compiles the test away. *)
Definition ReceivedPacketRecently (DEBUG : bool) (now : Z)
    (c : NetworkConnection) : bool :=
  if DEBUG then true
  else if now >? uint32_t (_lastPacketTime c + 7000) then false else true.

(* ------------------------------------------------------------------ *)
(** ** A connection in use

    What the owner of a connection does with it, in any order: poll for an
    inbound packet, clear the inbound packet once it has been consumed,
    queue a packet, drain the queue, ask for a disconnect. *)

Inductive ConnectionOp :=
| OpReadPacket (now : Z)
| OpClearInbound
| OpQueuePacket (packet : NetworkPacket) (front : bool)
| OpSendQueuedPackets
| OpDisconnect.

Section Session.
Context {host : Platform} {ids : NetworkCommand.Ids}.

Definition apply_ConnectionOp (c : NetworkConnection) (op : ConnectionOp)
    : NetworkConnection :=
  match op with
  | OpReadPacket now => snd (ReadPacket now c)
  | OpClearInbound => set_InboundPacket c (Clear (InboundPacket c))
  | OpQueuePacket packet front => QueuePacket c packet front
  | OpSendQueuedPackets => SendQueuedPackets c
  | OpDisconnect => Disconnect c
  end.

Definition run_ConnectionOps (c : NetworkConnection)
    (ops : list ConnectionOp) : NetworkConnection :=
  fold_left apply_ConnectionOp ops c.

(** The part of the front packet that the socket has accepted. *)
Definition in_flight_prefix (queue : list NetworkPacket) : list byte :=
  match queue with
  | [] => []
  | front :: _ =>
      firstn (Z.to_nat (BytesTransferred front)) (SendPacket_buffer front)
  end.

(** Packets are handed to [QueuePacket] before any of their bytes has been
    transferred. *)
Definition queueable (op : ConnectionOp) : Prop :=
  match op with
  | OpQueuePacket packet _ => BytesTransferred packet = 0 /\ addressable packet
  | _ => True
  end.

(** The packets that [QueuePacket] accepted in the course of [ops], with
    their size stamped, in the order of the calls. *)
Definition accepted_packets (c : NetworkConnection) (ops : list ConnectionOp)
    : list NetworkPacket :=
  flat_map
    (fun op =>
       match op with
       | OpQueuePacket packet _ =>
           if NetworkAuth.eqb (AuthStatus c) NetworkAuth.Ok
              || negb (CommandRequiresAuth packet)
           then [stamp_Size packet]
           else []
       | _ => []
       end) ops.

(** A message is a command with a body; its wire image is what the send
    path serialises for it. A message fits the protocol when its command
    is a 32-bit value and its size field does not wrap. *)
Definition wire_image (message : Z * list byte) : list byte :=
  SendPacket_buffer (stamp_Size (make_packet (fst message) (snd message))).

Definition sendable (message : Z * list byte) : Prop :=
  0 <= fst message < 2 ^ 32 /\ Z.of_nat (length (snd message)) <= 65531.

(** The owner's receive loop, at most [n] polls: a completed packet is
    taken (command and body) and the inbound packet cleared for the next
    one; on [MoreData] the loop polls again; any other status ends it. *)
Fixpoint receive_packets (n : nat) (now : Z) (c : NetworkConnection)
    : list (Z * list byte) * NetworkConnection :=
  match n with
  | O => ([], c)
  | S n' =>
      let '(status, c') := ReadPacket now c in
      match status with
      | NetworkReadPacket.Success =>
          let packet := InboundPacket c' in
          let '(packets, c'') :=
            receive_packets n' now (set_InboundPacket c' (Clear packet)) in
          ((GetCommand packet, Data packet) :: packets, c'')
      | NetworkReadPacket.MoreData => receive_packets n' now c'
      | _ => ([], c')
      end
  end.

(** The receiver is at a packet boundary or inside the body of the first
    of the messages [todo], whose wire images are what is pending; the
    transport hands out at least six bytes per receive when it has them,
    and as many receives as there are bytes pending. *)
Definition receiving (todo : list (Z * list byte)) (c : NetworkConnection)
    : Prop :=
  Forall sendable todo
  /\ exists ks,
       Forall (fun k => sizeof_PacketHeader <= k)%nat ks
       /\ (length (rx_pending (Socket c)) <= length ks)%nat
       /\ rx_script (Socket c) = map RxData ks
       /\ ((BytesTransferred (InboundPacket c) = 0
            /\ Data (InboundPacket c) = []
            /\ rx_pending (Socket c) = concat (map wire_image todo))
           \/ exists command body rest j,
                todo = (command, body) :: rest
                /\ (j < length body)%nat
                /\ body_in_progress command body j ks
                     (concat (map wire_image rest)) c).

(** Every queued packet still has bytes to send, and only the front packet
    has had any sent. *)
Definition queue_pending (queue : list NetworkPacket) : Prop :=
  match queue with
  | [] => True
  | front :: rest =>
      0 <= BytesTransferred front
         < Z.of_nat (length (SendPacket_buffer front))
      /\ Forall (fun p => BytesTransferred p = 0) rest
  end.

(** Queueing the messages at the tail, one after the other. *)
Definition enqueue_all (messages : list (Z * list byte)) : list SendOp :=
  map (fun message => Enqueue (fst message) (snd message)) messages.

(** The inbound packet between calls: either still short of a header, with
    no body yet, or past the header with [BytesTransferred] counting header
    and body and the body no longer than the size the header declared. *)
Definition inbound_ok (p : NetworkPacket) : Prop :=
  (0 <= BytesTransferred p < Z.of_nat sizeof_PacketHeader /\ Data p = [])
  \/ (BytesTransferred p = Z.of_nat sizeof_PacketHeader + data_size p
      /\ data_size p <= Size (Header p) < 2 ^ 16).

(** The total counter of each direction is the sum of the group counters. *)
Definition counters_consistent (a : Counters) : Prop :=
  cnt_Total a = cnt_Base a + cnt_Commands a + cnt_MapData a.

Definition stats_consistent (s : NetworkStats) : Prop :=
  counters_consistent (bytesReceived s) /\ counters_consistent (bytesSent s).

(** No counter of [a] exceeds its counterpart in [b]. *)
Definition counters_le (a b : Counters) : Prop :=
  cnt_Total a <= cnt_Total b /\ cnt_Base a <= cnt_Base b
  /\ cnt_Commands a <= cnt_Commands b /\ cnt_MapData a <= cnt_MapData b.

Definition stats_le (s s' : NetworkStats) : Prop :=
  counters_le (bytesReceived s) (bytesReceived s')
  /\ counters_le (bytesSent s) (bytesSent s').

End Session.

(* ------------------------------------------------------------------ *)
(** ** Sample instances

    Used to evaluate the definitions on concrete inputs. *)

Definition little_endian_host : Platform := {| little_endian := true |}.
Definition big_endian_host : Platform := {| little_endian := false |}.

(** A numbering of the commands with pairwise distinct values. *)
Definition sample_commands : NetworkCommand.Ids :=
  {| NetworkCommand.Auth := 0;
     NetworkCommand.Map := 1;
     NetworkCommand.Ping := 6;
     NetworkCommand.GameInfo := 9;
     NetworkCommand.Token := 13;
     NetworkCommand.ObjectsList := 14;
     NetworkCommand.MapRequest := 15;
     NetworkCommand.GameAction := 16;
     NetworkCommand.Scripts := 20;
     NetworkCommand.Heartbeat := 21;
     NetworkCommand.Invalid := 4294967295 |}.

(** A body without terminator, and a body of 65532 bytes. *)
Definition unterminated_packet : NetworkPacket :=
  Write (NetworkPacket_new 0) ["a"; "b"; "c"]%byte.

Definition body_65532 : list byte := repeat x00 (Z.to_nat 65532).

(** Three packets as a caller builds them, and a run of the outbound side
    that queues them and drains in between. *)
Definition packet_A : NetworkPacket :=
  Write (NetworkPacket_new 16) [x01; x02; x03].
Definition packet_B : NetworkPacket := Write (NetworkPacket_new 6) [x04].
Definition packet_C : NetworkPacket := Write (NetworkPacket_new 21) [].

Definition sample_ops : list SendOp :=
  [ Enqueue 16 [x01; x02; x03]; Enqueue 6 [x04]; Drain;
    Enqueue 21 []; Drain; Drain ].

Definition zero_counters : Counters :=
  {| cnt_Total := 0; cnt_Base := 0; cnt_Commands := 0; cnt_MapData := 0 |}.

Definition scripted_socket (inbound : list byte) (rx : list RxEvent)
    (tx : list nat) : TcpSocket :=
  {| rx_pending := inbound; rx_script := rx; tx_script := tx; tx_wire := [] |}.

(** A connection that has not moved any byte yet: empty queue, zero
    counters, and an inbound packet constructed with command [id0]. *)
Definition fresh_connection (sock : TcpSocket) (auth : NetworkAuth.t)
    (id0 : Z) : NetworkConnection :=
  {| Socket := sock;
     InboundPacket := NetworkPacket_new id0;
     AuthStatus := auth;
     Stats := {| bytesReceived := zero_counters; bytesSent := zero_counters |};
     ShouldDisconnect := false;
     _outboundPackets := [];
     _lastPacketTime := 0;
     _lastDisconnectReason := None |}.

(** A connection whose front packet is in flight (three bytes sent), with
    a second packet waiting behind it. *)
Definition connection_in_flight (auth : NetworkAuth.t) : NetworkConnection :=
  set_outboundPackets
    (fresh_connection (scripted_socket [] [] []) auth 0)
    [ set_BytesTransferred (stamp_Size packet_A) 3; stamp_Size packet_B ].

(** A GameAction packet (sample numbering) with a body of 44 bytes: 50 bytes
    once serialised. *)
Definition packet_50 : NetworkPacket :=
  stamp_Size (Write (NetworkPacket_new 16) (repeat x00 44)).

(** Connections for the examples: one whose transport accepts a byte per
    send, one whose transport accepts a packet at once, and one that is
    about to receive a header announcing a size of 2. *)
Definition slow_sender : NetworkConnection :=
  fresh_connection (scripted_socket [] [] (repeat 1%nat 30)) NetworkAuth.Ok 0.

Definition fast_sender : NetworkConnection :=
  fresh_connection (scripted_socket [] [] [100%nat]) NetworkAuth.Ok 0.

(** A receiver of command 6 with body [01 02 03] whose transport hands out
    the header whole and the body a byte at a time. *)
Definition whole_header_receiver : NetworkConnection :=
  fresh_connection
    (scripted_socket [x00; x07; x00; x00; x00; x06; x01; x02; x03]
       [RxData 6; RxData 1; RxData 1; RxData 1] [])
    NetworkAuth.Ok 0.

Definition undersized_header : list byte := [x00; x02; x00; x00; x00; x06].

Definition undersized_receiver : NetworkConnection :=
  fresh_connection (scripted_socket undersized_header [RxData 6] [])
    NetworkAuth.Ok 0.

(** A body holding the strings "abc" and "def", each with its terminator. *)
Definition string_packet : NetworkPacket :=
  Write (NetworkPacket_new 0) ["a"; "b"; "c"; x00; "d"; "e"; "f"; x00]%byte.

(** Three messages and a receiver that has their wire images pending, with
    a transport handing out six bytes per receive. *)
Definition sample_messages : list (Z * list byte) :=
  [ (6, [x01; x02; x03]); (21, []);
    (16, [x04; x05; x06; x07; x08; x09; x0a; x0b]) ].

Definition stream_receiver : NetworkConnection :=
  fresh_connection
    (scripted_socket
       (concat (map (wire_image (host := little_endian_host)) sample_messages))
       (map RxData (repeat 6%nat 40)) [])
    NetworkAuth.Ok 0.

(** The sender after queueing the three messages and draining 29 times
    against a transport that takes a byte per send, and a receiver that has
    pending what that sender put on the wire. *)
Definition drained_sender : NetworkConnection :=
  run_SendOps (host := little_endian_host) (ids := sample_commands)
    slow_sender (enqueue_all sample_messages ++ repeat Drain 29).

Definition peer_receiver : NetworkConnection :=
  fresh_connection
    (scripted_socket (tx_wire (Socket drained_sender))
       (map RxData (repeat 6%nat 29)) [])
    NetworkAuth.Ok 0.

(** The connection with a packet in flight, over a transport that takes a
    byte per send. *)
Definition slow_in_flight : NetworkConnection :=
  set_Socket (connection_in_flight NetworkAuth.Ok)
    (scripted_socket [] [] (repeat 1%nat 30)).

(** A receiver whose next receive reports a disconnect, and one whose
    inbound packet is complete and has not been cleared. *)
Definition failing_receiver : NetworkConnection :=
  fresh_connection
    (scripted_socket [] [RxFail NetworkReadPacket.Disconnected] [])
    NetworkAuth.Ok 0.

Definition completed_receiver : NetworkConnection :=
  snd (ReadPacket (host := little_endian_host) (ids := sample_commands) 5
         undersized_receiver).

(** A connection in use on both sides, with a priority packet queued while
    the front packet is in flight. *)
Definition sample_session : list ConnectionOp :=
  [ OpQueuePacket packet_A false; OpQueuePacket packet_B false;
    OpSendQueuedPackets; OpReadPacket 5; OpQueuePacket packet_C true;
    OpSendQueuedPackets; OpReadPacket 6; OpClearInbound; OpDisconnect;
    OpSendQueuedPackets ].

Definition session_connection : NetworkConnection :=
  fresh_connection
    (scripted_socket [x00; x07; x00; x00; x00; x06; x01; x02; x03]
       [RxData 6; RxData 1; RxData 2] (repeat 4%nat 10))
    NetworkAuth.Ok 0.

(* ------------------------------------------------------------------ *)
(** A receiver that has the serialised GameAction packet of 50 bytes
    pending, and a transport that hands out what is asked for. *)
Definition receiver_50 : NetworkConnection :=
  fresh_connection
    (scripted_socket (SendPacket_buffer (host := little_endian_host) packet_50)
       [RxData 6; RxData 100] [])
    NetworkAuth.Ok 0.

(** A GameAction packet (sample numbering) with a body of 2^32 + 44 bytes,
    2^32 + 50 bytes once serialised, and a sender whose transport accepts
    it at once. *)
Definition body_4GiB : list byte := repeat x00 (Z.to_nat (2 ^ 32 + 44)).

Definition packet_4GiB : NetworkPacket :=
  stamp_Size (Write (NetworkPacket_new 16) body_4GiB).

Definition bulk_sender : NetworkConnection :=
  fresh_connection (scripted_socket [] [] [Z.to_nat (2 ^ 33)]) NetworkAuth.Ok 0.

(** * Properties *)

(** ** Proof steps used throughout *)

(** Case analysis on the branches of the connection code. *)
Ltac branch :=
  match goal with
  | |- context [let '(_, _) := ?x in _] => destruct x eqn:?
  | |- context [if ?b then _ else _] => destruct b eqn:?
  | |- context [match ?x with NetworkReadPacket.Success => _ | _ => _ end] =>
      destruct x eqn:?
  end.

(** Equations between results: split into their components. *)
Ltac pair_eq :=
  repeat match goal with
         | E : (_, _) = (_, _) |- _ => inversion E; subst; clear E
         end.

(** The sizes of the header and its fields as numbers. *)
Ltac sizes :=
  change (Z.of_nat sizeof_PacketHeader) with 6 in *;
  change (Z.of_nat sizeof_Id) with 4 in *;
  change (Z.of_nat sizeof_Size) with 2 in *.

(** ** Bytes and byte order *)

Lemma u8_to_Z_range (b : byte) : 0 <= u8_to_Z b < 256.
Proof.
  unfold u8_to_Z. pose proof (Byte.to_N_bounded b). lia.
Qed.

Lemma u8_to_of_Z (z : Z) : u8_to_Z (u8_of_Z z) = z mod 256.
Proof.
  unfold u8_to_Z, u8_of_Z.
  assert (Hr : 0 <= z mod 256 < 256) by (apply Z.mod_pos_bound; lia).
  destruct (Byte.of_N (Z.to_N (z mod 256))) as [b|] eqn:E.
  - apply Byte.to_of_N in E. rewrite E. lia.
  - apply Byte.of_N_None_iff in E. lia.
Qed.

Lemma u8_of_to_Z (b : byte) : u8_of_Z (u8_to_Z b) = b.
Proof.
  unfold u8_of_Z. pose proof (u8_to_Z_range b) as Hr.
  rewrite Z.mod_small by assumption.
  unfold u8_to_Z. rewrite N2Z.id, Byte.of_to_N. reflexivity.
Qed.

Lemma u8_of_Z_mod (z : Z) : u8_of_Z (z mod 256) = u8_of_Z z.
Proof.
  unfold u8_of_Z. rewrite Z.mod_mod by lia. reflexivity.
Qed.

Lemma length_bytes_le (n : nat) (v : Z) : length (bytes_le n v) = n.
Proof.
  revert v. induction n as [|n IH]; intros v; simpl; [reflexivity|].
  now rewrite IH.
Qed.

Lemma length_bytes_be (n : nat) (v : Z) : length (bytes_be n v) = n.
Proof.
  unfold bytes_be. now rewrite length_rev, length_bytes_le.
Qed.

Lemma value_le_range (bs : list byte) :
  0 <= value_le bs < 256 ^ Z.of_nat (length bs).
Proof.
  induction bs as [|b bs IH].
  - simpl. lia.
  - cbn [value_le length]. rewrite Nat2Z.inj_succ, Z.pow_succ_r by lia.
    pose proof (u8_to_Z_range b). lia.
Qed.

Lemma value_le_bytes_le (n : nat) (v : Z) :
  value_le (bytes_le n v) = v mod 256 ^ Z.of_nat n.
Proof.
  revert v. induction n as [|n IH]; intros v.
  - simpl. now rewrite Z.mod_1_r.
  - cbn [bytes_le value_le]. rewrite IH, u8_to_of_Z.
    rewrite Nat2Z.inj_succ, Z.pow_succ_r by lia.
    rewrite Z.rem_mul_r by lia. reflexivity.
Qed.

Lemma bytes_le_value_le (bs : list byte) :
  bytes_le (length bs) (value_le bs) = bs.
Proof.
  induction bs as [|b bs IH]; [reflexivity|].
  cbn [length bytes_le value_le].
  pose proof (u8_to_Z_range b) as Hb.
  replace (u8_to_Z b + 256 * value_le bs) with (u8_to_Z b + value_le bs * 256)
    by lia.
  f_equal.
  - rewrite <- u8_of_Z_mod, Z.mod_add by lia.
    rewrite Z.mod_small by assumption. apply u8_of_to_Z.
  - rewrite Z.div_add by lia.
    rewrite Z.div_small by assumption. exact IH.
Qed.

Lemma value_be_bytes_be (n : nat) (v : Z) :
  value_be (bytes_be n v) = v mod 256 ^ Z.of_nat n.
Proof.
  unfold value_be, bytes_be. rewrite rev_involutive. apply value_le_bytes_le.
Qed.

Lemma bytes_be_value_be (bs : list byte) :
  bytes_be (length bs) (value_be bs) = bs.
Proof.
  unfold value_be, bytes_be.
  rewrite <- (length_rev bs), bytes_le_value_le. apply rev_involutive.
Qed.

Lemma value_be_range (bs : list byte) :
  0 <= value_be bs < 256 ^ Z.of_nat (length bs).
Proof.
  unfold value_be. rewrite <- (length_rev bs). apply value_le_range.
Qed.

Section HostOrderFacts.
Context {host : Platform}.

(** Whatever the host, a value converted to network order sits in memory
    most significant byte first. *)
Lemma to_host_bytes_HostToNetwork (n : nat) (v : Z) :
  to_host_bytes n (HostToNetwork n v) = bytes_be n v.
Proof.
  unfold to_host_bytes, HostToNetwork, ByteSwap.
  destruct little_endian; [|reflexivity].
  rewrite <- (length_bytes_be n v) at 1. apply bytes_le_value_le.
Qed.

Lemma to_host_bytes_ByteSwapBE (n : nat) (v : Z) :
  to_host_bytes n (ByteSwapBE n v) = bytes_be n v.
Proof. exact (to_host_bytes_HostToNetwork n v). Qed.

(** Whatever the host, memory read as a value and converted from network
    order is the big-endian value of the bytes. *)
Lemma NetworkToHost_of_host_bytes (bs : list byte) :
  NetworkToHost (length bs) (of_host_bytes bs) = value_be bs.
Proof.
  unfold NetworkToHost, of_host_bytes, ByteSwap.
  destruct little_endian; [|reflexivity].
  unfold bytes_be. rewrite bytes_le_value_le. reflexivity.
Qed.

Lemma ByteSwapBE_of_host_bytes (bs : list byte) :
  ByteSwapBE (length bs) (of_host_bytes bs) = value_be bs.
Proof. exact (NetworkToHost_of_host_bytes bs). Qed.

Lemma length_to_host_bytes (n : nat) (v : Z) :
  length (to_host_bytes n v) = n.
Proof.
  unfold to_host_bytes.
  destruct little_endian; [apply length_bytes_le | apply length_bytes_be].
Qed.
End HostOrderFacts.

(* ------------------------------------------------------------------ *)
(** ** Authentication gate and queue insertion *)

Lemma NetworkAuth_eqb_Ok (a : NetworkAuth.t) :
  NetworkAuth.eqb a NetworkAuth.Ok = true <-> a = NetworkAuth.Ok.
Proof.
  destruct a; simpl; split; intro E; try reflexivity; discriminate.
Qed.

(** C7. [CommandRequiresAuth] answers [false] exactly on the commands Ping,
    Auth, Token, GameInfo, ObjectsList, Scripts, MapRequest and Heartbeat,
    and [true] on every other command identifier. *)
Theorem CommandRequiresAuth_allow_list {ids : NetworkCommand.Ids}
    (p : NetworkPacket) :
  (CommandRequiresAuth p = false <-> In (GetCommand p) pre_auth_commands)
  /\ (CommandRequiresAuth p = true <-> ~ In (GetCommand p) pre_auth_commands).
Proof.
  assert (E : CommandRequiresAuth p = false
              <-> In (GetCommand p) pre_auth_commands).
  { unfold CommandRequiresAuth, pre_auth_commands. cbn [In].
    repeat match goal with
           | |- context [?a =? ?b] => destruct (Z.eqb_spec a b)
           end;
      cbn [orb]; split; intro X; try reflexivity; try discriminate;
      try (intuition congruence). }
  split; [exact E|].
  rewrite <- E. destruct (CommandRequiresAuth p); split; intro X;
    try reflexivity; try discriminate; try congruence.
Qed.

Section QueueFacts.
Context {ids : NetworkCommand.Ids}.

Lemma gate_open (c : NetworkConnection) (p : NetworkPacket) :
  authorized c p ->
  NetworkAuth.eqb (AuthStatus c) NetworkAuth.Ok
  || negb (CommandRequiresAuth p) = true.
Proof.
  intros [E | E].
  - apply NetworkAuth_eqb_Ok in E. now rewrite E.
  - rewrite E. apply orb_true_r.
Qed.

Lemma gate_closed (c : NetworkConnection) (p : NetworkPacket) :
  CommandRequiresAuth p = true ->
  AuthStatus c <> NetworkAuth.Ok ->
  NetworkAuth.eqb (AuthStatus c) NetworkAuth.Ok
  || negb (CommandRequiresAuth p) = false.
Proof.
  intros E N. rewrite E.
  destruct (NetworkAuth.eqb (AuthStatus c) NetworkAuth.Ok) eqn:A;
    [|reflexivity].
  apply NetworkAuth_eqb_Ok in A. contradiction.
Qed.
End QueueFacts.

(** C5. An authorized packet [C] queued with [front = true] goes to the head
    of the queue when the queue is empty or its head [A] has
    [BytesTransferred = 0], and to the second position, right behind [A],
    when [A] has [BytesTransferred > 0]; the rest of the queue and the rest
    of the connection stay as they were. *)
Theorem QueuePacket_front_position {ids : NetworkCommand.Ids}
    (c : NetworkConnection) (C : NetworkPacket) :
  authorized c C ->
  (_outboundPackets c = [] ->
     _outboundPackets (QueuePacket c C true) = [stamp_Size C])
  /\ (forall A rest,
        _outboundPackets c = A :: rest -> BytesTransferred A = 0 ->
        _outboundPackets (QueuePacket c C true) = stamp_Size C :: A :: rest)
  /\ (forall A rest,
        _outboundPackets c = A :: rest -> BytesTransferred A > 0 ->
        _outboundPackets (QueuePacket c C true) = A :: stamp_Size C :: rest)
  /\ QueuePacket c C true
     = set_outboundPackets c (_outboundPackets (QueuePacket c C true)).
Proof.
  intros Hauth. apply gate_open in Hauth.
  unfold QueuePacket. rewrite Hauth.
  repeat split.
  - intros E. rewrite E. reflexivity.
  - intros A rest E Z0. rewrite E, Z0. reflexivity.
  - intros A rest E Hpos. rewrite E.
    destruct (Z.gtb_spec (BytesTransferred A) 0); [reflexivity | lia].
  - destruct (_outboundPackets c) as [|A rest]; [reflexivity|].
    destruct (BytesTransferred A >? 0); reflexivity.
Qed.

(** C6. Queueing a packet whose command requires authentication while the
    connection's [AuthStatus] is not [Ok] changes nothing: the connection,
    queue included, is the one before the call. *)
Theorem QueuePacket_auth_gate {ids : NetworkCommand.Ids}
    (c : NetworkConnection) (p : NetworkPacket) (front : bool) :
  CommandRequiresAuth p = true ->
  AuthStatus c <> NetworkAuth.Ok ->
  QueuePacket c p front = c.
Proof.
  intros Hreq Hauth. unfold QueuePacket.
  now rewrite (gate_closed c p Hreq Hauth).
Qed.

(* ------------------------------------------------------------------ *)
(** ** Traffic statistics *)

Section StatsFacts.
Context {host : Platform} {ids : NetworkCommand.Ids}.

Lemma TrafficGroup_not_Total (p : NetworkPacket) :
  TrafficGroup p <> NetworkStatisticsGroup.Total.
Proof.
  unfold TrafficGroup. repeat branch; discriminate.
Qed.

Lemma counter_add_same (a : Counters) (g : NetworkStatisticsGroup.t) (n : Z) :
  counter (counter_add a g n) g = counter a g + n.
Proof. destruct g; reflexivity. Qed.

Lemma counter_add_other (a : Counters) (g g' : NetworkStatisticsGroup.t)
    (n : Z) :
  g' <> g -> counter (counter_add a g n) g' = counter a g'.
Proof. destruct g, g'; intros N; try reflexivity; contradiction. Qed.

Lemma SendPacket_complete_stats c p p' c' :
  SendPacket c p = (true, p', c') ->
  Stats c' = RecordPacketStats (Stats c) p' true.
Proof.
  unfold SendPacket. repeat branch; intros E; pair_eq; reflexivity.
Qed.

Lemma SendPacket_partial_stats c p p' c' :
  SendPacket c p = (false, p', c') -> Stats c' = Stats c.
Proof.
  unfold SendPacket. repeat branch; intros E; pair_eq; reflexivity.
Qed.

Lemma SendPacket_command c p b p' c' :
  SendPacket c p = (b, p', c') -> GetCommand p' = GetCommand p.
Proof.
  unfold SendPacket. repeat branch; intros E; pair_eq; reflexivity.
Qed.

Lemma ReadPacket_complete_stats now c st c' :
  ReadPacket_complete now c = (st, c') ->
  InboundPacket c' = InboundPacket c
  /\ Socket c' = Socket c
  /\ (st = NetworkReadPacket.Success
      /\ Stats c' = RecordPacketStats (Stats c) (InboundPacket c) false
      \/ st = NetworkReadPacket.MoreData /\ Stats c' = Stats c).
Proof.
  unfold ReadPacket_complete. branch; intros E; pair_eq; simpl; auto.
Qed.

Lemma ReadPacket_body_stats now c st c' :
  ReadPacket_body now c = (st, c') ->
  st = NetworkReadPacket.Success
  /\ Stats c' = RecordPacketStats (Stats c) (InboundPacket c') false
  \/ st <> NetworkReadPacket.Success /\ Stats c' = Stats c.
Proof.
  unfold ReadPacket_body.
  destruct (_ >? 0).
  - destruct (ReceiveData _ _) as [[status buffer] sock].
    destruct status; cbn [negb NetworkReadPacket.is_Success];
      try (intros E; pair_eq; right; split; [discriminate | reflexivity]).
    intros E. apply ReadPacket_complete_stats in E.
    destruct E as (Ei & _ & [[-> Es] | [-> Es]]).
    + left. split; [reflexivity|]. now rewrite Es, Ei.
    + right. split; [discriminate | exact Es].
  - intros E. apply ReadPacket_complete_stats in E.
    destruct E as (Ei & _ & [[-> Es] | [-> Es]]).
    + left. split; [reflexivity|]. now rewrite Es, Ei.
    + right. split; [discriminate | exact Es].
Qed.

Lemma ReadPacket_stats now c st c' :
  ReadPacket now c = (st, c') ->
  st = NetworkReadPacket.Success
  /\ Stats c' = RecordPacketStats (Stats c) (InboundPacket c') false
  \/ st <> NetworkReadPacket.Success /\ Stats c' = Stats c.
Proof.
  unfold ReadPacket.
  destruct (_ <? _); [|apply ReadPacket_body_stats].
  destruct (ReceiveData _ _) as [[status received] sock].
  destruct status; cbn [negb NetworkReadPacket.is_Success];
    try (intros E; pair_eq; right; split; [discriminate | reflexivity]).
  destruct (_ <? _).
  - intros E; pair_eq. right. split; [discriminate | reflexivity].
  - intros E. apply ReadPacket_body_stats in E. exact E.
Qed.
End StatsFacts.

(* ------------------------------------------------------------------ *)
(** ** ReadString and the end of the body *)

Lemma ReadString_scan_unterminated (rest : list byte) :
  Forall (fun b => is_nul b = false) rest ->
  forall start pos stringLen seen,
    exists seen',
      ReadString_scan rest start pos stringLen seen
      = (pos + Z.of_nat (length rest), stringLen + Z.of_nat (length rest),
         seen').
Proof.
  induction 1 as [|b rest Hb _ IH]; intros start pos stringLen seen.
  - exists seen. cbn. now rewrite !Z.add_0_r.
  - cbn [ReadString_scan]. rewrite Hb.
    destruct (IH start (pos + 1) (stringLen + 1)
                (seen ++ [start + stringLen])) as [seen' E].
    exists seen'. rewrite E. cbn [length]. f_equal. f_equal; lia.
Qed.

(** The scan loop itself never looks outside the part of the body it was
    given. *)
Lemma ReadString_scan_in_bounds (rest : list byte) :
  forall start pos stringLen seen pos' stringLen' seen',
    ReadString_scan rest start pos stringLen seen = (pos', stringLen', seen') ->
    exists fresh,
      seen' = seen ++ fresh
      /\ Forall (fun i => start + stringLen <= i
                          < start + stringLen + Z.of_nat (length rest)) fresh
      /\ stringLen <= stringLen' <= stringLen + Z.of_nat (length rest)
      /\ (stringLen' = stringLen + Z.of_nat (length rest) ->
          Forall (fun b => is_nul b = false) rest).
Proof.
  induction rest as [|b rest IH];
    intros start pos stringLen seen pos' stringLen' seen' E.
  - cbn in E. pair_eq. exists []. rewrite app_nil_r. cbn [length].
    split; [reflexivity|]. split; [constructor|]. split; [lia|].
    intros _. constructor.
  - cbn [ReadString_scan] in E. destruct (is_nul b) eqn:Hb.
    + pair_eq. exists [start + stringLen']. cbn [length].
      split; [reflexivity|]. split; [constructor; [lia | constructor]|].
      split; [lia|]. intros Heq. lia.
    + apply IH in E. destruct E as (fresh & -> & Hin & Hlen & Hall).
      exists ((start + stringLen) :: fresh). cbn [length].
      rewrite <- app_assoc.
      split; [reflexivity|]. split; [|split; [lia|]].
      * constructor; [lia|].
        eapply Forall_impl; [|exact Hin]. cbn beta. intros i Hi. lia.
      * intros Heq. constructor; [exact Hb|]. apply Hall. lia.
Qed.

(** X22. Without a zero byte between the cursor and the end of the body,
    the check behind the loop of [ReadString] reads the byte at index
    [Data.size()], one element past the end of the body. *)
Lemma ReadString_unterminated_past_end (beyond : byte) (p : NetworkPacket) :
  0 <= BytesRead p < data_size p ->
  Forall (fun b => is_nul b = false) (skipn (Z.to_nat (BytesRead p)) (Data p)) ->
  In (data_size p) (inspected (ReadString beyond p)).
Proof.
  intros Hcur Hall. unfold ReadString, inspected.
  destruct (Z.geb_spec (BytesRead p) (data_size p)) as [G|_]; [lia|].
  destruct (ReadString_scan_unterminated _ Hall (BytesRead p) (BytesRead p) 0 [])
    as [seen' E].
  rewrite E. rewrite length_skipn. unfold data_size in *.
  replace (BytesRead p + (0 + Z.of_nat (length (Data p) - Z.to_nat (BytesRead p))))
    with (Z.of_nat (length (Data p))) by lia.
  destruct (negb _); cbn [snd]; apply in_or_app; right; left; reflexivity.
Qed.

(** C9. A body ["abc"] without terminator, cursor at its start: whatever
    byte follows the body in memory, [ReadString] inspects the indices 0, 1,
    2 and then 3, which is [Data.size()], one element past the end; when
    that stray byte happens to be zero the call even succeeds and leaves
    the cursor behind the end of the body. *)
Theorem ReadString_reads_past_end :
  data_size unterminated_packet = 3
  /\ (forall beyond,
        inspected (ReadString beyond unterminated_packet) = [0; 1; 2; 3])
  /\ (forall beyond, is_nul beyond = false ->
        fst (fst (ReadString beyond unterminated_packet)) = None)
  /\ fst (fst (ReadString x00 unterminated_packet)) = Some ["a"; "b"; "c"]%byte
  /\ BytesRead (snd (fst (ReadString x00 unterminated_packet))) = 4.
Proof.
  split; [reflexivity|]. split; [|split; [|split]].
  - intros beyond. unfold ReadString, inspected, peek. cbn.
    change (Pos.to_nat 3) with 3%nat. cbn.
    destruct (is_nul beyond); reflexivity.
  - intros beyond Hb. unfold ReadString, peek. cbn.
    change (Pos.to_nat 3) with 3%nat. cbn.
    rewrite Hb. reflexivity.
  - reflexivity.
  - reflexivity.
Qed.

(** X23. With a zero byte somewhere between the cursor and the end of the
    body, every index that [ReadString] inspects lies inside the body. *)
Lemma ReadString_terminated_in_bounds (beyond : byte) (p : NetworkPacket) :
  0 <= BytesRead p ->
  Exists (fun b => is_nul b = true) (skipn (Z.to_nat (BytesRead p)) (Data p)) ->
  Forall (fun i => 0 <= i < data_size p) (inspected (ReadString beyond p)).
Proof.
  intros Hcur Hex. unfold ReadString, inspected.
  destruct (Z.geb_spec (BytesRead p) (data_size p)) as [G|L]; [constructor|].
  destruct (ReadString_scan _ _ _ _ _) as [[pos stringLen] seen] eqn:E.
  apply ReadString_scan_in_bounds in E.
  destruct E as (fresh & -> & Hin & Hlen & Hall).
  rewrite length_skipn in *. unfold data_size in *. cbn [app] in *.
  assert (Hlt : stringLen < Z.of_nat (length (Data p) - Z.to_nat (BytesRead p))).
  { destruct (Z.eq_dec stringLen
                (0 + Z.of_nat (length (Data p) - Z.to_nat (BytesRead p))))
      as [Heq|Hne]; [|lia].
    apply Hall in Heq. apply Exists_exists in Hex. destruct Hex as (b & Hb & Hz).
    rewrite Forall_forall in Heq. apply Heq in Hb. congruence. }
  assert (Hall' : Forall (fun i => 0 <= i < Z.of_nat (length (Data p)))
                    (fresh ++ [BytesRead p + stringLen])).
  { apply Forall_app. split.
    - eapply Forall_impl; [|exact Hin]. cbn beta. intros i Hi. lia.
    - constructor; [lia | constructor]. }
  destruct (negb _); cbn [snd]; exact Hall'.
Qed.

(* ------------------------------------------------------------------ *)
(** ** Inbound reassembly *)

Section InboundFacts.
Context {host : Platform} {ids : NetworkCommand.Ids}.

Lemma data_size_set_Header p h : data_size (set_Header p h) = data_size p.
Proof. reflexivity. Qed.

(** An inbound packet whose header is complete, whose corrected size is
    zero and whose body is empty completes without touching the socket. *)
Lemma ReadPacket_body_empty now c :
  BytesTransferred (InboundPacket c) = Z.of_nat sizeof_PacketHeader ->
  Size (Header (InboundPacket c)) = 0 ->
  Data (InboundPacket c) = [] ->
  exists c',
    ReadPacket_body now c = (NetworkReadPacket.Success, c')
    /\ InboundPacket c' = InboundPacket c
    /\ Socket c' = Socket c
    /\ _lastPacketTime c' = now.
Proof.
  intros Hbt Hsize Hdata.
  unfold ReadPacket_body, ReadPacket_complete, data_size.
  rewrite Hbt, Hsize, Hdata, Z.sub_diag. cbn.
  eexists. split; [reflexivity|]. repeat split.
Qed.
End InboundFacts.

(** C10. When the call that completes the header finds a size field that
    decodes to [s] with [s < sizeof(command)], the adjustment takes [s] away
    again: the corrected [Header.Size] is 0, not a wrapped-around value, and
    the same [ReadPacket] call reports [Success] with an empty body, without
    a further receive. *)
Theorem ReadPacket_undersized_size {host : Platform} {ids : NetworkCommand.Ids}
    (now : Z) (c : NetworkConnection) (received : list byte)
    (sock : TcpSocket) (s : Z) :
  let inbound := InboundPacket c in
  let missing := Z.of_nat sizeof_PacketHeader - BytesTransferred inbound in
  0 <= BytesTransferred inbound < Z.of_nat sizeof_PacketHeader ->
  Data inbound = [] ->
  ReceiveData (Socket c) missing = (NetworkReadPacket.Success, received, sock) ->
  Z.of_nat (length received) = missing ->
  NetworkToHost sizeof_Size
    (Size (header_of_storage
             (store_at_start received (header_storage (Header inbound))))) = s ->
  0 <= s < Z.of_nat sizeof_Id ->
  exists c',
    ReadPacket now c = (NetworkReadPacket.Success, c')
    /\ Size (Header (InboundPacket c')) = 0
    /\ Data (InboundPacket c') = []
    /\ Socket c' = sock.
Proof.
  intros inbound missing Hbt Hdata Hrecv Hlen Hs Hsmall.
  subst inbound missing. unfold ReadPacket. sizes.
  destruct (Z.ltb_spec (BytesTransferred (InboundPacket c)) 6) as [_|]; [|lia].
  unfold size_t at 1. rewrite Z.mod_small by lia.
  rewrite Hrecv. cbn [negb NetworkReadPacket.is_Success].
  cbn [BytesTransferred set_BytesTransferred set_Header].
  destruct (Z.ltb_spec (BytesTransferred (InboundPacket c)
                        + Z.of_nat (length received)) 6) as [|_]; [lia|].
  match goal with
  | |- context [ReadPacket_body now ?c1] =>
      destruct (ReadPacket_body_empty now c1) as (c' & E & Ei & Es & _)
  end.
  - cbn. lia.
  - cbn [InboundPacket set_InboundPacket Header set_Header normalise_header
           set_BytesTransferred Size].
    rewrite Hs. sizes. rewrite Z.min_l by lia.
    rewrite Z.sub_diag. reflexivity.
  - cbn. exact Hdata.
  - exists c'. split; [exact E|]. rewrite Ei, Es.
    cbn [InboundPacket set_InboundPacket Header set_Header normalise_header
           set_BytesTransferred Size Data Socket set_Socket].
    rewrite Hs. sizes. rewrite Z.min_l by lia.
    rewrite Z.sub_diag. repeat split. exact Hdata.
Qed.

(* ------------------------------------------------------------------ *)
(** ** The size field on the wire *)

Section WireFacts.
Context {host : Platform} {ids : NetworkCommand.Ids}.

(** The serialised packet, independently of the host: size plus four and
    command, both most significant byte first, then the body. *)
Lemma SendPacket_buffer_wire (p : NetworkPacket) :
  SendPacket_buffer p
  = bytes_be sizeof_Size (uint16_t (Size (Header p) + Z.of_nat sizeof_Id))
    ++ bytes_be sizeof_Id (Id (Header p)) ++ Data p.
Proof.
  unfold SendPacket_buffer, header_storage. cbn [Size Id].
  rewrite to_host_bytes_HostToNetwork, to_host_bytes_ByteSwapBE.
  now rewrite <- app_assoc.
Qed.

Lemma length_SendPacket_buffer (p : NetworkPacket) :
  Z.of_nat (length (SendPacket_buffer p))
  = Z.of_nat sizeof_PacketHeader + data_size p.
Proof.
  rewrite SendPacket_buffer_wire, !length_app, !length_bytes_be.
  unfold data_size, sizeof_Size, sizeof_Id, sizeof_PacketHeader. lia.
Qed.

Lemma wire_size_SendPacket_buffer (p : NetworkPacket) :
  wire_size (SendPacket_buffer p)
  = uint16_t (Size (Header p) + Z.of_nat sizeof_Id).
Proof.
  unfold wire_size. rewrite SendPacket_buffer_wire.
  rewrite firstn_app, length_bytes_be, Nat.sub_diag, firstn_O, app_nil_r.
  rewrite firstn_all2 by (rewrite length_bytes_be; lia).
  rewrite value_be_bytes_be. unfold uint16_t.
  change (256 ^ Z.of_nat sizeof_Size) with (2 ^ 16).
  apply Z.mod_mod. discriminate.
Qed.

Lemma wire_size_stamped (command : Z) (body : list byte) :
  wire_size (SendPacket_buffer (stamp_Size (make_packet command body)))
  = (Z.of_nat (length body) mod 2 ^ 16 + 4) mod 2 ^ 16.
Proof.
  rewrite wire_size_SendPacket_buffer. reflexivity.
Qed.

(** [ReadPacket_body] and the completion test leave the header alone. *)
Lemma ReadPacket_complete_Header now c :
  Header (InboundPacket (snd (ReadPacket_complete now c)))
  = Header (InboundPacket c).
Proof. unfold ReadPacket_complete. branch; reflexivity. Qed.

Lemma ReadPacket_body_Header now c :
  Header (InboundPacket (snd (ReadPacket_body now c)))
  = Header (InboundPacket c).
Proof.
  unfold ReadPacket_body.
  destruct (_ >? 0); [|apply ReadPacket_complete_Header].
  destruct (ReceiveData _ _) as [[status buffer] sock].
  destruct (negb _); [reflexivity|].
  rewrite ReadPacket_complete_Header. reflexivity.
Qed.

(** Six bytes stored over the header and normalised: the size is the
    big-endian value of the first two less the adjustment, the command
    the big-endian value of the other four. *)
Lemma normalise_received_header (hdr storage : list byte) :
  length hdr = sizeof_PacketHeader ->
  normalise_header (header_of_storage (store_at_start hdr storage))
  = {| Size := uint16_t (value_be (firstn 2 hdr)
                         - Z.min (value_be (firstn 2 hdr)) 4);
       Id := value_be (skipn 2 hdr) |}.
Proof.
  intros Hlen.
  destruct hdr as [|a [|b [|c0 [|c1 [|c2 [|c3 [|]]]]]]]; try discriminate.
  unfold normalise_header, header_of_storage, store_at_start.
  cbn [app firstn skipn sizeof_Size sizeof_Id length Size Id].
  pose proof (NetworkToHost_of_host_bytes [a; b]) as E1.
  pose proof (ByteSwapBE_of_host_bytes [c0; c1; c2; c3]) as E2.
  cbn [length] in E1, E2. unfold sizeof_Size, sizeof_Id.
  rewrite E1, E2. reflexivity.
Qed.

(** The scripted socket hands out a whole header when one is pending and
    the transport does not cut it. *)
Lemma ReceiveData_header (s : TcpSocket) (k : nat) evs hdr rest :
  rx_script s = RxData k :: evs ->
  rx_pending s = hdr ++ rest ->
  (length hdr <= k)%nat ->
  ReceiveData s (Z.of_nat (length hdr))
  = (NetworkReadPacket.Success, hdr,
     {| rx_pending := rest; rx_script := evs;
        tx_script := tx_script s; tx_wire := tx_wire s |}).
Proof.
  intros Hs Hp Hk. unfold ReceiveData. rewrite Hs, Hp, Nat2Z.id.
  rewrite length_app.
  replace (Nat.min k (Nat.min (length hdr) (length hdr + length rest)))
    with (length hdr + 0)%nat by lia.
  rewrite firstn_app_2, skipn_app, skipn_all2 by lia.
  cbn [firstn]. rewrite app_nil_r.
  replace (length hdr + 0 - length hdr)%nat with 0%nat by lia.
  reflexivity.
Qed.

(** A header that arrives in one receive is decoded within that call. *)
Lemma ReadPacket_whole_header now c k evs hdr rest :
  BytesTransferred (InboundPacket c) = 0 ->
  rx_script (Socket c) = RxData k :: evs ->
  rx_pending (Socket c) = hdr ++ rest ->
  length hdr = sizeof_PacketHeader ->
  (sizeof_PacketHeader <= k)%nat ->
  Header (InboundPacket (snd (ReadPacket now c)))
  = {| Size := uint16_t (value_be (firstn 2 hdr)
                         - Z.min (value_be (firstn 2 hdr)) 4);
       Id := value_be (skipn 2 hdr) |}.
Proof.
  intros Hbt Hs Hp Hlen Hk. unfold ReadPacket. rewrite Hbt.
  change (0 <? Z.of_nat sizeof_PacketHeader) with true. cbv iota.
  change (size_t (Z.of_nat sizeof_PacketHeader - 0))
    with (Z.of_nat sizeof_PacketHeader).
  rewrite <- Hlen at 1.
  rewrite (ReceiveData_header _ k evs hdr rest Hs Hp) by lia.
  cbn [negb NetworkReadPacket.is_Success BytesTransferred
         set_BytesTransferred set_Header].
  rewrite Hbt, Hlen. cbn [Z.add]. 
  change (Z.of_nat sizeof_PacketHeader <? Z.of_nat sizeof_PacketHeader)
    with false. cbv iota.
  rewrite ReadPacket_body_Header.
  cbn [InboundPacket set_InboundPacket Header set_Header].
  apply normalise_received_header. exact Hlen.
Qed.
End WireFacts.

(** C3, as stated, at a body of 65532 bytes: the 16-bit size field cannot
    hold 65536, the send path puts 0 on the wire. *)
Lemma header_size_wraps_at_65532 :
  wire_size
    (SendPacket_buffer (host := little_endian_host)
       (stamp_Size (make_packet 6 body_65532)))
  <> Z.of_nat (length body_65532) + 4.
Proof.
  rewrite wire_size_stamped. unfold body_65532.
  rewrite repeat_length, Z2Nat.id by lia.
  vm_compute. discriminate.
Qed.

(** C3, amended. For a body of at most 65531 bytes the size field that the
    send path puts on the wire is the body length plus 4, and a receiver
    that gets the header in one piece reconstructs [Header.Size] as the
    body length: the subtraction undoes the addition. *)
Theorem header_size_compat {host : Platform} {ids : NetworkCommand.Ids}
    (command : Z) (body : list byte) :
  Z.of_nat (length body) <= 65531 ->
  let sent := SendPacket_buffer (stamp_Size (make_packet command body)) in
  wire_size sent = Z.of_nat (length body) + 4
  /\ forall now c k evs rest,
       BytesTransferred (InboundPacket c) = 0 ->
       rx_script (Socket c) = RxData k :: evs ->
       rx_pending (Socket c) = sent ++ rest ->
       (sizeof_PacketHeader <= k)%nat ->
       Size (Header (InboundPacket (snd (ReadPacket now c))))
       = Z.of_nat (length body).
Proof.
  intros Hlen sent.
  assert (Hw : wire_size sent = Z.of_nat (length body) + 4).
  { subst sent. rewrite wire_size_stamped.
    rewrite (Z.mod_small (Z.of_nat (length body))) by lia.
    apply Z.mod_small. lia. }
  split; [exact Hw|].
  intros now c k evs rest Hbt Hs Hp Hk.
  pose proof (SendPacket_buffer_wire (stamp_Size (make_packet command body)))
    as Hbuf.
  fold sent in Hbuf. rewrite app_assoc in Hbuf.
  set (hdr := bytes_be sizeof_Size _ ++ bytes_be sizeof_Id _) in Hbuf.
  assert (Hh : length hdr = sizeof_PacketHeader).
  { subst hdr. now rewrite length_app, !length_bytes_be. }
  rewrite Hbuf, <- app_assoc in Hp.
  rewrite (ReadPacket_whole_header now c k evs hdr _ Hbt Hs Hp Hh Hk).
  cbn [Size].
  assert (Hv : value_be (firstn 2 hdr) = Z.of_nat (length body) + 4).
  { rewrite <- Hw. unfold wire_size. rewrite Hbuf.
    rewrite firstn_app. rewrite Hh.
    change (sizeof_Size - sizeof_PacketHeader)%nat with 0%nat.
    now rewrite firstn_O, app_nil_r. }
  rewrite Hv. unfold uint16_t. rewrite Z.min_r by lia.
  rewrite Z.mod_small by lia. lia.
Qed.

(* ------------------------------------------------------------------ *)
(** ** A header that arrives in pieces *)

Section Starvation.
Context {host : Platform} {ids : NetworkCommand.Ids}.

Lemma ReadPacket_starved now c :
  starved c ->
  fst (ReadPacket now c) <> NetworkReadPacket.Success
  /\ starved (snd (ReadPacket now c)).
Proof.
  intros (Hp & Hbt & Hsz). unfold ReadPacket. rewrite Hbt.
  assert (Hd : 0 <= data_size (InboundPacket c))
    by (unfold data_size; lia).
  sizes.
  destruct (Z.ltb_spec (6 + data_size (InboundPacket c)) 6) as [|_]; [lia|].
  unfold ReadPacket_body. rewrite Hbt. sizes.
  replace (6 + data_size (InboundPacket c) - 6)
    with (data_size (InboundPacket c)) by lia.
  unfold size_t.
  rewrite (Z.mod_small (data_size (InboundPacket c))) by lia.
  rewrite Z.mod_small by lia.
  destruct (Z.gtb_spec (Size (Header (InboundPacket c))
                        - data_size (InboundPacket c)) 0) as [_|]; [|lia].
  assert (Hkeep : forall sock,
             rx_pending sock = [] -> starved (set_Socket c sock)).
  { intros sock Hs. unfold starved. cbn. sizes. repeat split; assumption || lia. }
  assert (Hidle : forall sock,
             rx_pending sock = [] ->
             let c1 :=
               set_InboundPacket (set_Socket c sock)
                 (Write (set_BytesTransferred (InboundPacket c)
                           (6 + data_size (InboundPacket c) + 0)) []) in
             ReadPacket_complete now c1 = (NetworkReadPacket.MoreData, c1)
             /\ starved c1).
  { intros sock Hs c1.
    assert (Hds : data_size (InboundPacket c1) = data_size (InboundPacket c)).
    { subst c1. unfold data_size. cbn. now rewrite app_nil_r. }
    split.
    - unfold ReadPacket_complete. rewrite Hds.
      replace (Size (Header (InboundPacket c1)))
        with (Size (Header (InboundPacket c))) by reflexivity.
      destruct (Z.eqb_spec (data_size (InboundPacket c))
                  (Size (Header (InboundPacket c)))) as [|_]; [lia|].
      reflexivity.
    - unfold starved. rewrite Hds. subst c1. cbn. sizes.
      repeat split; assumption || lia. }
  unfold ReceiveData. rewrite Hp.
  destruct (rx_script (Socket c)) as [|[k|st] evs].
  - cbn. split; [discriminate|]. apply Hkeep. exact Hp.
  - rewrite Nat.min_0_r, Nat.min_0_r.
    cbn [firstn skipn negb NetworkReadPacket.is_Success length Z.of_nat].
    match goal with
    | |- context [ReadPacket_complete now (set_InboundPacket (set_Socket c ?s) _)] =>
        destruct (Hidle s eq_refl) as [E Hst]
    end.
    cbv zeta in E, Hst. rewrite E. cbn [fst snd].
    split; [discriminate | exact Hst].
  - destruct st; cbn [negb NetworkReadPacket.is_Success fst snd];
      try (split; [discriminate | apply Hkeep; reflexivity]).
    match goal with
    | |- context [ReadPacket_complete now (set_InboundPacket (set_Socket c ?s) _)] =>
        destruct (Hidle s eq_refl) as [E Hst]
    end.
    cbv zeta in E, Hst. cbn [length Z.of_nat]. rewrite E. cbn [fst snd].
    split; [discriminate | exact Hst].
Qed.

Lemma ReadPacket_poll_starved now c (n : nat) :
  starved c ->
  fst (ReadPacket_poll n now c) <> NetworkReadPacket.Success.
Proof.
  revert c. induction n as [|n IH]; intros c Hc; [discriminate|].
  cbn [ReadPacket_poll].
  destruct (ReadPacket_starved now c Hc) as [Hne Hst].
  destruct (ReadPacket now c) as [status c'].
  cbn [fst snd] in *.
  destruct status; try (cbn; congruence).
  apply IH. exact Hst.
Qed.
End Starvation.

(** C2. The header [00 07 00 00 00 06] (size 7, command 6) of a packet with a
    three-byte body. Received in one piece it decodes to size 3, command 6.
    Received as three bytes and three bytes, the second receive is stored at
    the start of the header again, over the first three bytes: the decoded
    size is 0 instead of 3, and the call reports a complete packet with an
    empty body. This holds on either host and whatever the inbound packet
    was constructed with. *)
Theorem header_in_two_chunks_differs (host : Platform)
    (ids : NetworkCommand.Ids) (auth : NetworkAuth.t) (id0 now : Z) :
  let header := [x00; x07; x00; x00; x00; x06] in
  let whole :=
    ReadPacket now
      (fresh_connection (scripted_socket header [RxData 6] []) auth id0) in
  let first :=
    ReadPacket now
      (fresh_connection (scripted_socket header [RxData 3; RxData 3] [])
         auth id0) in
  let second := ReadPacket now (snd first) in
  Header (InboundPacket (snd whole)) = {| Size := 3; Id := 6 |}
  /\ fst first = NetworkReadPacket.MoreData
  /\ BytesTransferred (InboundPacket (snd first)) = 3
  /\ fst second = NetworkReadPacket.Success
  /\ Size (Header (InboundPacket (snd second))) = 0
  /\ Data (InboundPacket (snd second)) = []
  /\ rx_pending (Socket (snd second)) = [].
Proof.
  destruct host as [[|]]; vm_compute; repeat split; reflexivity.
Qed.

(** C1. Command 6 with body [01 02 03] is queued and sent by one connection
    ([QueuePacket], [SendQueuedPackets]); the nine bytes that reach the wire
    are then received by another, one byte per call. Each header byte lands
    on the first byte of the header storage, so the decoded size is 1532
    instead of 3: after all nine bytes have been consumed no packet has been
    completed, and no later poll completes one. This holds on either host,
    for any numbering of the commands and whatever the inbound packet was
    constructed with. *)
Theorem roundtrip_fails_byte_by_byte (host : Platform)
    (ids : NetworkCommand.Ids) (auth : NetworkAuth.t) (id0 now : Z) :
  let sender :=
    run_SendOps
      (fresh_connection (scripted_socket [] [] [100%nat]) NetworkAuth.Ok id0)
      [Enqueue 6 [x01; x02; x03]; Drain] in
  let sent := tx_wire (Socket sender) in
  let receiver :=
    fresh_connection (scripted_socket sent (repeat (RxData 1) 12) [])
      auth id0 in
  let r := ReadPacket_poll 12 now receiver in
  _outboundPackets sender = []
  /\ sent = [x00; x07; x00; x00; x00; x06; x01; x02; x03]
  /\ fst r = NetworkReadPacket.MoreData
  /\ rx_pending (Socket (snd r)) = []
  /\ Size (Header (InboundPacket (snd r))) = 1532
  /\ Data (InboundPacket (snd r)) = [x01; x02; x03]
  /\ forall n, fst (ReadPacket_poll n now (snd r)) <> NetworkReadPacket.Success.
Proof.
  intros sender sent receiver r.
  assert (Hsent : _outboundPackets sender = []
                  /\ sent = [x00; x07; x00; x00; x00; x06; x01; x02; x03])
    by (destruct host as [[|]]; split; reflexivity).
  destruct Hsent as [Hq Hsent].
  assert (Hr : fst r = NetworkReadPacket.MoreData
               /\ rx_pending (Socket (snd r)) = []
               /\ Size (Header (InboundPacket (snd r))) = 1532
               /\ Data (InboundPacket (snd r)) = [x01; x02; x03]
               /\ BytesTransferred (InboundPacket (snd r)) = 9).
  { subst r receiver. rewrite Hsent. destruct host as [[|]]; vm_compute;
      repeat split; reflexivity. }
  destruct Hr as (H1 & H2 & H3 & H4 & H5).
  repeat (split; [assumption|]).
  intros n. apply ReadPacket_poll_starved.
  unfold starved, data_size. rewrite H2, H3, H4, H5. cbn.
  repeat split; reflexivity.
Qed.

(* ------------------------------------------------------------------ *)
(** ** Order of the bytes on the wire *)

Lemma skipn_split {A : Type} (l : list A) (b n : nat) :
  skipn b l = firstn n (skipn b l) ++ skipn (b + n) l.
Proof.
  rewrite <- (firstn_skipn n (skipn b l)) at 1.
  rewrite skipn_skipn. now rewrite (Nat.add_comm n b).
Qed.

Section OutboundFacts.
Context {host : Platform} {ids : NetworkCommand.Ids}.

Lemma SendPacket_buffer_set_BytesTransferred p n :
  SendPacket_buffer (set_BytesTransferred p n) = SendPacket_buffer p.
Proof. reflexivity. Qed.

(** One send attempt: the socket gets a prefix of what is left of the
    packet, and the packet remembers how far it got. *)
Lemma SendPacket_wire c p b p' c' :
  0 <= BytesTransferred p <= Z.of_nat (length (SendPacket_buffer p)) ->
  addressable p ->
  SendPacket c p = (b, p', c') ->
  SendPacket_buffer p' = SendPacket_buffer p
  /\ AuthStatus c' = AuthStatus c
  /\ BytesTransferred p <= BytesTransferred p'
       <= Z.of_nat (length (SendPacket_buffer p))
  /\ tx_wire (Socket c')
     ++ skipn (Z.to_nat (BytesTransferred p')) (SendPacket_buffer p)
     = tx_wire (Socket c)
       ++ skipn (Z.to_nat (BytesTransferred p)) (SendPacket_buffer p)
  /\ (b = true ->
      BytesTransferred p' = Z.of_nat (length (SendPacket_buffer p))).
Proof.
  intros Hbt Haddr. unfold addressable in Haddr. unfold SendPacket.
  set (buffer := SendPacket_buffer p) in *.
  set (L := Z.of_nat (length buffer)) in *.
  unfold size_t. rewrite (Z.mod_small (L - BytesTransferred p)) by lia.
  assert (Hslice :
            firstn (Z.to_nat (L - BytesTransferred p))
              (skipn (Z.to_nat (BytesTransferred p)) buffer)
            = skipn (Z.to_nat (BytesTransferred p)) buffer).
  { apply firstn_all2. rewrite length_skipn. lia. }
  rewrite Hslice. clear Hslice.
  assert (Hrest : length (skipn (Z.to_nat (BytesTransferred p)) buffer)
                  = (length buffer - Z.to_nat (BytesTransferred p))%nat)
    by apply length_skipn.
  unfold SendData.
  destruct (tx_script (Socket c)) as [|k ks].
  - (* nothing accepted *)
    cbn [Z.gtb Z.compare].
    destruct (Z.eqb_spec (BytesTransferred p) L) as [E|N];
      intros R; pair_eq; cbn [Socket set_Socket set_Stats AuthStatus];
      (split; [reflexivity|]); (split; [reflexivity|]);
      (split; [lia|]); (split; [reflexivity|]); intros X;
      [exact E | discriminate].
  - set (n := Nat.min k _).
    assert (Hn : (n <= length buffer - Z.to_nat (BytesTransferred p))%nat)
      by (subst n; lia).
    assert (Hstep : forall m,
               m = BytesTransferred p + Z.of_nat n ->
               (tx_wire (Socket c)
                ++ firstn n (skipn (Z.to_nat (BytesTransferred p)) buffer))
               ++ skipn (Z.to_nat m) buffer
               = tx_wire (Socket c)
                 ++ skipn (Z.to_nat (BytesTransferred p)) buffer).
    { intros q Hq. rewrite <- app_assoc. f_equal.
      rewrite Hq, Z2Nat.inj_add, Nat2Z.id by lia.
      symmetry. apply skipn_split. }
    destruct (Z.gtb_spec (Z.of_nat n) 0) as [Hpos|Hzero].
    + cbn [BytesTransferred set_BytesTransferred].
      destruct (Z.eqb_spec (BytesTransferred p + Z.of_nat n) L) as [E|N];
        intros R; pair_eq;
        cbn [Socket set_Socket set_Stats AuthStatus tx_wire
               BytesTransferred set_BytesTransferred];
        (split; [reflexivity|]); (split; [reflexivity|]);
        (split; [lia|]); (split; [apply Hstep; reflexivity|]); intros X;
        [exact E | discriminate].
    + assert (n = 0%nat) by lia.
      destruct (Z.eqb_spec (BytesTransferred p) L) as [E|N];
        intros R; pair_eq;
        cbn [Socket set_Socket set_Stats AuthStatus tx_wire];
        (split; [reflexivity|]); (split; [reflexivity|]);
        (split; [lia|]); (split; [apply Hstep; lia|]); intros X;
        [exact E | discriminate].
Qed.
End OutboundFacts.

Section OrderFacts.
Context {host : Platform} {ids : NetworkCommand.Ids}.

Lemma unsent_untouched (queue : list NetworkPacket) :
  Forall (fun p => BytesTransferred p = 0) queue ->
  unsent queue = concat (map SendPacket_buffer queue).
Proof.
  destruct 1 as [|p rest Hp _]; [reflexivity|].
  cbn [unsent map concat]. now rewrite Hp.
Qed.

Lemma untouched_in_flight (queue : list NetworkPacket) :
  Forall (fun p => BytesTransferred p = 0) queue ->
  front_only_in_flight queue.
Proof.
  destruct 1 as [|p rest Hp Hrest]; [exact I|].
  cbn. split; [lia | exact Hrest].
Qed.

(** Draining: what the socket accepted and what is still queued make up
    what was queued before, in the same order. *)
Lemma SendQueuedPackets_loop_wire (queue : list NetworkPacket) :
  forall c c' queue',
    front_only_in_flight queue ->
    Forall addressable queue ->
    SendQueuedPackets_loop c queue = (c', queue') ->
    tx_wire (Socket c') ++ unsent queue'
    = tx_wire (Socket c) ++ unsent queue
    /\ front_only_in_flight queue'
    /\ Forall addressable queue'
    /\ AuthStatus c' = AuthStatus c.
Proof.
  induction queue as [|p rest IH]; intros c c' queue' Hq Ha Hloop.
  - cbn in Hloop. pair_eq. repeat split; auto.
  - cbn [SendQueuedPackets_loop] in Hloop.
    destruct (SendPacket c p) as [[b p1] c1] eqn:Hsend.
    destruct Hq as [Hbt Hrest]. inversion Ha as [|? ? Hap Har]; subst.
    destruct (SendPacket_wire c p b p1 c1 Hbt Hap Hsend)
      as (Hbuf & Hauth & Hbt1 & Hwire & Hdone).
    destruct b.
    + (* fully sent: popped, the loop goes on with the rest *)
      apply IH in Hloop; [|now apply untouched_in_flight | exact Har].
      destruct Hloop as (Hw & Hq' & Ha' & Hauth').
      split; [|split; [exact Hq' | split; [exact Ha' | congruence]]].
      rewrite Hw. cbn [unsent]. rewrite app_assoc, <- Hwire.
      rewrite (Hdone eq_refl), Nat2Z.id, skipn_all, app_nil_r.
      f_equal. now apply unsent_untouched.
    + (* partly sent: the loop stops, the packet stays in front *)
      pair_eq.
      split; [|split; [|split; [|exact Hauth]]].
      * cbn [unsent]. rewrite Hbuf, !app_assoc. now rewrite Hwire.
      * cbn. rewrite Hbuf. split; [lia | exact Hrest].
      * constructor; [|exact Har]. unfold addressable in *. now rewrite Hbuf.
Qed.

Lemma SendQueuedPackets_wire c :
  front_only_in_flight (_outboundPackets c) ->
  Forall addressable (_outboundPackets c) ->
  let c' := SendQueuedPackets c in
  tx_wire (Socket c') ++ unsent (_outboundPackets c')
  = tx_wire (Socket c) ++ unsent (_outboundPackets c)
  /\ front_only_in_flight (_outboundPackets c')
  /\ Forall addressable (_outboundPackets c')
  /\ AuthStatus c' = AuthStatus c.
Proof.
  intros Hq Ha. unfold SendQueuedPackets.
  destruct (SendQueuedPackets_loop c (_outboundPackets c)) as [c1 q1] eqn:E.
  apply SendQueuedPackets_loop_wire in E; assumption.
Qed.

Lemma addressable_stamp_Size p :
  addressable p -> addressable (stamp_Size p).
Proof.
  unfold addressable. now rewrite !length_SendPacket_buffer.
Qed.

(** Queueing at the tail: the packet's bytes come after everything that
    is already queued. *)
Lemma QueuePacket_tail_wire c command body :
  front_only_in_flight (_outboundPackets c) ->
  Forall addressable (_outboundPackets c) ->
  addressable (make_packet command body) ->
  let c' := QueuePacket c (make_packet command body) false in
  tx_wire (Socket c') = tx_wire (Socket c)
  /\ unsent (_outboundPackets c')
     = unsent (_outboundPackets c)
       ++ queued_bytes c (Enqueue command body)
  /\ front_only_in_flight (_outboundPackets c')
  /\ Forall addressable (_outboundPackets c')
  /\ AuthStatus c' = AuthStatus c.
Proof.
  intros Hq Ha Hp. unfold QueuePacket, queued_bytes.
  destruct (_ || _).
  - cbn [_outboundPackets set_outboundPackets Socket AuthStatus].
    set (p := stamp_Size (make_packet command body)).
    split; [reflexivity|]. split; [|split; [|split; [|reflexivity]]].
    + destruct (_outboundPackets c) as [|front rest].
      * cbn. now rewrite app_nil_r.
      * cbn [app unsent map]. rewrite map_app, concat_app. cbn [map concat].
        now rewrite app_nil_r, app_assoc.
    + destruct (_outboundPackets c) as [|front rest].
      * cbn. split; [lia | constructor].
      * destruct Hq as [Hbt Hrest]. cbn. split; [exact Hbt|].
        apply Forall_app. split; [exact Hrest|].
        constructor; [reflexivity | constructor].
    + apply Forall_app. split; [exact Ha|].
      constructor; [|constructor]. now apply addressable_stamp_Size.
  - cbv zeta. rewrite app_nil_r. repeat split; assumption.
Qed.

Lemma queued_bytes_auth c c' op :
  AuthStatus c' = AuthStatus c -> queued_bytes c' op = queued_bytes c op.
Proof. intros E. unfold queued_bytes. now rewrite E. Qed.

Lemma run_SendOps_wire (ops : list SendOp) :
  forall c,
    front_only_in_flight (_outboundPackets c) ->
    Forall addressable (_outboundPackets c) ->
    Forall op_addressable ops ->
    let c' := run_SendOps c ops in
    tx_wire (Socket c') ++ unsent (_outboundPackets c')
    = tx_wire (Socket c) ++ unsent (_outboundPackets c)
      ++ concat (map (queued_bytes c) ops)
    /\ front_only_in_flight (_outboundPackets c').
Proof.
  induction ops as [|op ops IH]; intros c Hq Ha Hops.
  - cbn. rewrite app_nil_r. split; [reflexivity | exact Hq].
  - inversion Hops as [|? ? Hop Hops']; subst.
    cbn [run_SendOps fold_left map concat].
    fold (run_SendOps (apply_SendOp c op) ops).
    assert (Hstep :
              tx_wire (Socket (apply_SendOp c op))
              ++ unsent (_outboundPackets (apply_SendOp c op))
              = tx_wire (Socket c) ++ unsent (_outboundPackets c)
                ++ queued_bytes c op
              /\ front_only_in_flight (_outboundPackets (apply_SendOp c op))
              /\ Forall addressable (_outboundPackets (apply_SendOp c op))
              /\ AuthStatus (apply_SendOp c op) = AuthStatus c).
    { destruct op as [command body|]; cbn [apply_SendOp].
      - destruct (QueuePacket_tail_wire c command body Hq Ha Hop)
          as (Hw & Hu & Hq' & Ha' & Hauth).
        rewrite Hw, Hu. repeat split; assumption.
      - destruct (SendQueuedPackets_wire c Hq Ha) as (Hw & Hq' & Ha' & Hauth).
        cbn [queued_bytes]. rewrite app_nil_r. repeat split; assumption. }
    destruct Hstep as (Hw & Hq' & Ha' & Hauth).
    destruct (IH (apply_SendOp c op) Hq' Ha' Hops') as [Hw' Hq''].
    split; [|exact Hq''].
    rewrite Hw'. rewrite app_assoc, Hw, <- !app_assoc.
    rewrite (map_ext (queued_bytes (apply_SendOp c op)) (queued_bytes c))
      by (intros o; now apply queued_bytes_auth).
    reflexivity.
Qed.
End OrderFacts.

(** C4. Starting from an empty queue, after any sequence of tail enqueues
    and [SendQueuedPackets] calls, against a transport that accepts any
    number of bytes per send: the bytes the socket has accepted, followed by
    the bytes still queued, are the serialised packets in the order in
    which they were queued; and no packet behind the front of the queue has
    had a byte sent. So the wire carries a prefix of the packets' bytes in
    queue order: every byte of a packet before any byte of the next. *)
Theorem in_order_send {host : Platform} {ids : NetworkCommand.Ids}
    (c : NetworkConnection) (ops : list SendOp) :
  _outboundPackets c = [] ->
  Forall op_addressable ops ->
  let c' := run_SendOps c ops in
  tx_wire (Socket c') ++ unsent (_outboundPackets c')
  = tx_wire (Socket c) ++ concat (map (queued_bytes c) ops)
  /\ Forall (fun p => BytesTransferred p = 0) (tl (_outboundPackets c')).
Proof.
  intros Hempty Hops.
  destruct (run_SendOps_wire ops c) as [Hw Hq].
  - rewrite Hempty. exact I.
  - rewrite Hempty. constructor.
  - exact Hops.
  - rewrite Hempty in Hw. cbn [unsent app] in Hw.
    split; [exact Hw|].
    destruct (_outboundPackets (run_SendOps c ops)) as [|front rest];
      [constructor | exact (proj2 Hq)].
Qed.

(* ------------------------------------------------------------------ *)
(** ** Round trip when the header arrives whole *)

Lemma firstn_add {A : Type} (l : list A) (j n : nat) :
  firstn (j + n) l = firstn j l ++ firstn n (skipn j l).
Proof.
  revert l. induction j as [|j IH]; intros l; [reflexivity|].
  destruct l as [|a l]; cbn [Nat.add firstn skipn app].
  - now rewrite firstn_nil.
  - now rewrite IH.
Qed.

Section RoundTrip.
Context {host : Platform} {ids : NetworkCommand.Ids}.

Lemma ReadPacket_past_header now c :
  Z.of_nat sizeof_PacketHeader <= BytesTransferred (InboundPacket c) ->
  ReadPacket now c = ReadPacket_body now c.
Proof.
  intros Hbt. unfold ReadPacket.
  destruct (Z.ltb_spec (BytesTransferred (InboundPacket c))
              (Z.of_nat sizeof_PacketHeader)) as [|_]; [lia | reflexivity].
Qed.

(** The completion test on a body in progress. *)
Lemma ReadPacket_complete_progress now command body j chunks rest c :
  body_in_progress command body j chunks rest c ->
  (j = length body ->
   exists c', ReadPacket_complete now c = (NetworkReadPacket.Success, c')
              /\ InboundPacket c' = InboundPacket c)
  /\ ((j < length body)%nat ->
      ReadPacket_complete now c = (NetworkReadPacket.MoreData, c)).
Proof.
  intros (Hh & Hd & Hbt & Hp & Hs & Hj).
  unfold ReadPacket_complete, data_size. rewrite Hh, Hd. cbn [Size].
  rewrite length_firstn, Nat.min_l by exact Hj.
  split; intros E.
  - subst j. rewrite Z.eqb_refl. eexists. split; reflexivity.
  - destruct (Z.eqb_spec (Z.of_nat j) (Z.of_nat (length body))); [lia|].
    reflexivity.
Qed.

(** One receive of the body phase: at least one more byte arrives. *)
Lemma ReadPacket_body_progress now command body j k chunks rest c :
  body_in_progress command body j (k :: chunks) rest c ->
  Z.of_nat (length body) < 2 ^ 16 ->
  (j < length body)%nat ->
  (1 <= k)%nat ->
  exists m c1,
    (1 <= m)%nat
    /\ body_in_progress command body (j + m) chunks rest c1
    /\ ReadPacket_body now c = ReadPacket_complete now c1.
Proof.
  intros (Hh & Hd & Hbt & Hp & Hs & Hj) Hsmall Hlt Hk.
  unfold ReadPacket_body. rewrite Hh, Hbt. cbn [Size]. sizes.
  replace (6 + Z.of_nat j - 6) with (Z.of_nat j) by lia.
  unfold size_t. rewrite (Z.mod_small (Z.of_nat j)) by lia.
  rewrite Z.mod_small by lia.
  destruct (Z.gtb_spec (Z.of_nat (length body) - Z.of_nat j) 0) as [_|]; [|lia].
  unfold ReceiveData. rewrite Hs, Hp. cbn [map].
  set (m := Nat.min k _).
  assert (Hm : (1 <= m <= length body - j)%nat).
  { subst m. rewrite length_app, length_skipn. unfold NetworkBufferSize. lia. }
  cbn [negb NetworkReadPacket.is_Success].
  rewrite firstn_app, skipn_app, length_skipn.
  replace (m - (length body - j))%nat with 0%nat by lia.
  cbn [firstn skipn]. rewrite app_nil_r.
  exists m. eexists. split; [lia|]. split; [|reflexivity].
  unfold body_in_progress.
  cbn [InboundPacket set_InboundPacket Socket set_Socket Write Header Data
         BytesTransferred set_BytesTransferred rx_pending rx_script].
  rewrite Hh, Hd. sizes.
  split; [reflexivity|]. split; [symmetry; apply firstn_add|].
  split.
  { rewrite length_firstn, length_skipn. lia. }
  split; [|split; [reflexivity | lia]].
  rewrite skipn_skipn. now rewrite Nat.add_comm.
Qed.

(** Polling a body in progress completes the packet, provided the transport
    delivers: enough receives with at least a byte each, enough polls. *)
Lemma ReadPacket_poll_body now command body rest (chunks : list nat) :
  forall j c n,
    body_in_progress command body j chunks rest c ->
    Z.of_nat (length body) < 2 ^ 16 ->
    Forall (fun k => 1 <= k)%nat chunks ->
    (length body - j <= length chunks)%nat ->
    (length chunks < n)%nat ->
    exists c',
      ReadPacket_poll n now c = (NetworkReadPacket.Success, c')
      /\ Header (InboundPacket c')
         = {| Size := Z.of_nat (length body); Id := command |}
      /\ Data (InboundPacket c') = body.
Proof.
  induction chunks as [|k chunks IH]; intros j c n Hin Hsmall Hk Hlen Hn.
  - (* nothing left to receive: the body must be complete *)
    destruct n as [|n]; [cbn in Hn; lia|].
    assert (Hj : j = length body).
    { destruct Hin as (_ & _ & _ & _ & _ & Hj). cbn in Hlen. lia. }
    pose proof Hin as (Hh & Hd & Hbt & Hp & Hs & _).
    cbn [ReadPacket_poll]. rewrite ReadPacket_past_header by lia.
    unfold ReadPacket_body. rewrite Hh, Hbt. cbn [Size]. subst j. sizes.
    replace (6 + Z.of_nat (length body) - 6)
      with (Z.of_nat (length body)) by lia.
    unfold size_t. rewrite (Z.mod_small (Z.of_nat (length body))) by lia.
    rewrite Z.sub_diag. cbn [Z.modulo Z.div_eucl Z.gtb Z.compare].
    destruct (proj1 (ReadPacket_complete_progress now _ _ _ _ _ c Hin) eq_refl)
      as (c' & E & Ei).
    rewrite E. exists c'. split; [reflexivity|]. rewrite Ei.
    split; [exact Hh|]. rewrite Hd. apply firstn_all.
  - destruct n as [|n]; [lia|].
    pose proof Hin as (Hh & Hd & Hbt & Hp & Hs & Hj).
    inversion Hk as [|? ? Hk1 Hk']; subst.
    cbn [ReadPacket_poll]. rewrite ReadPacket_past_header by lia.
    destruct (Nat.eq_dec j (length body)) as [Heq|Hne].
    + (* already complete *)
      unfold ReadPacket_body. rewrite Hh, Hbt. cbn [Size]. subst j. sizes.
      replace (6 + Z.of_nat (length body) - 6)
        with (Z.of_nat (length body)) by lia.
      unfold size_t. rewrite (Z.mod_small (Z.of_nat (length body))) by lia.
      rewrite Z.sub_diag. cbn [Z.modulo Z.div_eucl Z.gtb Z.compare].
      destruct (proj1 (ReadPacket_complete_progress now _ _ _ _ _ c Hin) eq_refl)
        as (c' & E & Ei).
      rewrite E. exists c'. split; [reflexivity|]. rewrite Ei.
      split; [exact Hh|]. rewrite Hd. apply firstn_all.
    + destruct (ReadPacket_body_progress now command body j k chunks rest c
                  Hin Hsmall ltac:(lia) Hk1) as (m & c1 & Hm & Hin1 & E).
      rewrite E.
      pose proof Hin1 as (Hh1 & Hd1 & _ & _ & _ & Hj1).
      destruct (Nat.eq_dec (j + m) (length body)) as [Hdone|Hmore].
      * destruct (proj1 (ReadPacket_complete_progress now _ _ _ _ _ c1 Hin1)
                    Hdone) as (c' & E' & Ei).
        rewrite E'. exists c'. split; [reflexivity|]. rewrite Ei.
        split; [exact Hh1|]. rewrite Hd1, Hdone. apply firstn_all.
      * rewrite (proj2 (ReadPacket_complete_progress now _ _ _ _ _ c1 Hin1))
          by lia.
        apply (IH (j + m)%nat c1 n Hin1 Hsmall Hk'); cbn [length] in *; lia.
Qed.
(** The call that receives the whole header of a serialised packet decodes
    size and command and is already in the body phase. *)
Lemma ReadPacket_header_step now command body k0 chunks rest c :
  0 <= command < 2 ^ 32 ->
  Z.of_nat (length body) <= 65531 ->
  BytesTransferred (InboundPacket c) = 0 ->
  Data (InboundPacket c) = [] ->
  rx_pending (Socket c)
  = SendPacket_buffer (stamp_Size (make_packet command body)) ++ rest ->
  rx_script (Socket c) = RxData k0 :: map RxData chunks ->
  (sizeof_PacketHeader <= k0)%nat ->
  exists c0,
    ReadPacket now c = ReadPacket_body now c0
    /\ body_in_progress command body 0 chunks rest c0.
Proof.
  intros Hcmd Hlen Hbt Hdata Hp Hs Hk.
  rewrite SendPacket_buffer_wire, app_assoc, <- app_assoc in Hp.
  cbn [stamp_Size make_packet set_Header Header Size Id Data Write
         NetworkPacket_new app] in Hp.
  set (hdr := bytes_be sizeof_Size _ ++ bytes_be sizeof_Id command) in Hp.
  assert (Hh : length hdr = sizeof_PacketHeader).
  { subst hdr. now rewrite length_app, !length_bytes_be. }
  eexists. split.
  { unfold ReadPacket. rewrite Hbt.
    change (0 <? Z.of_nat sizeof_PacketHeader) with true. cbv iota.
    change (size_t (Z.of_nat sizeof_PacketHeader - 0))
      with (Z.of_nat sizeof_PacketHeader).
    rewrite <- Hh at 1.
    rewrite (ReceiveData_header _ k0 (map RxData chunks) hdr (body ++ rest)
               Hs Hp) by lia.
    cbn [negb NetworkReadPacket.is_Success BytesTransferred
           set_BytesTransferred set_Header].
    rewrite Hbt, Hh. cbn [Z.add].
    change (Z.of_nat sizeof_PacketHeader <? Z.of_nat sizeof_PacketHeader)
      with false. cbv iota.
    reflexivity. }
  unfold body_in_progress.
  cbn [InboundPacket set_InboundPacket Socket set_Socket Header set_Header
         Data BytesTransferred set_BytesTransferred rx_pending rx_script
         firstn skipn].
  rewrite normalise_received_header by exact Hh.
  split; [|split; [exact Hdata | split; [reflexivity |
           split; [reflexivity | split; [reflexivity | lia]]]]].
  assert (H2 : firstn 2 hdr
               = bytes_be sizeof_Size
                   (uint16_t (uint16_t (data_size (make_packet command body))
                              + Z.of_nat sizeof_Id))).
  { subst hdr. rewrite firstn_app, length_bytes_be.
    change (2 - sizeof_Size)%nat with 0%nat.
    rewrite firstn_O, app_nil_r. apply firstn_all2.
    rewrite length_bytes_be. apply Nat.le_refl. }
  assert (H4 : skipn 2 hdr = bytes_be sizeof_Id command).
  { subst hdr. rewrite skipn_app, length_bytes_be.
    change (2 - sizeof_Size)%nat with 0%nat.
    rewrite skipn_all2 by (rewrite length_bytes_be; apply Nat.le_refl).
    reflexivity. }
  rewrite H2, H4, !value_be_bytes_be.
  unfold data_size, make_packet, uint16_t. cbn [Data Write NetworkPacket_new app].
  sizes. change (256 ^ 2) with (2 ^ 16). change (256 ^ 4) with (2 ^ 32).
  rewrite (Z.mod_small (Z.of_nat (length body))) by lia.
  rewrite (Z.mod_small (Z.of_nat (length body) + 4)) by lia.
  rewrite (Z.mod_small (Z.of_nat (length body) + 4)) by lia.
  rewrite Z.min_r by lia. rewrite (Z.mod_small command) by lia.
  f_equal. rewrite Z.add_simpl_r. apply Z.mod_small. lia.
Qed.

(** X21. Any command and any body of at most 65531 bytes, queued and
    serialised by the send path, is reassembled with the same command and
    body when the header arrives in one receive, however the body is cut up
    (one byte per receive included), once the transport has delivered
    it. *)
Theorem roundtrip_whole_header now command body k0 chunks c n :
  0 <= command < 2 ^ 32 ->
  Z.of_nat (length body) <= 65531 ->
  BytesTransferred (InboundPacket c) = 0 ->
  Data (InboundPacket c) = [] ->
  rx_pending (Socket c)
  = SendPacket_buffer (stamp_Size (make_packet command body)) ->
  rx_script (Socket c) = RxData k0 :: map RxData chunks ->
  (sizeof_PacketHeader <= k0)%nat ->
  Forall (fun k => 1 <= k)%nat chunks ->
  (length body <= length chunks)%nat ->
  (length chunks < n)%nat ->
  exists c',
    ReadPacket_poll n now c = (NetworkReadPacket.Success, c')
    /\ GetCommand (InboundPacket c') = command
    /\ Data (InboundPacket c') = body.
Proof.
  intros Hcmd Hlen Hbt Hdata Hp Hs Hk0 Hks Hn Hpolls.
  rewrite <- (app_nil_r (SendPacket_buffer _)) in Hp.
  destruct (ReadPacket_header_step now command body k0 chunks [] c
              Hcmd Hlen Hbt Hdata Hp Hs Hk0) as (c0 & E & Hin).
  destruct (ReadPacket_poll_body now command body [] chunks 0 c0 n Hin)
    as (c' & Epoll & Hh & Hd); try assumption; try lia.
  exists c'. split; [|split; [|exact Hd]].
  - destruct n as [|n]; [lia|].
    cbn [ReadPacket_poll] in *. rewrite E.
    rewrite ReadPacket_past_header in Epoll; [exact Epoll|].
    destruct Hin as (_ & _ & Hbt0 & _). rewrite Hbt0. lia.
  - unfold GetCommand. now rewrite Hh.
Qed.
End RoundTrip.

(* ------------------------------------------------------------------ *)
(** ** The properties at concrete inputs *)

(** The packet of C1, its header received whole and its body one byte per
    call: it is reassembled. *)
Lemma roundtrip_whole_header_witness :
  exists c',
    ReadPacket_poll (host := little_endian_host) (ids := sample_commands)
      4 5 whole_header_receiver
    = (NetworkReadPacket.Success, c')
    /\ GetCommand (InboundPacket c') = 6
    /\ Data (InboundPacket c') = [x01; x02; x03].
Proof.
  apply (@roundtrip_whole_header little_endian_host sample_commands 5 6
           [x01; x02; x03] 6%nat [1; 1; 1]%nat whole_header_receiver 4%nat);
    try reflexivity; try (cbn; lia).
  repeat constructor.
Defined.

Lemma header_size_compat_witness :
  Z.of_nat (length [x01; x02; x03]) <= 65531
  /\ wire_size
       (SendPacket_buffer (host := little_endian_host)
          (stamp_Size (make_packet 6 [x01; x02; x03])))
     = Z.of_nat (length [x01; x02; x03]) + 4.
Proof.
  split; [cbn; lia|].
  apply (@header_size_compat little_endian_host sample_commands 6
           [x01; x02; x03]).
  cbn. lia.
Defined.

Lemma in_order_send_witness :
  _outboundPackets slow_sender = []
  /\ Forall (op_addressable (host := little_endian_host)) sample_ops
  /\ tx_wire (Socket (run_SendOps (host := little_endian_host)
                        (ids := sample_commands) slow_sender sample_ops))
     ++ unsent (host := little_endian_host)
          (_outboundPackets
             (run_SendOps (host := little_endian_host)
                (ids := sample_commands) slow_sender sample_ops))
     = tx_wire (Socket slow_sender)
       ++ concat (map (queued_bytes (host := little_endian_host)
                         (ids := sample_commands) slow_sender) sample_ops).
Proof.
  assert (Hops : Forall (op_addressable (host := little_endian_host))
                   sample_ops).
  { repeat constructor. }
  split; [reflexivity|]. split; [exact Hops|].
  exact (proj1 (@in_order_send little_endian_host sample_commands
                  slow_sender sample_ops eq_refl Hops)).
Defined.

Lemma QueuePacket_front_position_witness :
  authorized (ids := sample_commands)
    (connection_in_flight NetworkAuth.Ok) packet_C
  /\ _outboundPackets
       (QueuePacket (ids := sample_commands)
          (connection_in_flight NetworkAuth.Ok) packet_C true)
     = [ set_BytesTransferred (stamp_Size packet_A) 3;
         stamp_Size packet_C;
         stamp_Size packet_B ].
Proof.
  assert (Hauth : authorized (ids := sample_commands)
                    (connection_in_flight NetworkAuth.Ok) packet_C)
    by (left; reflexivity).
  split; [exact Hauth|].
  apply (proj1 (proj2 (proj2
           (@QueuePacket_front_position sample_commands
              (connection_in_flight NetworkAuth.Ok) packet_C Hauth)))).
  - reflexivity.
  - reflexivity.
Defined.

Lemma QueuePacket_auth_gate_witness :
  CommandRequiresAuth (ids := sample_commands) packet_A = true
  /\ AuthStatus (connection_in_flight NetworkAuth.Unverified) <> NetworkAuth.Ok
  /\ QueuePacket (ids := sample_commands)
       (connection_in_flight NetworkAuth.Unverified) packet_A true
     = connection_in_flight NetworkAuth.Unverified.
Proof.
  assert (Hreq : CommandRequiresAuth (ids := sample_commands) packet_A = true)
    by reflexivity.
  assert (Hauth : AuthStatus (connection_in_flight NetworkAuth.Unverified)
                  <> NetworkAuth.Ok)
    by discriminate.
  split; [exact Hreq|]. split; [exact Hauth|].
  exact (@QueuePacket_auth_gate sample_commands
           (connection_in_flight NetworkAuth.Unverified) packet_A true
           Hreq Hauth).
Defined.

Lemma ReadPacket_undersized_size_witness :
  exists c',
    ReadPacket (host := little_endian_host) (ids := sample_commands) 5
      undersized_receiver
    = (NetworkReadPacket.Success, c')
    /\ Size (Header (InboundPacket c')) = 0
    /\ Data (InboundPacket c') = []
    /\ Socket c' = scripted_socket [] [] [].
Proof.
  apply (@ReadPacket_undersized_size little_endian_host sample_commands 5
           undersized_receiver undersized_header (scripted_socket [] [] []) 2).
  - cbn. lia.
  - reflexivity.
  - reflexivity.
  - reflexivity.
  - reflexivity.
  - cbn. lia.
Defined.

(* ------------------------------------------------------------------ *)
(** ** Sequential reads of the body *)

(** X1. With the cursor inside the body and a size that does not take the
    sum past [size_t], [Read] returns the next [size] bytes exactly when
    [size] bytes are left and the vector owns a buffer, as a vector that
    holds elements always does; the cursor then moves behind these bytes
    and stays inside the body. When fewer bytes are left the result is null
    and the packet is as before. On an empty body without a buffer the one
    read that passes the test, of no bytes, returns the null pointer as
    well. *)
Theorem Read_next_bytes (buffer : bool) (p : NetworkPacket) (size : Z) :
  0 <= BytesRead p <= data_size p ->
  0 <= size ->
  BytesRead p + size < 2 ^ 64 ->
  (BytesRead p + size <= data_size p ->
   buffer = true \/ Data p <> [] ->
   exists bytes p',
     Read buffer p size = (Some bytes, p')
     /\ Z.of_nat (length bytes) = size
     /\ firstn (Z.to_nat (BytesRead p)) (Data p) ++ bytes
        = firstn (Z.to_nat (BytesRead p + size)) (Data p)
     /\ BytesRead p' = BytesRead p + size
     /\ BytesRead p' <= data_size p'
     /\ Data p' = Data p /\ Header p' = Header p
     /\ BytesTransferred p' = BytesTransferred p)
  /\ (BytesRead p + size <= data_size p ->
      buffer = false -> Data p = [] ->
      size = 0 /\ Read buffer p size = (None, p))
  /\ (data_size p < BytesRead p + size -> Read buffer p size = (None, p)).
Proof.
  intros Hcur Hsize Hfit. unfold Read, size_t, Data_allocated.
  rewrite Z.mod_small by lia. unfold data_size in *.
  split; [|split].
  - intros Hle Hbuf.
    destruct (Z.gtb_spec (BytesRead p + size) (Z.of_nat (length (Data p))))
      as [|_]; [lia|].
    assert (Hptr : buffer || negb (Z.of_nat (length (Data p)) =? 0)
                   || negb (BytesRead p =? 0) = true).
    { destruct Hbuf as [-> | Hne]; [reflexivity|].
      destruct (Data p) as [|b l]; [contradiction|].
      cbn [length]. rewrite Nat2Z.inj_succ.
      destruct (Z.eqb_spec (Z.succ (Z.of_nat (length l))) 0); [lia|].
      now rewrite orb_true_r. }
    rewrite Hptr.
    eexists. eexists. split; [reflexivity|].
    cbn [BytesRead Data Header BytesTransferred set_BytesRead].
    split.
    { rewrite length_firstn, length_skipn. lia. }
    split.
    { rewrite Z2Nat.inj_add by lia. symmetry. apply firstn_add. }
    repeat split; try reflexivity; lia.
  - intros Hle -> Hnil. rewrite Hnil in *. cbn [length] in *.
    assert (Hr : BytesRead p = 0) by lia.
    assert (Hs : size = 0) by lia.
    split; [exact Hs|].
    rewrite Hr, Hs. cbn.
    destruct p as [h d bt br]. cbn in Hr. subst br. reflexivity.
  - intros Hlt.
    destruct (Z.gtb_spec (BytesRead p + size) (Z.of_nat (length (Data p))))
      as [_|]; [reflexivity | lia].
Qed.

(** X2. Two reads in a row return what one read of both sizes returns, cut
    in two, and leave the same packet, when the vector owns a buffer; on an
    empty body without a buffer all three reads, of no bytes, return the
    null pointer. *)
Theorem Read_twice (buffer : bool) (p : NetworkPacket) (m n : Z) :
  0 <= BytesRead p ->
  0 <= m -> 0 <= n ->
  BytesRead p + m + n <= data_size p ->
  data_size p < 2 ^ 64 ->
  (buffer = true \/ Data p <> [] ->
   exists a b p1 p2,
     Read buffer p m = (Some a, p1)
     /\ Read buffer p1 n = (Some b, p2)
     /\ Read buffer p (m + n) = (Some (a ++ b), p2))
  /\ (buffer = false -> Data p = [] ->
      Read buffer p m = (None, p)
      /\ Read buffer p n = (None, p)
      /\ Read buffer p (m + n) = (None, p)).
Proof.
  intros Hcur Hm Hn Hle Hfit. split.
  - intros Hbuf.
    assert (Hstep : forall q k,
               Data q = Data p -> 0 <= BytesRead q -> 0 <= k ->
               BytesRead q + k <= data_size p ->
               Read buffer q k
               = (Some (firstn (Z.to_nat k)
                          (skipn (Z.to_nat (BytesRead q)) (Data p))),
                  set_BytesRead q (BytesRead q + k))).
    { intros q k Hd Hq Hk Hqk. unfold Read, size_t, Data_allocated, data_size in *.
      rewrite Hd, Z.mod_small by lia.
      destruct (Z.gtb_spec (BytesRead q + k) (Z.of_nat (length (Data p))))
        as [|_]; [lia|].
      assert (Hptr : buffer || negb (Z.of_nat (length (Data p)) =? 0)
                     || negb (BytesRead q =? 0) = true).
      { destruct Hbuf as [-> | Hne]; [reflexivity|].
        destruct (Data p) as [|b l]; [contradiction|].
        cbn [length]. rewrite Nat2Z.inj_succ.
        destruct (Z.eqb_spec (Z.succ (Z.of_nat (length l))) 0); [lia|].
        now rewrite orb_true_r. }
      now rewrite Hptr. }
    do 4 eexists. split; [apply Hstep; try reflexivity; lia|].
    split; [apply Hstep; cbn; try reflexivity; lia|].
    rewrite Hstep by (try reflexivity; lia).
    cbn [BytesRead Data Header BytesTransferred set_BytesRead].
    f_equal; [|now rewrite Z.add_assoc].
    f_equal.
    rewrite (Z2Nat.inj_add m n), (Z2Nat.inj_add (BytesRead p) m) by lia.
    rewrite firstn_add, skipn_skipn. now rewrite (Nat.add_comm (Z.to_nat m)).
  - intros -> Hnil. unfold data_size in *. rewrite Hnil in *.
    cbn [length] in *.
    assert (Hr : BytesRead p = 0) by lia.
    assert (m = 0) by lia. assert (n = 0) by lia. subst m n.
    unfold Read, size_t, Data_allocated, data_size.
    rewrite Hnil, Hr. cbn.
    destruct p as [h d bt br]. cbn in Hr, Hnil. subst br d.
    repeat split; reflexivity.
Qed.

(** X3. What [Write] appends is what [Read] returns: on a packet whose body
    has been consumed, writing bytes and reading as many leaves the body
    consumed again, and returns these bytes when the vector owns a buffer,
    as it does once it holds a byte. [buffer] tells whether it owned one
    before the [Write]; writing no bytes to a vector without a buffer leaves
    it without one, and [Read] then returns the null pointer. *)
Theorem Write_then_Read (buffer : bool) (p : NetworkPacket)
    (bytes : list byte) :
  BytesRead p = data_size p ->
  data_size p + Z.of_nat (length bytes) < 2 ^ 64 ->
  let r := Read buffer (Write p bytes) (Z.of_nat (length bytes)) in
  Data (snd r) = Data p ++ bytes
  /\ BytesRead (snd r) = data_size (snd r)
  /\ (buffer = true \/ Data p ++ bytes <> [] -> fst r = Some bytes)
  /\ (buffer = false -> Data p = [] -> bytes = [] -> fst r = None).
Proof.
  intros Hcur Hfit. unfold Read, size_t, Data_allocated, data_size in *.
  cbn [BytesRead Data Write set_BytesRead].
  rewrite Hcur, length_app, Z.mod_small by lia.
  destruct (Z.gtb_spec (Z.of_nat (length (Data p)) + Z.of_nat (length bytes))
              (Z.of_nat (length (Data p) + length bytes))) as [|_]; [lia|].
  cbn [fst snd BytesRead Data set_BytesRead Write].
  split; [reflexivity|]. split; [rewrite length_app; lia|]. split.
  - intros Hbuf.
    assert (Hptr : buffer
                   || negb (Z.of_nat (length (Data p) + length bytes) =? 0)
                   || negb (Z.of_nat (length (Data p)) =? 0) = true).
    { destruct Hbuf as [-> | Hne]; [reflexivity|].
      destruct (Z.eqb_spec (Z.of_nat (length (Data p) + length bytes)) 0)
        as [E|_]; [|now rewrite orb_true_r].
      exfalso. apply Hne. apply length_zero_iff_nil.
      rewrite length_app. lia. }
    rewrite Hptr. f_equal.
    rewrite !Nat2Z.id, skipn_app, Nat.sub_diag.
    rewrite skipn_all. cbn [app skipn]. apply firstn_all.
  - intros -> Hnil ->. rewrite Hnil. reflexivity.
Qed.

(* ------------------------------------------------------------------ *)
(** ** Strings in the body *)

Lemma ReadString_scan_terminated (s post : list byte) :
  Forall (fun b => is_nul b = false) s ->
  forall start pos stringLen seen,
    exists seen',
      ReadString_scan (s ++ x00 :: post) start pos stringLen seen
      = (pos + Z.of_nat (length s), stringLen + Z.of_nat (length s), seen').
Proof.
  induction 1 as [|b s Hb _ IH]; intros start pos stringLen seen.
  - eexists. cbn. rewrite !Z.add_0_r. reflexivity.
  - cbn [app ReadString_scan]. rewrite Hb.
    destruct (IH start (pos + 1) (stringLen + 1)
                (seen ++ [start + stringLen])) as [seen' E].
    exists seen'. rewrite E. cbn [length]. f_equal. f_equal; lia.
Qed.

(** A terminated string at the cursor is returned, and the cursor moves
    behind its terminator, whatever lies behind the body in memory. *)
Lemma ReadString_at (beyond : byte) (p : NetworkPacket)
    (pre s post : list byte) :
  Data p = pre ++ s ++ x00 :: post ->
  BytesRead p = Z.of_nat (length pre) ->
  Forall (fun b => is_nul b = false) s ->
  exists seen,
    ReadString beyond p
    = (Some s,
       set_BytesRead p (Z.of_nat (length pre) + Z.of_nat (length s) + 1),
       seen).
Proof.
  intros Hd Hcur Hs. unfold ReadString, data_size, peek.
  rewrite Hd, Hcur, Nat2Z.id.
  destruct (Z.geb_spec (Z.of_nat (length pre))
              (Z.of_nat (length (pre ++ s ++ x00 :: post)))) as [G|_].
  { rewrite !length_app in G. cbn [length] in G. lia. }
  rewrite skipn_app, Nat.sub_diag, skipn_all. cbn [app skipn].
  destruct (ReadString_scan_terminated s post Hs (Z.of_nat (length pre))
              (Z.of_nat (length pre)) 0 []) as [seen E].
  rewrite E. cbn [Z.add].
  replace (Z.to_nat (Z.of_nat (length pre) + Z.of_nat (length s)))
    with (length pre + length s)%nat by lia.
  rewrite app_assoc, app_nth2 by (rewrite length_app; lia).
  rewrite length_app, Nat.sub_diag. cbn [nth is_nul negb].
  rewrite Nat2Z.id.
  rewrite firstn_app, Nat.sub_diag, firstn_all. cbn [firstn].
  rewrite app_nil_r. eexists. reflexivity.
Qed.

(** X4. When the body holds, from the cursor on, a string without zero
    bytes followed by a zero byte, [ReadString] returns that string and
    moves the cursor just behind the terminator, leaving the rest of the
    packet unchanged; the outcome does not depend on the memory behind the
    body. *)
Theorem ReadString_returns_string (beyond : byte) (p : NetworkPacket)
    (pre s post : list byte) :
  Data p = pre ++ s ++ x00 :: post ->
  BytesRead p = Z.of_nat (length pre) ->
  Forall (fun b => is_nul b = false) s ->
  fst (fst (ReadString beyond p)) = Some s
  /\ BytesRead (snd (fst (ReadString beyond p)))
     = Z.of_nat (length (pre ++ s)) + 1
  /\ Data (snd (fst (ReadString beyond p))) = Data p
  /\ Header (snd (fst (ReadString beyond p))) = Header p
  /\ BytesTransferred (snd (fst (ReadString beyond p))) = BytesTransferred p.
Proof.
  intros Hd Hcur Hs.
  destruct (ReadString_at beyond p pre s post Hd Hcur Hs) as [seen E].
  rewrite E. cbn. rewrite length_app. repeat split; lia.
Qed.

(** X5. Strings come back in the order they were written: on a packet
    whose body has been consumed, two [WriteString] calls followed by two
    [ReadString] calls return the first string, then the second, and leave
    the body consumed, so that a third [ReadString] fails without looking
    at any byte. *)
Theorem WriteString_then_ReadString (b1 b2 b3 : byte) (p : NetworkPacket)
    (s1 s2 : list byte) :
  BytesRead p = data_size p ->
  Forall (fun b => is_nul b = false) s1 ->
  Forall (fun b => is_nul b = false) s2 ->
  exists p1 p2 seen1 seen2,
    ReadString b1 (WriteString (WriteString p s1) s2) = (Some s1, p1, seen1)
    /\ ReadString b2 p1 = (Some s2, p2, seen2)
    /\ BytesRead p2 = data_size p2
    /\ ReadString b3 p2 = (None, p2, []).
Proof.
  intros Hcur H1 H2.
  set (q := WriteString (WriteString p s1) s2).
  assert (Hq : Data q = Data p ++ s1 ++ x00 :: s2 ++ [x00]).
  { subst q. cbn. now rewrite <- !app_assoc. }
  destruct (ReadString_at b1 q (Data p) s1 (s2 ++ [x00]) Hq Hcur H1)
    as [seen1 E1].
  set (p1 := set_BytesRead q _) in E1.
  assert (Hq1 : Data p1 = (Data p ++ s1 ++ [x00]) ++ s2 ++ x00 :: []).
  { subst p1. cbn [Data set_BytesRead]. rewrite Hq.
    now rewrite <- !app_assoc. }
  assert (Hc1 : BytesRead p1 = Z.of_nat (length (Data p ++ s1 ++ [x00]))).
  { subst p1. cbn [BytesRead set_BytesRead].
    rewrite !length_app. cbn [length]. lia. }
  destruct (ReadString_at b2 p1 _ s2 [] Hq1 Hc1 H2) as [seen2 E2].
  set (p2 := set_BytesRead p1 _) in E2.
  assert (Hend : BytesRead p2 = data_size p2).
  { subst p2. unfold data_size. cbn [BytesRead Data set_BytesRead].
    rewrite Hq1, !length_app. cbn [length]. lia. }
  exists p1, p2, seen1, seen2.
  split; [exact E1|]. split; [exact E2|]. split; [exact Hend|].
  unfold ReadString. rewrite Hend.
  destruct (Z.geb_spec (data_size p2) (data_size p2)); [reflexivity | lia].
Qed.

(* ------------------------------------------------------------------ *)
(** ** The inbound packet between calls *)

(** What a receive hands out is the front of the pending stream, no longer
    than asked for; the sending side of the socket is not involved. *)
Lemma ReceiveData_facts (s : TcpSocket) (size : Z) st data s' :
  ReceiveData s size = (st, data, s') ->
  rx_pending s = data ++ rx_pending s'
  /\ Z.of_nat (length data) <= Z.max 0 size
  /\ (st <> NetworkReadPacket.Success -> data = [])
  /\ tx_script s' = tx_script s
  /\ tx_wire s' = tx_wire s.
Proof.
  unfold ReceiveData. destruct (rx_script s) as [|[k|st0] evs]; intros E;
    pair_eq; cbn [rx_pending tx_script tx_wire app length].
  - repeat split; try reflexivity; lia.
  - split; [symmetry; apply firstn_skipn|].
    split; [rewrite length_firstn; lia|].
    split; [intros N; contradiction|]. split; reflexivity.
  - repeat split; try reflexivity; lia.
Qed.

Section InboundInvariant.
Context {host : Platform} {ids : NetworkCommand.Ids}.

Lemma ReadPacket_complete_inbound now c :
  InboundPacket (snd (ReadPacket_complete now c)) = InboundPacket c
  /\ Socket (snd (ReadPacket_complete now c)) = Socket c.
Proof. unfold ReadPacket_complete. branch; split; reflexivity. Qed.

(** The body phase appends to the body what it takes from the stream, and
    nothing else happens to the packet. *)
Lemma ReadPacket_body_appends now c :
  exists received,
    Data (InboundPacket (snd (ReadPacket_body now c)))
    = Data (InboundPacket c) ++ received
    /\ rx_pending (Socket c)
       = received ++ rx_pending (Socket (snd (ReadPacket_body now c)))
    /\ BytesTransferred (InboundPacket (snd (ReadPacket_body now c)))
       = BytesTransferred (InboundPacket c) + Z.of_nat (length received)
    /\ Header (InboundPacket (snd (ReadPacket_body now c)))
       = Header (InboundPacket c)
    /\ BytesRead (InboundPacket (snd (ReadPacket_body now c)))
       = BytesRead (InboundPacket c)
    /\ Z.of_nat (length received)
       <= size_t (Size (Header (InboundPacket c))
                  - size_t (BytesTransferred (InboundPacket c)
                            - Z.of_nat sizeof_PacketHeader)).
Proof.
  unfold ReadPacket_body.
  set (missing := size_t _).
  assert (Hm : 0 <= missing)
    by (subst missing; unfold size_t; apply Z.mod_pos_bound; lia).
  destruct (Z.gtb_spec missing 0) as [Hpos|Hzero].
  - destruct (ReceiveData (Socket c) (Z.min missing NetworkBufferSize))
      as [[status buffer] sock] eqn:E.
    apply ReceiveData_facts in E. destruct E as (Hp & Hlen & Hfail & _).
    destruct status; cbn [negb NetworkReadPacket.is_Success];
      try (exists [];
           rewrite (Hfail ltac:(discriminate)) in Hp;
           cbn [snd InboundPacket Socket set_Socket app length Z.of_nat];
           rewrite app_nil_r, Z.add_0_r;
           repeat split; try reflexivity; try assumption; lia).
    exists buffer.
    destruct (ReadPacket_complete_inbound now
                (set_InboundPacket (set_Socket c sock)
                   (Write (set_BytesTransferred (InboundPacket c)
                             (BytesTransferred (InboundPacket c)
                              + Z.of_nat (length buffer))) buffer)))
      as [Ei Es].
    rewrite Ei, Es. cbn. repeat split; try reflexivity; try assumption.
    unfold NetworkBufferSize in Hlen. lia.
  - exists []. destruct (ReadPacket_complete_inbound now c) as [Ei Es].
    rewrite Ei, Es. cbn [app length Z.of_nat].
    rewrite app_nil_r, Z.add_0_r. repeat split; try reflexivity. lia.
Qed.

Lemma ReadPacket_body_inbound_ok now c :
  BytesTransferred (InboundPacket c)
  = Z.of_nat sizeof_PacketHeader + data_size (InboundPacket c) ->
  data_size (InboundPacket c) <= Size (Header (InboundPacket c)) < 2 ^ 16 ->
  inbound_ok (InboundPacket (snd (ReadPacket_body now c))).
Proof.
  intros Hbt Hsz.
  destruct (ReadPacket_body_appends now c)
    as (received & Hd & _ & Hbt' & Hh & _ & Hlen).
  right. unfold data_size in *. rewrite Hd, Hbt', Hh, Hbt, length_app.
  rewrite Hbt in Hlen. sizes.
  replace (6 + Z.of_nat (length (Data (InboundPacket c))) - 6)
    with (Z.of_nat (length (Data (InboundPacket c)))) in Hlen by lia.
  unfold size_t in Hlen.
  rewrite (Z.mod_small (Z.of_nat (length (Data (InboundPacket c)))))
    in Hlen by lia.
  rewrite Z.mod_small in Hlen by lia.
  split; lia.
Qed.

Lemma normalise_header_Size_range (h : PacketHeader) :
  0 <= Size (normalise_header h) < 2 ^ 16.
Proof.
  unfold normalise_header, uint16_t. cbn [Size].
  apply Z.mod_pos_bound. lia.
Qed.

Lemma ReadPacket_inbound_ok now c :
  inbound_ok (InboundPacket c) ->
  inbound_ok (InboundPacket (snd (ReadPacket now c))).
Proof.
  intros [[Hbt Hdata] | [Hbt Hsz]]; unfold ReadPacket.
  - sizes.
    destruct (Z.ltb_spec (BytesTransferred (InboundPacket c)) 6) as [_|];
      [|lia].
    unfold size_t at 1. rewrite Z.mod_small by lia.
    destruct (ReceiveData (Socket c) (6 - BytesTransferred (InboundPacket c)))
      as [[status received] sock] eqn:E.
    apply ReceiveData_facts in E. destruct E as (_ & Hlen & _).
    destruct status; cbn [negb NetworkReadPacket.is_Success];
      try (left; cbn; sizes; split; [lia | exact Hdata]).
    cbn [BytesTransferred set_BytesTransferred set_Header].
    destruct (Z.ltb_spec (BytesTransferred (InboundPacket c)
                          + Z.of_nat (length received)) 6) as [Hshort|Hfull].
    + left. cbn. sizes. split; [lia | exact Hdata].
    + apply ReadPacket_body_inbound_ok;
        unfold data_size;
        cbn [InboundPacket set_InboundPacket set_Socket set_Header
               set_BytesTransferred BytesTransferred Header Data];
        rewrite Hdata; cbn [length Z.of_nat]; sizes.
      * lia.
      * pose proof (normalise_header_Size_range
                      (header_of_storage
                         (store_at_start received
                            (header_storage (Header (InboundPacket c))))))
          as Hr.
        lia.
  - assert (Hd : 0 <= data_size (InboundPacket c))
      by (unfold data_size; lia).
    sizes.
    destruct (Z.ltb_spec (BytesTransferred (InboundPacket c)) 6) as [|_];
      [lia|].
    apply ReadPacket_body_inbound_ok; [exact Hbt | exact Hsz].
Qed.
End InboundInvariant.

(* ------------------------------------------------------------------ *)
(** ** The two directions do not interfere *)

Section Frames.
Context {host : Platform} {ids : NetworkCommand.Ids}.

Lemma receiving_untouched_refl c : receiving_untouched c c.
Proof. repeat split. Qed.

Lemma receiving_untouched_trans c1 c2 c3 :
  receiving_untouched c1 c2 -> receiving_untouched c2 c3 ->
  receiving_untouched c1 c3.
Proof.
  unfold receiving_untouched.
  intros (A1 & A2 & A3 & A4 & A5 & A6 & A7) (B1 & B2 & B3 & B4 & B5 & B6 & B7).
  repeat split; congruence.
Qed.

Lemma sending_untouched_refl c : sending_untouched c c.
Proof. repeat split. Qed.

Lemma sending_untouched_trans c1 c2 c3 :
  sending_untouched c1 c2 -> sending_untouched c2 c3 ->
  sending_untouched c1 c3.
Proof.
  unfold sending_untouched.
  intros (A1 & A2 & A3 & A4 & A5 & A6 & A7 & A8)
         (B1 & B2 & B3 & B4 & B5 & B6 & B7 & B8).
  repeat split; congruence.
Qed.

Lemma ReadPacket_complete_untouched now c :
  receiving_untouched c (snd (ReadPacket_complete now c)).
Proof.
  unfold ReadPacket_complete, RecordPacketStats. branch; repeat split.
Qed.

Lemma ReadPacket_body_untouched now c :
  receiving_untouched c (snd (ReadPacket_body now c)).
Proof.
  unfold ReadPacket_body.
  destruct (_ >? 0); [|apply ReadPacket_complete_untouched].
  destruct (ReceiveData _ _) as [[status buffer] sock] eqn:E.
  apply ReceiveData_facts in E. destruct E as (_ & _ & _ & Hs & Hw).
  destruct (negb _).
  - repeat split; assumption.
  - eapply receiving_untouched_trans; [|apply ReadPacket_complete_untouched].
    repeat split; assumption.
Qed.

Lemma ReadPacket_untouched now c :
  receiving_untouched c (snd (ReadPacket now c)).
Proof.
  unfold ReadPacket.
  destruct (_ <? _); [|apply ReadPacket_body_untouched].
  destruct (ReceiveData _ _) as [[status received] sock] eqn:E.
  apply ReceiveData_facts in E. destruct E as (_ & _ & _ & Hs & Hw).
  destruct (negb _); [repeat split; assumption|].
  destruct (_ <? _); [repeat split; assumption|].
  eapply receiving_untouched_trans; [|apply ReadPacket_body_untouched].
  repeat split; assumption.
Qed.

Lemma SendPacket_untouched c p b p' c' :
  SendPacket c p = (b, p', c') ->
  sending_untouched c c'
  /\ _outboundPackets c' = _outboundPackets c
  /\ Header p' = Header p /\ Data p' = Data p /\ BytesRead p' = BytesRead p.
Proof.
  unfold SendPacket, SendData, RecordPacketStats.
  destruct (tx_script (Socket c)); repeat branch; intros E; pair_eq;
    repeat split.
Qed.

Lemma SendQueuedPackets_loop_untouched (queue : list NetworkPacket) :
  forall c c' queue',
    SendQueuedPackets_loop c queue = (c', queue') ->
    sending_untouched c c'.
Proof.
  induction queue as [|p rest IH]; intros c c' queue' E.
  - cbn in E. pair_eq. apply sending_untouched_refl.
  - cbn [SendQueuedPackets_loop] in E.
    destruct (SendPacket c p) as [[b p1] c1] eqn:Hsend.
    apply SendPacket_untouched in Hsend. destruct Hsend as [Hu _].
    destruct b.
    + eapply sending_untouched_trans; [exact Hu | eapply IH; exact E].
    + pair_eq. exact Hu.
Qed.

Lemma SendQueuedPackets_untouched c :
  sending_untouched c (SendQueuedPackets c).
Proof.
  unfold SendQueuedPackets.
  destruct (SendQueuedPackets_loop c (_outboundPackets c)) as [c1 q1] eqn:E.
  apply SendQueuedPackets_loop_untouched in E. exact E.
Qed.

Lemma QueuePacket_only_queue c p front :
  QueuePacket c p front
  = set_outboundPackets c (_outboundPackets (QueuePacket c p front)).
Proof.
  unfold QueuePacket. destruct (_ || _); [|now destruct c].
  destruct front; [|reflexivity].
  destruct (_outboundPackets c) as [|first rest]; [reflexivity|].
  destruct (_ >? 0); reflexivity.
Qed.
End Frames.

(** X6. Receiving does not reach into the sending side: a [ReadPacket]
    call, whatever the socket does and whatever it returns, leaves the
    outbound queue, the bytes accepted for sending, the transport's send
    behaviour, the sent counters, the authentication status and the
    disconnect request and reason as they were. *)
Theorem ReadPacket_leaves_outbound_side {host : Platform}
    {ids : NetworkCommand.Ids} (now : Z) (c : NetworkConnection) :
  receiving_untouched c (snd (ReadPacket now c)).
Proof. apply ReadPacket_untouched. Qed.

(** X7. Sending does not reach into the receiving side: [SendQueuedPackets]
    leaves the inbound packet, the pending inbound stream, the received
    counters, the time of the last packet, the authentication status and
    the disconnect request and reason as they were; [QueuePacket] changes
    nothing but the queue. *)
Theorem outbound_leaves_inbound_side {host : Platform}
    {ids : NetworkCommand.Ids} (c : NetworkConnection) :
  sending_untouched c (SendQueuedPackets c)
  /\ forall p front,
       QueuePacket c p front
       = set_outboundPackets c (_outboundPackets (QueuePacket c p front)).
Proof.
  split; [apply SendQueuedPackets_untouched|].
  intros p front. apply QueuePacket_only_queue.
Qed.

(* ------------------------------------------------------------------ *)
(** ** Invariants of a connection in use *)

Section StatsInvariant.
Context {host : Platform} {ids : NetworkCommand.Ids}.

(** A property of the counters that recording a packet maintains. *)
Variable P : NetworkStats -> Prop.
Hypothesis P_record :
  forall stats packet sending,
    P stats -> P (RecordPacketStats stats packet sending).

Lemma ReadPacket_maintains now c : P (Stats c) -> P (Stats (snd (ReadPacket now c))).
Proof.
  intros HP. destruct (ReadPacket now c) as [st c'] eqn:E.
  apply ReadPacket_stats in E. cbn [snd].
  destruct E as [[_ ->] | [_ ->]]; [apply P_record|]; exact HP.
Qed.

Lemma SendQueuedPackets_loop_maintains (queue : list NetworkPacket) :
  forall c c' queue',
    SendQueuedPackets_loop c queue = (c', queue') ->
    P (Stats c) -> P (Stats c').
Proof.
  induction queue as [|p rest IH]; intros c c' queue' E HP.
  - cbn in E. pair_eq. exact HP.
  - cbn [SendQueuedPackets_loop] in E.
    destruct (SendPacket c p) as [[b p1] c1] eqn:Hsend.
    destruct b.
    + apply SendPacket_complete_stats in Hsend.
      eapply IH; [exact E|]. rewrite Hsend. apply P_record. exact HP.
    + apply SendPacket_partial_stats in Hsend. pair_eq. now rewrite Hsend.
Qed.

Lemma apply_ConnectionOp_maintains c op :
  P (Stats c) -> P (Stats (apply_ConnectionOp c op)).
Proof.
  intros HP. destruct op as [now| |packet front| |]; cbn [apply_ConnectionOp].
  - apply ReadPacket_maintains. exact HP.
  - exact HP.
  - rewrite QueuePacket_only_queue. exact HP.
  - unfold SendQueuedPackets.
    destruct (SendQueuedPackets_loop c (_outboundPackets c)) as [c1 q1] eqn:E.
    cbn [Stats set_outboundPackets].
    eapply SendQueuedPackets_loop_maintains; [exact E | exact HP].
  - exact HP.
Qed.

Lemma run_ConnectionOps_maintains (ops : list ConnectionOp) :
  forall c, P (Stats c) -> P (Stats (run_ConnectionOps c ops)).
Proof.
  induction ops as [|op ops IH]; intros c HP; [exact HP|].
  cbn [run_ConnectionOps fold_left]. apply IH.
  apply apply_ConnectionOp_maintains. exact HP.
Qed.
End StatsInvariant.

Section SessionFacts.
Context {host : Platform} {ids : NetworkCommand.Ids}.

Lemma counters_consistent_add (a : Counters) (g : NetworkStatisticsGroup.t)
    (n : Z) :
  g <> NetworkStatisticsGroup.Total ->
  counters_consistent a ->
  counters_consistent
    (counter_add (counter_add a g n) NetworkStatisticsGroup.Total n).
Proof.
  unfold counters_consistent. destruct g; intros Hg Ha; cbn;
    try contradiction; lia.
Qed.

Lemma RecordPacketStats_consistent stats packet sending :
  stats_consistent stats ->
  stats_consistent (RecordPacketStats stats packet sending).
Proof.
  intros [Hr Hs]. unfold RecordPacketStats.
  destruct sending; split; cbn [bytesReceived bytesSent]; try assumption;
    apply counters_consistent_add; try assumption;
    apply TrafficGroup_not_Total.
Qed.

Lemma counters_le_add (a b : Counters) (g : NetworkStatisticsGroup.t) (n : Z) :
  0 <= n -> counters_le a b -> counters_le a (counter_add b g n).
Proof.
  unfold counters_le. destruct g; cbn; intros; lia.
Qed.

Lemma RecordPacketStats_grows s0 stats packet sending :
  stats_le s0 stats -> stats_le s0 (RecordPacketStats stats packet sending).
Proof.
  intros [Hr Hs]. unfold RecordPacketStats.
  assert (Hn : 0 <= uint32_t (BytesTransferred packet))
    by (unfold uint32_t; apply Z.mod_pos_bound; lia).
  destruct sending; split; cbn [bytesReceived bytesSent]; try assumption;
    repeat apply counters_le_add; assumption.
Qed.

Lemma stats_le_refl s : stats_le s s.
Proof. unfold stats_le, counters_le. repeat split; lia. Qed.

Lemma apply_ConnectionOp_inbound_ok c op :
  inbound_ok (InboundPacket c) ->
  inbound_ok (InboundPacket (apply_ConnectionOp c op)).
Proof.
  intros Hok. destruct op as [now| |packet front| |]; cbn [apply_ConnectionOp].
  - apply ReadPacket_inbound_ok. exact Hok.
  - left. cbn. sizes. split; [lia | reflexivity].
  - rewrite QueuePacket_only_queue. exact Hok.
  - destruct (SendQueuedPackets_untouched c) as (_ & _ & _ & -> & _).
    exact Hok.
  - exact Hok.
Qed.

Lemma apply_ConnectionOp_flags c op :
  AuthStatus (apply_ConnectionOp c op) = AuthStatus c
  /\ ShouldDisconnect (apply_ConnectionOp c op)
     = match op with
       | OpDisconnect => true
       | _ => ShouldDisconnect c
       end.
Proof.
  destruct op as [now| |packet front| |]; cbn [apply_ConnectionOp].
  - destruct (ReadPacket_untouched now c) as (A & B & _).
    split; assumption.
  - split; reflexivity.
  - rewrite QueuePacket_only_queue. split; reflexivity.
  - destruct (SendQueuedPackets_untouched c) as (A & B & _).
    split; assumption.
  - split; reflexivity.
Qed.
End SessionFacts.

(** X8. However a connection is used (polls, clears of the inbound packet,
    queueing, drains, disconnect requests, in any order and against any
    transport), an inbound packet that is well formed at the start, as an
    empty one is, stays well formed:
    before the header is complete there is no body, and afterwards
    [BytesTransferred] is header plus body and the body is no longer than
    the size the header declared; so the body never exceeds 65535 bytes and
    the subtractions in [ReadPacket] do not wrap. *)
Theorem inbound_packet_well_formed {host : Platform}
    {ids : NetworkCommand.Ids} (c : NetworkConnection)
    (ops : list ConnectionOp) :
  inbound_ok (InboundPacket c) ->
  let inbound := InboundPacket (run_ConnectionOps c ops) in
  inbound_ok inbound
  /\ data_size inbound <= 65535
  /\ (Z.of_nat sizeof_PacketHeader <= BytesTransferred inbound ->
      0 <= Size (Header inbound)
           - (BytesTransferred inbound - Z.of_nat sizeof_PacketHeader)
        <= 65535).
Proof.
  intros Hok inbound.
  assert (H : inbound_ok inbound).
  { subst inbound. revert c Hok.
    induction ops as [|op ops IH]; intros c Hok; [exact Hok|].
    cbn [run_ConnectionOps fold_left]. apply IH.
    apply apply_ConnectionOp_inbound_ok. exact Hok. }
  split; [exact H|].
  assert (Hd : 0 <= data_size inbound) by (unfold data_size; lia).
  destruct H as [[Hbt Hdata] | [Hbt Hsz]]; sizes.
  - unfold data_size in *. rewrite Hdata in *. cbn [length Z.of_nat].
    split; lia.
  - split; lia.
Qed.

(** X9. The counters stay consistent and never go down: however a
    connection is used, in each direction the total counter remains the
    sum of the base, commands and map-data counters if it was so at the
    start, and no counter is ever smaller than it was. *)
Theorem statistics_consistent_and_monotone {host : Platform}
    {ids : NetworkCommand.Ids} (c : NetworkConnection)
    (ops : list ConnectionOp) :
  stats_le (Stats c) (Stats (run_ConnectionOps c ops))
  /\ (stats_consistent (Stats c) ->
      stats_consistent (Stats (run_ConnectionOps c ops))).
Proof.
  split.
  - apply (run_ConnectionOps_maintains (stats_le (Stats c))).
    + intros stats packet sending. apply RecordPacketStats_grows.
    + apply stats_le_refl.
  - apply (run_ConnectionOps_maintains stats_consistent).
    intros stats packet sending. apply RecordPacketStats_consistent.
Qed.

(** X10. A disconnect request sticks. Of the operations [ReadPacket],
    [Clear] of the inbound packet, [QueuePacket], [SendQueuedPackets] and
    [Disconnect], only [Disconnect] writes [ShouldDisconnect], and it sets
    it; none of them writes the authentication status. So once [Disconnect]
    has been called [IsValid] is false whatever the socket reports and
    whichever of these operations follow, and without such a call the flag
    stays as it was. *)
Theorem disconnect_is_sticky {host : Platform} {ids : NetworkCommand.Ids}
    (c : NetworkConnection) (ops : list ConnectionOp) :
  AuthStatus (run_ConnectionOps c ops) = AuthStatus c
  /\ (ShouldDisconnect c = true \/ In OpDisconnect ops ->
      ShouldDisconnect (run_ConnectionOps c ops) = true
      /\ forall status, IsValid status (run_ConnectionOps c ops) = false)
  /\ (ShouldDisconnect c = false -> ~ In OpDisconnect ops ->
      ShouldDisconnect (run_ConnectionOps c ops) = false).
Proof.
  revert c. induction ops as [|op ops IH]; intros c.
  - cbn [run_ConnectionOps fold_left In].
    split; [reflexivity|]. split.
    + intros [E | []]. split; [exact E|]. intros status.
      unfold IsValid. now rewrite E.
    + intros E _. exact E.
  - cbn [run_ConnectionOps fold_left].
    fold (run_ConnectionOps (apply_ConnectionOp c op) ops).
    destruct (apply_ConnectionOp_flags c op) as (Ha & Hs).
    destruct (IH (apply_ConnectionOp c op)) as (IHa & IHon & IHoff).
    split; [congruence|]. split.
    + intros Hset. apply IHon.
      destruct Hset as [E | [E | Hin]].
      * left. rewrite Hs. destruct op; auto.
      * left. rewrite Hs. subst op. reflexivity.
      * right. exact Hin.
    + intros E Hnot. apply IHoff.
      * rewrite Hs. destruct op; auto. exfalso. apply Hnot. left. reflexivity.
      * intros Hin. apply Hnot. right. exact Hin.
Qed.

(* ------------------------------------------------------------------ *)
(** ** What a poll reports *)

Section PollOutcome.
Context {host : Platform} {ids : NetworkCommand.Ids}.

Lemma ReadPacket_complete_outcome now c st c' :
  ReadPacket_complete now c = (st, c') ->
  (st = NetworkReadPacket.Success
   /\ data_size (InboundPacket c) = Size (Header (InboundPacket c))
   /\ _lastPacketTime c' = now)
  \/ (st = NetworkReadPacket.MoreData
      /\ data_size (InboundPacket c) <> Size (Header (InboundPacket c))
      /\ _lastPacketTime c' = _lastPacketTime c).
Proof.
  unfold ReadPacket_complete.
  destruct (Z.eqb_spec (data_size (InboundPacket c))
              (Size (Header (InboundPacket c)))) as [E|N];
    intros R; pair_eq; [left | right]; repeat split; assumption.
Qed.

Lemma ReadPacket_body_outcome now c st c' :
  ReadPacket_body now c = (st, c') ->
  (st = NetworkReadPacket.Success
   /\ data_size (InboundPacket c') = Size (Header (InboundPacket c'))
   /\ _lastPacketTime c' = now)
  \/ (st <> NetworkReadPacket.Success
      /\ _lastPacketTime c' = _lastPacketTime c).
Proof.
  unfold ReadPacket_body. destruct (_ >? 0).
  - destruct (ReceiveData _ _) as [[status buffer] sock].
    destruct status; cbn [negb NetworkReadPacket.is_Success];
      try (intros R; pair_eq; right; split; [discriminate | reflexivity]).
    intros R.
    destruct (ReadPacket_complete_inbound now
                (set_InboundPacket (set_Socket c sock)
                   (Write (set_BytesTransferred (InboundPacket c)
                             (BytesTransferred (InboundPacket c)
                              + Z.of_nat (length buffer))) buffer)))
      as [Ei _].
    rewrite R in Ei. cbn [snd] in Ei.
    apply ReadPacket_complete_outcome in R.
    destruct R as [(-> & E & T) | (-> & _ & T)].
    + left. rewrite Ei. repeat split; assumption.
    + right. split; [discriminate | exact T].
  - intros R.
    destruct (ReadPacket_complete_inbound now c) as [Ei _].
    rewrite R in Ei. cbn [snd] in Ei.
    apply ReadPacket_complete_outcome in R.
    destruct R as [(-> & E & T) | (-> & _ & T)].
    + left. rewrite Ei. repeat split; assumption.
    + right. split; [discriminate | exact T].
Qed.

Lemma ReadPacket_outcome now c st c' :
  ReadPacket now c = (st, c') ->
  (st = NetworkReadPacket.Success
   /\ data_size (InboundPacket c') = Size (Header (InboundPacket c'))
   /\ _lastPacketTime c' = now)
  \/ (st <> NetworkReadPacket.Success
      /\ _lastPacketTime c' = _lastPacketTime c).
Proof.
  unfold ReadPacket.
  destruct (_ <? _); [|apply ReadPacket_body_outcome].
  destruct (ReceiveData _ _) as [[status received] sock].
  destruct status; cbn [negb NetworkReadPacket.is_Success];
    try (intros R; pair_eq; right; split; [discriminate | reflexivity]).
  destruct (_ <? _).
  - intros R; pair_eq. right. split; [discriminate | reflexivity].
  - intros R. apply ReadPacket_body_outcome in R. exact R.
Qed.
End PollOutcome.

(* ------------------------------------------------------------------ *)
(** ** Traffic statistics *)

Section Completion.
Context {host : Platform} {ids : NetworkCommand.Ids}.

(** The body phase reports [Success] exactly when it leaves a body of the
    size the header declares. *)
Lemma ReadPacket_body_completes now c st c' :
  BytesTransferred (InboundPacket c)
  = Z.of_nat sizeof_PacketHeader + data_size (InboundPacket c) ->
  data_size (InboundPacket c) <= Size (Header (InboundPacket c)) < 2 ^ 16 ->
  ReadPacket_body now c = (st, c') ->
  Z.of_nat sizeof_PacketHeader <= BytesTransferred (InboundPacket c')
  /\ (st = NetworkReadPacket.Success
      <-> data_size (InboundPacket c') = Size (Header (InboundPacket c'))).
Proof.
  intros Hbt Hsz.
  assert (Hd : 0 <= data_size (InboundPacket c)) by (unfold data_size; lia).
  unfold ReadPacket_body. rewrite Hbt. sizes.
  replace (6 + data_size (InboundPacket c) - 6)
    with (data_size (InboundPacket c)) by lia.
  unfold size_t.
  rewrite (Z.mod_small (data_size (InboundPacket c))) by lia.
  rewrite Z.mod_small by lia.
  destruct (Z.gtb_spec (Size (Header (InboundPacket c))
                        - data_size (InboundPacket c)) 0) as [Hpos|Hzero].
  - destruct (ReceiveData _ _) as [[status buffer] sock].
    destruct status; cbn [negb NetworkReadPacket.is_Success];
      try (intros R; pair_eq;
           cbn [InboundPacket set_Socket];
           split; [lia | split; [discriminate | intros E; lia]]).
    unfold ReadPacket_complete.
    set (n := 6 + data_size (InboundPacket c) + Z.of_nat (length buffer)).
    assert (Hn : 6 <= n) by (subst n; lia). clearbody n.
    match goal with
    | |- context [?a =? ?b] => destruct (Z.eqb_spec a b) as [E|N]
    end; intros R; injection R as <- <-;
      cbn [InboundPacket set_InboundPacket set_Socket set_Stats
             set_lastPacketTime BytesTransferred set_BytesTransferred Write]
        in *;
      (split; [exact Hn|]); split; try discriminate; try reflexivity;
      intros X; [exact E | contradiction].
  - unfold ReadPacket_complete.
    match goal with
    | |- context [?a =? ?b] => destruct (Z.eqb_spec a b) as [E|N]
    end; intros R; injection R as <- <-;
      cbn [InboundPacket set_Stats set_lastPacketTime] in *;
      (split; [lia|]); split; try discriminate; try reflexivity;
      intros X; [exact E | lia].
Qed.

(** [ReadPacket] reports [Success] exactly when it leaves a packet with a
    complete header and a body of the size the header declares. *)
Lemma ReadPacket_completes now c st c' :
  inbound_ok (InboundPacket c) ->
  ReadPacket now c = (st, c') ->
  st = NetworkReadPacket.Success
  <-> Z.of_nat sizeof_PacketHeader <= BytesTransferred (InboundPacket c')
      /\ data_size (InboundPacket c') = Size (Header (InboundPacket c')).
Proof.
  intros [[Hbt Hdata] | [Hbt Hsz]]; unfold ReadPacket.
  - sizes.
    destruct (Z.ltb_spec (BytesTransferred (InboundPacket c)) 6) as [_|];
      [|lia].
    unfold size_t at 1. rewrite Z.mod_small by lia.
    destruct (ReceiveData (Socket c) (6 - BytesTransferred (InboundPacket c)))
      as [[status received] sock] eqn:E.
    apply ReceiveData_facts in E. destruct E as (_ & Hlen & _).
    destruct status; cbn [negb NetworkReadPacket.is_Success];
      try (intros R; pair_eq; cbn [InboundPacket set_Socket];
           split; [discriminate | intros [X _]; lia]).
    cbn [BytesTransferred set_BytesTransferred set_Header].
    destruct (Z.ltb_spec (BytesTransferred (InboundPacket c)
                          + Z.of_nat (length received)) 6) as [Hshort|Hfull].
    + intros R; pair_eq.
      cbn [InboundPacket set_InboundPacket set_Socket BytesTransferred
             set_BytesTransferred set_Header].
      split; [discriminate | intros [X _]; lia].
    + intros R. apply ReadPacket_body_completes in R.
      * destruct R as [H6 Hiff]. sizes. rewrite Hiff. tauto.
      * unfold data_size.
        cbn [InboundPacket set_InboundPacket set_Socket set_Header
               set_BytesTransferred BytesTransferred Header Data].
        rewrite Hdata. cbn [length Z.of_nat]. sizes. lia.
      * unfold data_size.
        cbn [InboundPacket set_InboundPacket set_Socket set_Header
               set_BytesTransferred BytesTransferred Header Data].
        rewrite Hdata. cbn [length Z.of_nat].
        pose proof (normalise_header_Size_range
                      (header_of_storage
                         (store_at_start received
                            (header_storage (Header (InboundPacket c))))))
          as Hr.
        lia.
  - assert (Hd : 0 <= data_size (InboundPacket c))
      by (unfold data_size; lia).
    sizes.
    destruct (Z.ltb_spec (BytesTransferred (InboundPacket c)) 6) as [|_];
      [lia|].
    intros R. apply ReadPacket_body_completes in R; [|exact Hbt | exact Hsz].
    destruct R as [H6 Hiff]. sizes. rewrite Hiff. tauto.
Qed.

(** A send is complete exactly when every byte of the serialised packet
    has been accepted. *)
Lemma SendPacket_completes c p b p' c' :
  SendPacket c p = (b, p', c') ->
  b = true <-> BytesTransferred p' = Z.of_nat (length (SendPacket_buffer p)).
Proof.
  unfold SendPacket.
  destruct (SendData _ _) as [sent sock].
  destruct (Z.eqb_spec
              (BytesTransferred
                 (if sent >? 0
                  then set_BytesTransferred p (BytesTransferred p + sent)
                  else p))
              (Z.of_nat (length (SendPacket_buffer p)))) as [E|N];
    intros R; pair_eq; split; intros X;
    solve [reflexivity | discriminate | assumption | contradiction].
Qed.

(** A packet nothing of which has been sent, offered to a transport that
    takes it whole, is sent in one call. *)
Lemma SendPacket_whole c p k ks :
  tx_script (Socket c) = k :: ks ->
  BytesTransferred p = 0 ->
  (0 < length (SendPacket_buffer p) <= k)%nat ->
  Z.of_nat (length (SendPacket_buffer p)) < 2 ^ 64 ->
  exists p' c',
    SendPacket c p = (true, p', c')
    /\ p' = set_BytesTransferred p (Z.of_nat (length (SendPacket_buffer p)))
    /\ Stats c' = RecordPacketStats (Stats c) p' true.
Proof.
  intros Hs Hbt Hk Hfit. unfold SendPacket, SendData.
  rewrite Hs, Hbt, Z.sub_0_r. unfold size_t.
  rewrite Z.mod_small by lia.
  rewrite Nat2Z.id. cbn [Z.to_nat skipn]. rewrite firstn_all.
  rewrite Nat.min_r by lia.
  destruct (Z.gtb_spec (Z.of_nat (length (SendPacket_buffer p))) 0)
    as [_|]; [|lia].
  cbn [BytesTransferred set_BytesTransferred Z.add].
  rewrite Z.eqb_refl.
  eexists. eexists. split; [reflexivity|]. split; reflexivity.
Qed.
End Completion.

(** C8. A packet of command GameAction that has been fully sent with 50
    bytes transferred raises the commands counter and the total counter of
    the sent direction by 50 each and leaves every other counter alone. In
    general a send records the packet exactly when it completes, which is
    when every byte of the serialised packet has been accepted; a receive
    records the packet exactly when it completes, which, for an inbound
    packet in the state [ReadPacket] and [Clear] leave it in, is when the
    call leaves a complete header and a body of the size the header
    declares.
    Recording adds the 32-bit value of [BytesTransferred] to the counter of
    the packet's one traffic group and to the total counter of its
    direction, all other counters keeping their value. That value is
    [BytesTransferred] itself below 2^32, as it is for every received
    packet. *)
Theorem traffic_statistics {host : Platform} {ids : NetworkCommand.Ids} :
  (forall c p p' c',
      GetCommand p = NetworkCommand.GameAction ->
      SendPacket c p = (true, p', c') ->
      BytesTransferred p' = 50 ->
      cnt_Commands (bytesSent (Stats c'))
        = cnt_Commands (bytesSent (Stats c)) + 50
      /\ cnt_Total (bytesSent (Stats c')) = cnt_Total (bytesSent (Stats c)) + 50
      /\ cnt_Base (bytesSent (Stats c')) = cnt_Base (bytesSent (Stats c))
      /\ cnt_MapData (bytesSent (Stats c')) = cnt_MapData (bytesSent (Stats c))
      /\ bytesReceived (Stats c') = bytesReceived (Stats c))
  /\ (forall c p b p' c',
        SendPacket c p = (b, p', c') ->
        (b = true
         <-> BytesTransferred p' = Z.of_nat (length (SendPacket_buffer p)))
        /\ Stats c' = if b then RecordPacketStats (Stats c) p' true
                      else Stats c)
  /\ (forall now c st c',
        ReadPacket now c = (st, c') ->
        Stats c' = if NetworkReadPacket.is_Success st
                   then RecordPacketStats (Stats c) (InboundPacket c') false
                   else Stats c)
  /\ (forall now c st c',
        inbound_ok (InboundPacket c) ->
        ReadPacket now c = (st, c') ->
        (st = NetworkReadPacket.Success
         <-> Z.of_nat sizeof_PacketHeader
             <= BytesTransferred (InboundPacket c')
             /\ data_size (InboundPacket c')
                = Size (Header (InboundPacket c')))
        /\ uint32_t (BytesTransferred (InboundPacket c'))
           = BytesTransferred (InboundPacket c'))
  /\ (forall stats p (sending : bool),
        let added := uint32_t (BytesTransferred p) in
        let direction s := if sending then bytesSent s else bytesReceived s in
        let opposite s := if sending then bytesReceived s else bytesSent s in
        let stats' := RecordPacketStats stats p sending in
        TrafficGroup p <> NetworkStatisticsGroup.Total
        /\ counter (direction stats') (TrafficGroup p)
           = counter (direction stats) (TrafficGroup p) + added
        /\ counter (direction stats') NetworkStatisticsGroup.Total
           = counter (direction stats) NetworkStatisticsGroup.Total + added
        /\ (forall g, g <> TrafficGroup p ->
                      g <> NetworkStatisticsGroup.Total ->
                      counter (direction stats') g = counter (direction stats) g)
        /\ opposite stats' = opposite stats
        /\ (0 <= BytesTransferred p < 2 ^ 32 -> added = BytesTransferred p)).
Proof.
  split; [|split; [|split; [|split]]].
  - intros c p p' c' Hcmd Hsend Hsize.
    pose proof (SendPacket_command _ _ _ _ _ Hsend) as Hc.
    apply SendPacket_complete_stats in Hsend. rewrite Hsend.
    unfold RecordPacketStats, TrafficGroup. rewrite Hc, Hcmd, Z.eqb_refl, Hsize.
    cbn. repeat split; reflexivity.
  - intros c p b p' c' Hsend. split.
    + exact (SendPacket_completes _ _ _ _ _ Hsend).
    + destruct b.
      * now apply SendPacket_complete_stats in Hsend.
      * now apply SendPacket_partial_stats in Hsend.
  - intros now c st c' Hread.
    apply ReadPacket_stats in Hread.
    destruct Hread as [[-> E] | [N E]]; [exact E|].
    destruct st; try exact E. contradiction.
  - intros now c st c' Hok Hread. split.
    + exact (ReadPacket_completes _ _ _ _ Hok Hread).
    + pose proof (ReadPacket_inbound_ok now c Hok) as Hok'.
      rewrite Hread in Hok'. cbn [snd] in Hok'.
      unfold uint32_t. apply Z.mod_small.
      unfold inbound_ok, data_size in Hok'. sizes.
      destruct Hok' as [[Hbt _] | [Hbt Hsz]]; lia.
  - intros stats p sending added direction opposite stats'.
    pose proof (TrafficGroup_not_Total p) as Hg.
    subst added direction opposite stats'. unfold RecordPacketStats.
    destruct sending; cbn [bytesSent bytesReceived];
      (split; [exact Hg|]);
      (split; [rewrite counter_add_other by exact Hg; apply counter_add_same|]);
      (split; [rewrite counter_add_same, counter_add_other by congruence;
               reflexivity|]);
      (split; [intros g H1 H2; now rewrite !counter_add_other by assumption|]);
      (split; [reflexivity|]);
      intros Hrange; unfold uint32_t; apply Z.mod_small; exact Hrange.
Qed.

(** C8, as stated, at a body of 2^32 + 44 bytes: the GameAction packet is
    sent whole in one call, with 2^32 + 50 bytes transferred, and the
    commands counter and the total counter of the sent direction rise by
    50, since [RecordPacketStats] casts [BytesTransferred] to [uint32_t]
    before it adds. *)
Theorem traffic_statistics_wraps_at_4GiB :
  exists p' c',
    SendPacket (host := little_endian_host) (ids := sample_commands)
      bulk_sender packet_4GiB = (true, p', c')
    /\ GetCommand p' = NetworkCommand.GameAction (Ids := sample_commands)
    /\ BytesTransferred p' = 2 ^ 32 + 50
    /\ cnt_Commands (bytesSent (Stats c'))
       = cnt_Commands (bytesSent (Stats bulk_sender)) + 50
    /\ cnt_Total (bytesSent (Stats c'))
       = cnt_Total (bytesSent (Stats bulk_sender)) + 50.
Proof.
  assert (Hlen : Z.of_nat (length (SendPacket_buffer
                                     (host := little_endian_host) packet_4GiB))
                 = 2 ^ 32 + 50).
  { rewrite length_SendPacket_buffer. unfold data_size, packet_4GiB.
    cbn [Data stamp_Size set_Header Write NetworkPacket_new app].
    unfold body_4GiB. rewrite repeat_length. sizes.
    rewrite Z2Nat.id by lia. lia. }
  destruct (SendPacket_whole (host := little_endian_host)
              (ids := sample_commands) bulk_sender packet_4GiB
              (Z.to_nat (2 ^ 33)) [] eq_refl eq_refl)
    as (p' & c' & Hsend & Hp & Hstats).
  { lia. }
  { lia. }
  exists p', c'. split; [exact Hsend|].
  rewrite Hstats, Hp, Hlen. split; [reflexivity|]. split; [reflexivity|].
  unfold RecordPacketStats, TrafficGroup, GetCommand.
  cbn [Header set_BytesTransferred BytesTransferred Id packet_4GiB stamp_Size
         set_Header Write NetworkPacket_new].
  change (uint32_t (2 ^ 32 + 50)) with 50.
  split; reflexivity.
Qed.


(** X11. [ReadPacket] reports [Success] only for a packet whose body has
    the size its header declares, and it stamps the time of the last
    packet then and only then: after any other result the time of the
    last packet is what it was. *)
Theorem ReadPacket_Success_means_complete {host : Platform}
    {ids : NetworkCommand.Ids} (now : Z) (c : NetworkConnection) :
  let st := fst (ReadPacket now c) in
  let c' := snd (ReadPacket now c) in
  (st = NetworkReadPacket.Success ->
   data_size (InboundPacket c') = Size (Header (InboundPacket c'))
   /\ _lastPacketTime c' = now)
  /\ (st <> NetworkReadPacket.Success ->
      _lastPacketTime c' = _lastPacketTime c).
Proof.
  cbv zeta. destruct (ReadPacket now c) as [st c'] eqn:E. cbn [fst snd].
  apply ReadPacket_outcome in E.
  destruct E as [(-> & Hd & Ht) | (N & Ht)].
  - split; [intros _; split; assumption | intros X; contradiction].
  - split; [intros X; contradiction | intros _; exact Ht].
Qed.

(** X12. A receive that fails loses nothing: when the socket answers the
    receive of an incomplete inbound packet with a status other than
    [Success], [ReadPacket] returns that very status and the connection is
    as before, apart from the socket having answered one call. *)
Theorem ReadPacket_propagates_status {host : Platform}
    {ids : NetworkCommand.Ids} (now : Z) (c : NetworkConnection)
    (st : NetworkReadPacket.t) (evs : list RxEvent) :
  rx_script (Socket c) = RxFail st :: evs ->
  st <> NetworkReadPacket.Success ->
  inbound_ok (InboundPacket c) ->
  data_size (InboundPacket c) <> Size (Header (InboundPacket c))
  \/ BytesTransferred (InboundPacket c) < Z.of_nat sizeof_PacketHeader ->
  ReadPacket now c
  = (st,
     set_Socket c
       {| rx_pending := rx_pending (Socket c); rx_script := evs;
          tx_script := tx_script (Socket c); tx_wire := tx_wire (Socket c) |}).
Proof.
  intros Hs Hst Hok Hinc. unfold ReadPacket. sizes.
  assert (Hneg : negb (NetworkReadPacket.is_Success st) = true)
    by (destruct st; [contradiction | reflexivity..]).
  destruct Hok as [[Hbt Hdata] | [Hbt Hsz]]; sizes.
  - destruct (Z.ltb_spec (BytesTransferred (InboundPacket c)) 6) as [_|];
      [|lia].
    unfold ReceiveData. rewrite Hs, Hneg. reflexivity.
  - assert (Hd : 0 <= data_size (InboundPacket c))
      by (unfold data_size; lia).
    destruct (Z.ltb_spec (BytesTransferred (InboundPacket c)) 6) as [|_];
      [lia|].
    unfold ReadPacket_body. rewrite Hbt. sizes.
    replace (6 + data_size (InboundPacket c) - 6)
      with (data_size (InboundPacket c)) by lia.
    unfold size_t. rewrite (Z.mod_small (data_size (InboundPacket c))) by lia.
    rewrite Z.mod_small by lia.
    destruct (Z.gtb_spec (Size (Header (InboundPacket c))
                          - data_size (InboundPacket c)) 0) as [_|];
      [|lia].
    unfold ReceiveData. rewrite Hs, Hneg. reflexivity.
Qed.

(** X13. A completed packet has to be cleared: polling again while the
    inbound packet is still complete reports [Success] once more without
    receiving anything, and records the packet in the received counters a
    second time. *)
Theorem ReadPacket_completed_again {host : Platform}
    {ids : NetworkCommand.Ids} (now : Z) (c : NetworkConnection) :
  BytesTransferred (InboundPacket c)
  = Z.of_nat sizeof_PacketHeader + data_size (InboundPacket c) ->
  data_size (InboundPacket c) = Size (Header (InboundPacket c)) ->
  Size (Header (InboundPacket c)) < 2 ^ 16 ->
  ReadPacket now c
  = (NetworkReadPacket.Success,
     set_Stats (set_lastPacketTime c now)
       (RecordPacketStats (Stats c) (InboundPacket c) false)).
Proof.
  intros Hbt Hd Hsz. unfold ReadPacket. rewrite Hbt. sizes.
  assert (H0 : 0 <= data_size (InboundPacket c)) by (unfold data_size; lia).
  destruct (Z.ltb_spec (6 + data_size (InboundPacket c)) 6) as [|_]; [lia|].
  unfold ReadPacket_body. rewrite Hbt. sizes.
  replace (6 + data_size (InboundPacket c) - 6)
    with (data_size (InboundPacket c)) by lia.
  unfold size_t. rewrite (Z.mod_small (data_size (InboundPacket c))) by lia.
  rewrite <- Hd, Z.sub_diag. cbn [Z.modulo Z.div_eucl Z.gtb Z.compare].
  unfold ReadPacket_complete. rewrite <- Hd, Z.eqb_refl. reflexivity.
Qed.

(** X14. The liveness window. In a release build, after a poll that
    completed a packet at tick [now], [ReceivedPacketRecently] holds up to
    tick [now + 7000] and fails from the next tick on; a poll that did not
    complete a packet does not move the window; a debug build always
    answers [true]. *)
Theorem liveness_window {host : Platform} {ids : NetworkCommand.Ids}
    (now : Z) (c : NetworkConnection) :
  0 <= now -> now + 7000 < 2 ^ 32 ->
  let st := fst (ReadPacket now c) in
  let c' := snd (ReadPacket now c) in
  (st = NetworkReadPacket.Success ->
   forall t, ReceivedPacketRecently false t c' = true <-> t <= now + 7000)
  /\ (st <> NetworkReadPacket.Success ->
      forall debug t,
        ReceivedPacketRecently debug t c' = ReceivedPacketRecently debug t c)
  /\ (forall t, ReceivedPacketRecently true t c' = true).
Proof.
  intros H0 Hfit. cbv zeta.
  destruct (ReadPacket now c) as [st c'] eqn:E. cbn [fst snd].
  apply ReadPacket_outcome in E.
  split; [|split].
  - intros ->. destruct E as [(_ & _ & Ht) | (N & _)]; [|contradiction].
    intros t. unfold ReceivedPacketRecently, uint32_t.
    rewrite Ht, Z.mod_small by lia.
    destruct (Z.gtb_spec t (now + 7000)); split; intros X;
      try reflexivity; try discriminate; lia.
  - intros N debug t. destruct E as [(-> & _) | (_ & Ht)]; [contradiction|].
    unfold ReceivedPacketRecently. now rewrite Ht.
  - reflexivity.
Qed.

(* ------------------------------------------------------------------ *)
(** ** Whole packets on the wire *)

Section WholePackets.
Context {host : Platform} {ids : NetworkCommand.Ids}.

Lemma in_flight_prefix_untouched (queue : list NetworkPacket) :
  Forall (fun p => BytesTransferred p = 0) queue ->
  in_flight_prefix queue = [].
Proof. destruct 1 as [|p rest Hp _]; [reflexivity|]. cbn. now rewrite Hp. Qed.

(** Draining in terms of what is on the wire: the packets popped, whole,
    then the accepted part of the packet left in front. *)
Lemma SendQueuedPackets_loop_popped (queue : list NetworkPacket) :
  forall c c' queue' sent,
    front_only_in_flight queue ->
    Forall addressable queue ->
    tx_wire (Socket c) = sent ++ in_flight_prefix queue ->
    SendQueuedPackets_loop c queue = (c', queue') ->
    exists popped,
      tx_wire (Socket c')
      = sent ++ concat (map SendPacket_buffer popped)
        ++ in_flight_prefix queue'
      /\ map SendPacket_buffer queue
         = map SendPacket_buffer (popped ++ queue')
      /\ front_only_in_flight queue'
      /\ Forall addressable queue'.
Proof.
  induction queue as [|p rest IH]; intros c c' queue' sent Hq Ha Hw Hloop.
  - cbn in Hloop. pair_eq. exists []. cbn in *.
    rewrite app_nil_r in *. repeat split; auto.
  - cbn [SendQueuedPackets_loop] in Hloop.
    destruct (SendPacket c p) as [[b p1] c1] eqn:Hsend.
    destruct Hq as [Hbt Hrest]. inversion Ha as [|? ? Hap Har]; subst.
    destruct (SendPacket_wire c p b p1 c1 Hbt Hap Hsend)
      as (Hbuf & _ & Hbt1 & Hwire & Hdone).
    assert (Hw1 : tx_wire (Socket c1)
                  = sent ++ firstn (Z.to_nat (BytesTransferred p1))
                              (SendPacket_buffer p)).
    { cbn [in_flight_prefix] in Hw. rewrite Hw, <- app_assoc in Hwire.
      rewrite firstn_skipn in Hwire.
      rewrite <- (firstn_skipn (Z.to_nat (BytesTransferred p1))
                    (SendPacket_buffer p)) in Hwire at 2.
      rewrite app_assoc in Hwire. now apply app_inv_tail in Hwire. }
    destruct b.
    + rewrite (Hdone eq_refl), Nat2Z.id, firstn_all in Hw1.
      destruct (IH c1 c' queue' (sent ++ SendPacket_buffer p))
        as (popped & Hw' & Hm & Hq' & Ha'); try assumption.
      * now apply untouched_in_flight.
      * rewrite in_flight_prefix_untouched by exact Hrest.
        now rewrite app_nil_r.
      * exists (p :: popped). cbn [map concat app].
        rewrite Hw', <- !app_assoc. rewrite Hm.
        repeat split; assumption.
    + pair_eq. exists []. cbn [map concat app in_flight_prefix].
      rewrite Hbuf.
      split; [exact Hw1|]. split; [reflexivity|]. split.
      * cbn. rewrite Hbuf. split; [lia | exact Hrest].
      * constructor; [|exact Har]. unfold addressable in *. now rewrite Hbuf.
Qed.

(** Queueing puts the stamped packet somewhere into the queue, never in
    front of a packet in flight, and leaves the wire alone. *)
Lemma QueuePacket_inserts c packet front :
  front_only_in_flight (_outboundPackets c) ->
  Forall addressable (_outboundPackets c) ->
  BytesTransferred packet = 0 ->
  addressable packet ->
  NetworkAuth.eqb (AuthStatus c) NetworkAuth.Ok
  || negb (CommandRequiresAuth packet) = true ->
  let c' := QueuePacket c packet front in
  Permutation (_outboundPackets c') (_outboundPackets c ++ [stamp_Size packet])
  /\ in_flight_prefix (_outboundPackets c')
     = in_flight_prefix (_outboundPackets c)
  /\ front_only_in_flight (_outboundPackets c')
  /\ Forall addressable (_outboundPackets c').
Proof.
  intros Hq Ha Hbt Hp Hgate. unfold QueuePacket. rewrite Hgate.
  pose proof (addressable_stamp_Size packet Hp) as Hp'.
  assert (Hbt' : BytesTransferred (stamp_Size packet) = 0) by exact Hbt.
  destruct front.
  - destruct (_outboundPackets c) as [|first rest] eqn:Eq.
    + cbn. rewrite Hbt. repeat split; auto; try lia.
    + destruct Hq as [Hfirst Hrest]. inversion Ha as [|? ? Ha1 Ha2]; subst.
      destruct (Z.gtb_spec (BytesTransferred first) 0) as [Hpos|Hzero];
        cbn [_outboundPackets set_outboundPackets].
      * split; [|split; [reflexivity | split]].
        -- cbn [app]. apply perm_skip. apply Permutation_cons_append.
        -- cbn. split; [exact Hfirst|]. constructor; assumption.
        -- repeat constructor; assumption.
      * assert (H0 : BytesTransferred first = 0) by lia.
        split; [|split; [|split]].
        -- apply (Permutation_cons_append (first :: rest)).
        -- cbn. now rewrite Hbt, H0.
        -- cbn. rewrite Hbt. split; [lia|]. constructor; assumption.
        -- repeat constructor; assumption.
  - cbn [_outboundPackets set_outboundPackets].
    split; [reflexivity|]. split; [|split].
    + destruct (_outboundPackets c) as [|first rest]; cbn; [|reflexivity].
      now rewrite Hbt.
    + destruct (_outboundPackets c) as [|first rest].
      * cbn. rewrite Hbt. split; [lia | constructor].
      * destruct Hq as [Hfirst Hrest]. cbn. split; [exact Hfirst|].
        apply Forall_app. split; [exact Hrest | repeat constructor; assumption].
    + apply Forall_app. split; [exact Ha | repeat constructor; assumption].
Qed.

(** One operation keeps the picture: whole packets, then the part of the
    front packet that has gone out. *)
Lemma apply_ConnectionOp_whole_packets c op sent done accepted :
  queueable op ->
  front_only_in_flight (_outboundPackets c) ->
  Forall addressable (_outboundPackets c) ->
  tx_wire (Socket c)
  = sent ++ concat (map SendPacket_buffer done)
    ++ in_flight_prefix (_outboundPackets c) ->
  Permutation (map SendPacket_buffer (done ++ _outboundPackets c))
    (map SendPacket_buffer accepted) ->
  let c' := apply_ConnectionOp c op in
  exists done',
    tx_wire (Socket c')
    = sent ++ concat (map SendPacket_buffer done')
      ++ in_flight_prefix (_outboundPackets c')
    /\ Permutation (map SendPacket_buffer (done' ++ _outboundPackets c'))
         (map SendPacket_buffer (accepted ++ accepted_packets c [op]))
    /\ front_only_in_flight (_outboundPackets c')
    /\ Forall addressable (_outboundPackets c')
    /\ AuthStatus c' = AuthStatus c.
Proof.
  intros Hop Hq Ha Hw Hperm.
  destruct op as [now| |packet front| |];
    cbn [apply_ConnectionOp accepted_packets flat_map queueable] in *;
    rewrite ?app_nil_r.
  - destruct (ReadPacket_untouched now c) as (A & _ & _ & Eq & _ & Ew & _).
    exists done. rewrite Eq, Ew. repeat split; try assumption.
  - exists done. repeat split; try assumption.
  - destruct Hop as [Hbt Hp].
    destruct (NetworkAuth.eqb (AuthStatus c) NetworkAuth.Ok
              || negb (CommandRequiresAuth packet)) eqn:Hgate.
    + destruct (QueuePacket_inserts c packet front Hq Ha Hbt Hp Hgate)
        as (Hins & Hpre & Hq' & Ha').
      assert (Hs : Socket (QueuePacket c packet front) = Socket c)
        by (rewrite QueuePacket_only_queue; reflexivity).
      assert (Hau : AuthStatus (QueuePacket c packet front) = AuthStatus c)
        by (rewrite QueuePacket_only_queue; reflexivity).
      exists done. rewrite Hs, Hpre.
      split; [exact Hw|]. split; [|repeat split; try assumption].
      cbn [app]. rewrite !map_app.
      rewrite (Permutation_map SendPacket_buffer Hins), map_app.
      rewrite app_assoc. apply Permutation_app_tail.
      rewrite <- map_app. exact Hperm.
    + unfold QueuePacket. rewrite Hgate. exists done. rewrite app_nil_r.
      repeat split; try assumption.
  - unfold SendQueuedPackets.
    destruct (SendQueuedPackets_loop c (_outboundPackets c)) as [c1 q1] eqn:E.
    pose proof (SendQueuedPackets_loop_untouched _ _ _ _ E) as (Hauth & _).
    rewrite app_assoc in Hw.
    destruct (SendQueuedPackets_loop_popped _ _ _ _ _ Hq Ha Hw E)
      as (popped & Hw' & Hm & Hq' & Ha').
    exists (done ++ popped).
    cbn [Socket _outboundPackets AuthStatus set_outboundPackets].
    split; [|split; [|repeat split; try assumption]].
    + rewrite Hw', map_app, concat_app, <- !app_assoc. reflexivity.
    + rewrite <- app_assoc, map_app, <- Hm, <- map_app. exact Hperm.
  - exists done. repeat split; try assumption.
Qed.

Lemma accepted_packets_auth c c' ops :
  AuthStatus c' = AuthStatus c ->
  accepted_packets c' ops = accepted_packets c ops.
Proof. intros E. unfold accepted_packets. now rewrite E. Qed.

Lemma run_ConnectionOps_whole_packets (ops : list ConnectionOp) :
  forall c sent done accepted,
    Forall queueable ops ->
    front_only_in_flight (_outboundPackets c) ->
    Forall addressable (_outboundPackets c) ->
    tx_wire (Socket c)
    = sent ++ concat (map SendPacket_buffer done)
      ++ in_flight_prefix (_outboundPackets c) ->
    Permutation (map SendPacket_buffer (done ++ _outboundPackets c))
      (map SendPacket_buffer accepted) ->
    let c' := run_ConnectionOps c ops in
    exists done',
      tx_wire (Socket c')
      = sent ++ concat (map SendPacket_buffer done')
        ++ in_flight_prefix (_outboundPackets c')
      /\ Permutation (map SendPacket_buffer (done' ++ _outboundPackets c'))
           (map SendPacket_buffer (accepted ++ accepted_packets c ops))
      /\ front_only_in_flight (_outboundPackets c').
Proof.
  induction ops as [|op ops IH]; intros c sent done accepted Hops Hq Ha Hw Hp.
  - exists done. cbn. rewrite app_nil_r. repeat split; assumption.
  - inversion Hops as [|? ? Hop Hops']; subst.
    destruct (apply_ConnectionOp_whole_packets c op sent done accepted
                Hop Hq Ha Hw Hp) as (done1 & Hw1 & Hp1 & Hq1 & Ha1 & Hauth).
    destruct (IH (apply_ConnectionOp c op) sent done1
                (accepted ++ accepted_packets c [op]) Hops' Hq1 Ha1 Hw1 Hp1)
      as (done2 & Hw2 & Hp2 & Hq2).
    exists done2. cbn [run_ConnectionOps fold_left].
    split; [exact Hw2|]. split; [|exact Hq2].
    rewrite (accepted_packets_auth c _ ops Hauth) in Hp2.
    rewrite <- app_assoc in Hp2.
    replace (accepted_packets c (op :: ops))
      with (accepted_packets c [op] ++ accepted_packets c ops);
      [exact Hp2|].
    unfold accepted_packets. cbn [flat_map]. now rewrite app_nil_r.
Qed.
End WholePackets.

(** X15. Priority insertion and interleaved receiving never break a packet
    up. Starting from an empty queue, however the connection is used
    (tail and front [QueuePacket] calls of fresh packets, drains, polls,
    clears, disconnect requests, any transport), the bytes accepted by the
    socket are whole serialised packets followed by the accepted part of
    the packet at the front of the queue; no packet behind the front has
    had a byte sent; and the packets sent whole together with the packets
    still queued are exactly the packets [QueuePacket] accepted, none
    lost and none twice, though not necessarily in the order of the
    calls. *)
Theorem whole_packets_on_the_wire {host : Platform}
    {ids : NetworkCommand.Ids} (c : NetworkConnection)
    (ops : list ConnectionOp) :
  _outboundPackets c = [] ->
  Forall queueable ops ->
  let c' := run_ConnectionOps c ops in
  exists done,
    tx_wire (Socket c')
    = tx_wire (Socket c) ++ concat (map SendPacket_buffer done)
      ++ in_flight_prefix (_outboundPackets c')
    /\ Permutation (map SendPacket_buffer (done ++ _outboundPackets c'))
         (map SendPacket_buffer (accepted_packets c ops))
    /\ front_only_in_flight (_outboundPackets c').
Proof.
  intros Hempty Hops.
  apply (run_ConnectionOps_whole_packets ops c (tx_wire (Socket c)) [] []).
  - exact Hops.
  - rewrite Hempty. exact I.
  - rewrite Hempty. constructor.
  - rewrite Hempty. cbn. now rewrite app_nil_r.
  - rewrite Hempty. reflexivity.
Qed.

(* ------------------------------------------------------------------ *)
(** ** Reassembly of a stream of packets *)

Section Stream.
Context {host : Platform} {ids : NetworkCommand.Ids}.

Lemma length_wire_image (message : Z * list byte) :
  length (wire_image message)
  = (sizeof_PacketHeader + length (snd message))%nat.
Proof.
  unfold wire_image. apply Nat2Z.inj.
  rewrite length_SendPacket_buffer, Nat2Z.inj_add. reflexivity.
Qed.

Lemma no_pending_no_messages (todo : list (Z * list byte)) :
  concat (map wire_image todo) = [] -> todo = [].
Proof.
  destruct todo as [|m todo]; [reflexivity|].
  cbn [map concat]. intros E. apply (f_equal (@length byte)) in E.
  rewrite length_app, length_wire_image in E. cbn in E. lia.
Qed.

(** A body that is complete needs no receive. *)
Lemma ReadPacket_body_done now command body j chunks rest c :
  body_in_progress command body j chunks rest c ->
  j = length body ->
  Z.of_nat (length body) < 2 ^ 16 ->
  exists c',
    ReadPacket_body now c = (NetworkReadPacket.Success, c')
    /\ InboundPacket c' = InboundPacket c
    /\ Socket c' = Socket c.
Proof.
  intros Hin Hj Hsmall. pose proof Hin as (Hh & Hd & Hbt & _).
  unfold ReadPacket_body. rewrite Hh, Hbt. cbn [Size]. subst j. sizes.
  replace (6 + Z.of_nat (length body) - 6)
    with (Z.of_nat (length body)) by lia.
  unfold size_t. rewrite (Z.mod_small (Z.of_nat (length body))) by lia.
  rewrite Z.sub_diag. cbn [Z.modulo Z.div_eucl Z.gtb Z.compare].
  destruct (proj1 (ReadPacket_complete_progress now _ _ _ _ _ c Hin) eq_refl)
    as (c' & E & Ei).
  exists c'. split; [exact E|]. split; [exact Ei|].
  pose proof (proj2 (ReadPacket_complete_inbound now c)) as Es.
  now rewrite E in Es.
Qed.

(** The body phase on a body in progress: the packet completes, or more of
    the body has arrived; either way at least one pending byte is gone and
    one receive has been used. *)
Lemma ReadPacket_body_advance now command body j k ks rest c :
  body_in_progress command body j (k :: ks) rest c ->
  Z.of_nat (length body) < 2 ^ 16 ->
  (j < length body)%nat ->
  (1 <= k)%nat ->
  exists st c' m,
    ReadPacket_body now c = (st, c')
    /\ (1 <= m)%nat
    /\ body_in_progress command body (j + m) ks rest c'
    /\ (st = NetworkReadPacket.Success /\ (j + m)%nat = length body
        \/ st = NetworkReadPacket.MoreData /\ (j + m < length body)%nat).
Proof.
  intros Hin Hsmall Hlt Hk.
  destruct (ReadPacket_body_progress now command body j k ks rest c
              Hin Hsmall Hlt Hk) as (m & c1 & Hm & Hin1 & E).
  pose proof Hin1 as (Hh1 & Hd1 & Hbt1 & Hp1 & Hs1 & Hj1).
  destruct (ReadPacket_complete_inbound now c1) as [Ei Es].
  destruct (Nat.eq_dec (j + m) (length body)) as [Hdone|Hmore].
  - destruct (proj1 (ReadPacket_complete_progress now _ _ _ _ _ c1 Hin1) Hdone)
      as (c' & E' & _).
    exists NetworkReadPacket.Success, c', m. rewrite E, E'.
    rewrite E' in Ei, Es. cbn [snd] in Ei, Es.
    split; [reflexivity|]. split; [exact Hm|]. split; [|left; auto].
    unfold body_in_progress. rewrite Ei, Es. repeat split; assumption.
  - pose proof (proj2 (ReadPacket_complete_progress now _ _ _ _ _ c1 Hin1)
                  ltac:(lia)) as E'.
    exists NetworkReadPacket.MoreData, c1, m. rewrite E, E'.
    split; [reflexivity|]. split; [exact Hm|]. split; [exact Hin1|].
    right. split; [reflexivity | lia].
Qed.

Lemma finish_packet command body ks rest c :
  body_in_progress command body (length body) ks
    (concat (map wire_image rest)) c ->
  Forall sendable rest ->
  Forall (fun k => sizeof_PacketHeader <= k)%nat ks ->
  (length (concat (map wire_image rest)) <= length ks)%nat ->
  GetCommand (InboundPacket c) = command
  /\ Data (InboundPacket c) = body
  /\ rx_pending (Socket c) = concat (map wire_image rest)
  /\ receiving rest (set_InboundPacket c (Clear (InboundPacket c))).
Proof.
  intros (Hh & Hd & Hbt & Hp & Hs & Hj) Hrest Hks Hlen.
  rewrite skipn_all in Hp. cbn [app] in Hp. rewrite firstn_all in Hd.
  split; [unfold GetCommand; now rewrite Hh|]. split; [exact Hd|].
  split; [exact Hp|].
  split; [exact Hrest|]. exists ks.
  cbn [Socket set_InboundPacket InboundPacket Clear BytesTransferred Data].
  rewrite Hp. repeat split; try assumption. left. repeat split.
Qed.

Lemma continue_packet command body j ks rest c :
  body_in_progress command body j ks (concat (map wire_image rest)) c ->
  (j < length body)%nat ->
  Forall sendable ((command, body) :: rest) ->
  Forall (fun k => sizeof_PacketHeader <= k)%nat ks ->
  (length (rx_pending (Socket c)) <= length ks)%nat ->
  receiving ((command, body) :: rest) c.
Proof.
  intros Hin Hj Hsend Hks Hlen. pose proof Hin as (_ & _ & _ & _ & Hs & _).
  split; [exact Hsend|]. exists ks. repeat split; try assumption.
  right. exists command, body, rest, j.
  split; [reflexivity|]. split; [exact Hj | exact Hin].
Qed.

(** One poll of a receiver with bytes pending: a packet is completed, the
    first of the expected ones, or its body has grown; pending bytes have
    been consumed. *)
Lemma receive_step now todo c :
  receiving todo c ->
  rx_pending (Socket c) <> [] ->
  exists st c',
    ReadPacket now c = (st, c')
    /\ (length (rx_pending (Socket c')) < length (rx_pending (Socket c)))%nat
    /\ ((st = NetworkReadPacket.Success
         /\ exists command body rest,
              todo = (command, body) :: rest
              /\ GetCommand (InboundPacket c') = command
              /\ Data (InboundPacket c') = body
              /\ receiving rest
                   (set_InboundPacket c' (Clear (InboundPacket c'))))
        \/ (st = NetworkReadPacket.MoreData /\ receiving todo c')).
Proof.
  intros (Hsend & ks & Hks & Hlen & Hscript & Hstate) Hne.
  assert (Hbody :
            forall command body rest j k ks' c0,
              Forall sendable ((command, body) :: rest) ->
              body_in_progress command body j (k :: ks')
                (concat (map wire_image rest)) c0 ->
              (j < length body)%nat ->
              Forall (fun k => sizeof_PacketHeader <= k)%nat (k :: ks') ->
              (length (rx_pending (Socket c0)) <= S (length ks'))%nat ->
              exists st c',
                ReadPacket_body now c0 = (st, c')
                /\ (length (rx_pending (Socket c'))
                    < length (rx_pending (Socket c0)))%nat
                /\ ((st = NetworkReadPacket.Success
                     /\ GetCommand (InboundPacket c') = command
                     /\ Data (InboundPacket c') = body
                     /\ receiving rest
                          (set_InboundPacket c' (Clear (InboundPacket c'))))
                    \/ (st = NetworkReadPacket.MoreData
                        /\ receiving ((command, body) :: rest) c'))).
  { intros command body rest j k ks' c0 Hall Hin Hj Hk Hl.
    inversion Hall as [|? ? [Hc Hb] Hrest]; subst. cbn [fst snd] in *.
    inversion Hk as [|? ? Hk1 Hk']; subst. unfold sizeof_PacketHeader in Hk1.
    pose proof Hin as (_ & _ & _ & Hp0 & _).
    destruct (ReadPacket_body_advance now command body j k ks' _ c0 Hin
                ltac:(lia) Hj ltac:(lia))
      as (st & c' & m & E & Hm & Hin' & Hres).
    pose proof Hin' as (_ & _ & _ & Hp' & _ & Hj').
    assert (Hshrink : (length (rx_pending (Socket c')) + m
                       = length (rx_pending (Socket c0)))%nat).
    { rewrite Hp', Hp0, !length_app, !length_skipn. lia. }
    exists st, c'. split; [exact E|]. split; [lia|].
    destruct Hres as [[-> Hdone] | [-> Hmore]].
    - left. split; [reflexivity|]. rewrite Hdone in Hin'.
      destruct (finish_packet command body ks' rest c' Hin' Hrest Hk')
        as (G & D & P & R); [|auto].
      rewrite Hp', Hdone, skipn_all in Hshrink. cbn [app] in Hshrink. lia.
    - right. split; [reflexivity|].
      apply (continue_packet command body (j + m) ks' rest c' Hin' Hmore);
        [constructor; [split|]; assumption | exact Hk' | lia]. }
  destruct Hstate as [(Hbt & Hdata & Hp) | (command & body & rest & j & Htodo & Hj & Hin)].
  - (* at a packet boundary *)
    destruct todo as [|[command body] rest]; [cbn in Hp; contradiction|].
    inversion Hsend as [|? ? [Hc Hb] Hrest]; subst. cbn [fst snd] in *.
    cbn [map concat] in Hp.
    destruct ks as [|k ks'].
    { cbn in Hlen. destruct (rx_pending (Socket c)); [contradiction|].
      cbn in Hlen. lia. }
    inversion Hks as [|? ? Hk Hks']; subst.
    destruct (ReadPacket_header_step now command body k ks' _ c
                Hc Hb Hbt Hdata Hp Hscript Hk) as (c0 & E & Hin0).
    pose proof Hin0 as (Hh0 & Hd0 & Hbt0 & Hp0 & Hs0 & _).
    cbn [skipn] in Hp0.
    assert (Hl : length (rx_pending (Socket c))
                 = (6 + length (rx_pending (Socket c0)))%nat).
    { rewrite Hp, Hp0, !length_app, length_wire_image. cbn [snd].
      unfold sizeof_PacketHeader. lia. }
    rewrite E.
    destruct (Nat.eq_dec (length body) 0) as [Hempty|Hnonempty].
    + destruct (ReadPacket_body_done now command body 0 ks' _ c0 Hin0
                  ltac:(lia) ltac:(lia)) as (c' & E' & Ei & Es).
      exists NetworkReadPacket.Success, c'.
      split; [exact E'|]. rewrite Es. split; [lia|].
      left. split; [reflexivity|]. exists command, body, rest.
      split; [reflexivity|].
      rewrite <- Hempty in Hin0.
      assert (Hin' : body_in_progress command body (length body) ks'
                       (concat (map wire_image rest)) c').
      { unfold body_in_progress. rewrite Ei, Es. exact Hin0. }
      destruct (finish_packet command body ks' rest c' Hin' Hrest Hks')
        as (G & D & P & R); [|auto].
      destruct Hin0 as (_ & _ & _ & Hp1 & _).
      rewrite skipn_all in Hp1. cbn [app] in Hp1.
      rewrite Hp1 in Hl. cbn [length] in Hlen. lia.
    + destruct ks' as [|k' ks''].
      { exfalso. rewrite Hp0, length_app in Hl. cbn [length] in Hlen. lia. }
      destruct (Hbody command body rest 0%nat k' ks'' c0)
        as (st & c' & E' & Hlt & Hres);
        [constructor; [split|]; assumption | exact Hin0 | lia | exact Hks'
        | cbn [length] in Hlen; lia |].
      exists st, c'. split; [exact E'|]. split; [lia|].
      destruct Hres as [(-> & G & D & R) | (-> & R)].
      * left. split; [reflexivity|]. exists command, body, rest. auto.
      * right. split; [reflexivity | exact R].
  - (* inside a body *)
    subst todo. pose proof Hin as (_ & _ & Hbt & Hp & _).
    destruct ks as [|k ks'].
    { exfalso. rewrite Hp, length_app, length_skipn in Hlen.
      cbn [length] in Hlen. lia. }
    rewrite ReadPacket_past_header by lia.
    destruct (Hbody command body rest j k ks' c)
      as (st & c' & E' & Hlt & Hres);
      [exact Hsend | exact Hin | exact Hj | exact Hks
      | cbn [length] in Hlen; lia |].
    exists st, c'. split; [exact E'|]. split; [exact Hlt|].
    destruct Hres as [(-> & G & D & R) | (-> & R)].
    + left. split; [reflexivity|]. exists command, body, rest. auto.
    + right. split; [reflexivity | exact R].
Qed.

(** At a packet boundary with nothing pending, nothing is delivered. *)
Lemma receive_packets_idle now (n : nat) :
  forall c ks,
    BytesTransferred (InboundPacket c) = 0 ->
    rx_pending (Socket c) = [] ->
    rx_script (Socket c) = map RxData ks ->
    fst (receive_packets n now c) = [].
Proof.
  induction n as [|n IH]; intros c ks Hbt Hp Hs; [reflexivity|].
  cbn [receive_packets]. unfold ReadPacket. rewrite Hbt.
  change (0 <? Z.of_nat sizeof_PacketHeader) with true. cbv iota.
  unfold ReceiveData. rewrite Hs, Hp.
  destruct ks as [|k ks']; cbn [map].
  - cbn [negb NetworkReadPacket.is_Success].
    apply (IH _ []); [exact Hbt | exact Hp | exact Hs].
  - cbn [length]. rewrite !Nat.min_0_r.
    cbn [firstn skipn negb NetworkReadPacket.is_Success length Z.of_nat
           BytesTransferred set_BytesTransferred set_Header].
    rewrite Hbt.
    change (0 + 0 <? Z.of_nat sizeof_PacketHeader) with true. cbv iota.
    apply (IH _ ks'); reflexivity.
Qed.

Lemma receive_packets_all now (n : nat) :
  forall c todo,
    receiving todo c ->
    (length (rx_pending (Socket c)) <= n)%nat ->
    fst (receive_packets n now c) = todo.
Proof.
  induction n as [|n IH]; intros c todo Hrecv Hn.
  - destruct (rx_pending (Socket c)) as [|b l] eqn:Hp; [|cbn in Hn; lia].
    destruct Hrecv as (_ & ks & _ & _ & _ & [(_ & _ & Hp') | Hbody]).
    + rewrite Hp in Hp'. symmetry in Hp'.
      apply no_pending_no_messages in Hp'. now subst.
    + destruct Hbody as (command & body & rest & j & _ & Hj & Hin).
      destruct Hin as (_ & _ & _ & Hp' & _). rewrite Hp in Hp'.
      apply (f_equal (@length byte)) in Hp'.
      rewrite length_app, length_skipn in Hp'. cbn in Hp'. lia.
  - destruct (rx_pending (Socket c)) as [|b l] eqn:Hp.
    + destruct Hrecv as (_ & ks & _ & _ & Hs & [(Hbt & _ & Hp') | Hbody]).
      * rewrite Hp in Hp'. symmetry in Hp'.
        apply no_pending_no_messages in Hp'. subst todo.
        apply (receive_packets_idle now (S n) c ks); assumption.
      * destruct Hbody as (command & body & rest & j & _ & Hj & Hin).
        destruct Hin as (_ & _ & _ & Hp' & _). rewrite Hp in Hp'.
        apply (f_equal (@length byte)) in Hp'.
        rewrite length_app, length_skipn in Hp'. cbn in Hp'. lia.
    + destruct (receive_step now todo c Hrecv) as (st & c' & E & Hlt & Hres).
      { rewrite Hp. discriminate. }
      rewrite Hp in Hlt. cbn [length] in Hlt, Hn.
      cbn [receive_packets]. rewrite E.
      destruct Hres as [(-> & command & body & rest & -> & G & D & R) | (-> & R)].
      * specialize (IH _ rest R ltac:(cbn; lia)).
        destruct (receive_packets n now
                    (set_InboundPacket c' (Clear (InboundPacket c'))))
          as [packets c''].
        cbn [fst] in *. now rewrite G, D, IH.
      * apply IH; [exact R | lia].
Qed.

Lemma wire_image_host (h1 h2 : Platform) (message : Z * list byte) :
  wire_image (host := h1) message = wire_image (host := h2) message.
Proof.
  unfold wire_image.
  now rewrite (@SendPacket_buffer_wire h1), (@SendPacket_buffer_wire h2).
Qed.
End Stream.

(** X16. A stream of packets is taken apart again as it was put together.
    Any messages that fit the protocol (32-bit command, body of at most
    65531 bytes), serialised by the send path on a host of either byte
    order and concatenated, are delivered by the receive loop of a host of
    either byte order as the same commands and bodies in the same order,
    nothing more and nothing less, whenever the transport hands out at
    least six bytes per receive when it has them and the loop polls often
    enough. *)
Theorem stream_reassembly (sender receiver : Platform)
    (ids : NetworkCommand.Ids) (messages : list (Z * list byte))
    (ks : list nat) (now : Z) (c : NetworkConnection) (n : nat) :
  Forall sendable messages ->
  BytesTransferred (InboundPacket c) = 0 ->
  Data (InboundPacket c) = [] ->
  rx_pending (Socket c)
  = concat (map (wire_image (host := sender)) messages) ->
  rx_script (Socket c) = map RxData ks ->
  Forall (fun k => sizeof_PacketHeader <= k)%nat ks ->
  (length (rx_pending (Socket c)) <= length ks)%nat ->
  (length (rx_pending (Socket c)) <= n)%nat ->
  fst (receive_packets (host := receiver) n now c) = messages.
Proof.
  intros Hsend Hbt Hdata Hp Hs Hks Hlen Hn.
  apply (receive_packets_all (host := receiver)); [|exact Hn].
  split; [exact Hsend|]. exists ks. repeat split; try assumption.
  left. split; [exact Hbt|]. split; [exact Hdata|].
  rewrite Hp. f_equal. apply map_ext. intros m. apply wire_image_host.
Qed.

(* ------------------------------------------------------------------ *)
(** ** Draining against a slow transport *)

Section Drain.
Context {host : Platform} {ids : NetworkCommand.Ids}.

Lemma queue_pending_in_flight queue :
  queue_pending queue -> front_only_in_flight queue.
Proof.
  destruct queue as [|p rest]; [auto|]. cbn. intros [H1 H2]. split; [lia|auto].
Qed.

Lemma untouched_pending (queue : list NetworkPacket) :
  Forall (fun p => BytesTransferred p = 0) queue -> queue_pending queue.
Proof.
  destruct 1 as [|p rest Hp Hrest]; [exact I|].
  cbn. split; [|exact Hrest]. rewrite Hp.
  pose proof (length_SendPacket_buffer p) as L. unfold data_size in L.
  sizes. lia.
Qed.

Lemma unsent_pending_nonempty p rest :
  queue_pending (p :: rest) -> (1 <= length (unsent (p :: rest)))%nat.
Proof.
  cbn. intros [Hbt _]. rewrite length_app, length_skipn. lia.
Qed.

(** One send attempt uses up one answer of the transport, and with an
    answer of at least one byte the packet advances. *)
Lemma SendPacket_progress c p b p' c' :
  0 <= BytesTransferred p < Z.of_nat (length (SendPacket_buffer p)) ->
  addressable p ->
  SendPacket c p = (b, p', c') ->
  tx_script (Socket c') = tl (tx_script (Socket c))
  /\ (forall k ks, tx_script (Socket c) = k :: ks -> (1 <= k)%nat ->
      BytesTransferred p < BytesTransferred p')
  /\ (tx_script (Socket c) = [] -> b = false /\ p' = p)
  /\ (b = false ->
      BytesTransferred p' <> Z.of_nat (length (SendPacket_buffer p))).
Proof.
  intros Hbt Haddr. unfold addressable in Haddr. unfold SendPacket.
  set (buffer := SendPacket_buffer p) in *.
  unfold size_t.
  rewrite (Z.mod_small (Z.of_nat (length buffer) - BytesTransferred p)) by lia.
  rewrite firstn_all2 by (rewrite length_skipn; lia).
  unfold SendData. destruct (tx_script (Socket c)) as [|k ks] eqn:Hs.
  - cbn [Z.gtb Z.compare].
    destruct (Z.eqb_spec (BytesTransferred p) (Z.of_nat (length buffer)));
      [lia|].
    intros R; pair_eq. cbn [Socket set_Socket tl]. rewrite Hs.
    split; [reflexivity|]. split; [intros ? ? X; discriminate|].
    split; [auto | intros _; lia].
  - set (n := Nat.min k _).
    assert (Hn : (n = Nat.min k (length buffer
                                  - Z.to_nat (BytesTransferred p)))%nat)
      by (subst n; now rewrite length_skipn).
    cbv beta iota zeta. cbn [tl].
    destruct (Z.gtb_spec (Z.of_nat n) 0) as [Hpos|Hzero];
      cbn [BytesTransferred set_BytesTransferred];
      match goal with
      | |- context [?x =? ?y] => destruct (Z.eqb_spec x y)
      end;
      intros R; pair_eq;
      cbn [Socket set_Socket set_Stats tx_script BytesTransferred
             set_BytesTransferred];
      (split; [reflexivity|]);
      (split; [intros k0 ks0 X Hk; inversion X; subst; lia|]);
      (split; [intros X; discriminate|]);
      intros X; try discriminate; assumption.
Qed.

(** Draining with accounting: every answer of the transport that was used
    took at least one byte off what is left to send. *)
Lemma SendQueuedPackets_loop_progress (queue : list NetworkPacket) :
  forall c c' queue',
    queue_pending queue ->
    Forall addressable queue ->
    Forall (fun k => 1 <= k)%nat (tx_script (Socket c)) ->
    SendQueuedPackets_loop c queue = (c', queue') ->
    exists e,
      tx_script (Socket c') = skipn e (tx_script (Socket c))
      /\ (e <= length (tx_script (Socket c)))%nat
      /\ (length (unsent queue') + e <= length (unsent queue))%nat
      /\ (queue <> [] -> tx_script (Socket c) <> [] -> (1 <= e)%nat)
      /\ queue_pending queue'.
Proof.
  induction queue as [|p rest IH]; intros c c' queue' Hq Ha Hk Hloop.
  - cbn in Hloop. pair_eq. exists 0%nat. cbn.
    repeat split; try lia; try congruence.
  - cbn [SendQueuedPackets_loop] in Hloop.
    destruct (SendPacket c p) as [[b p1] c1] eqn:Hsend.
    cbn [queue_pending] in Hq. destruct Hq as [Hbt Hrest].
    inversion Ha as [|? ? Hap Har]; subst.
    assert (Hbt0 : 0 <= BytesTransferred p
                     <= Z.of_nat (length (SendPacket_buffer p))) by lia.
    destruct (SendPacket_wire c p b p1 c1 Hbt0 Hap Hsend)
      as (Hbuf & _ & Hbt1 & _ & Hdone).
    destruct (SendPacket_progress c p b p1 c1 Hbt Hap Hsend)
      as (Hs1 & Hadv & Hstall & Hpartial).
    destruct (tx_script (Socket c)) as [|k ks] eqn:Hs.
    + (* the transport has no answer left: nothing moves *)
      destruct (Hstall eq_refl) as [-> ->]. pair_eq.
      exists 0%nat. cbn [skipn length]. rewrite Hs1. cbn [tl].
      split; [reflexivity|]. split; [lia|]. split; [lia|].
      split; [intros _ X; congruence|]. split; assumption.
    + pose proof (Forall_inv Hk) as Hk1.
      pose proof (Forall_inv_tail Hk) as Hks. cbv beta in Hk1.
      specialize (Hadv k ks eq_refl Hk1). cbn [tl] in Hs1.
      destruct b.
      * (* popped *)
        assert (Hk' : Forall (fun k => 1 <= k)%nat (tx_script (Socket c1)))
          by now rewrite Hs1.
        destruct (IH c1 c' queue' (untouched_pending rest Hrest) Har Hk' Hloop)
          as (e & He & Hle & Hlen & _ & Hq').
        exists (S e). rewrite He, Hs1. cbn [skipn length].
        split; [reflexivity|]. rewrite Hs1 in Hle. split; [lia|].
        split; [|split; [intros; lia | exact Hq']].
        cbn [unsent]. rewrite length_app, length_skipn.
        rewrite <- (unsent_untouched rest Hrest). lia.
      * injection Hloop as <- <-. exists 1%nat. cbn [skipn length].
        split; [exact Hs1|]. split; [lia|].
        split; [|split; [intros; lia|]].
        -- cbn [unsent]. rewrite Hbuf, !length_app, !length_skipn. lia.
        -- cbn. rewrite Hbuf. split; [|exact Hrest].
           specialize (Hpartial eq_refl). lia.
Qed.
End Drain.

Section DrainAll.
Context {host : Platform} {ids : NetworkCommand.Ids}.

Lemma Forall_skipn_keep {A : Type} (P : A -> Prop) (l : list A) (n : nat) :
  Forall P l -> Forall P (skipn n l).
Proof.
  revert l. induction n as [|n IH]; intros l H; [exact H|].
  destruct H as [|a l Ha Hl]; [constructor|]. cbn. apply IH. exact Hl.
Qed.

Lemma pending_or_empty (queue : list NetworkPacket) :
  queue_pending queue -> length (unsent queue) = 0%nat -> queue = [].
Proof.
  destruct queue as [|p rest]; [reflexivity|]. intros Hq E.
  pose proof (unsent_pending_nonempty p rest Hq). lia.
Qed.

(** Repeated drains against a transport that accepts at least a byte per
    send get everything out. *)
Lemma drains_complete (n : nat) :
  forall c,
    queue_pending (_outboundPackets c) ->
    Forall addressable (_outboundPackets c) ->
    Forall (fun k => 1 <= k)%nat (tx_script (Socket c)) ->
    (length (unsent (_outboundPackets c))
     <= length (tx_script (Socket c)))%nat ->
    (length (unsent (_outboundPackets c)) <= n)%nat ->
    _outboundPackets (run_SendOps c (repeat Drain n)) = []
    /\ tx_wire (Socket (run_SendOps c (repeat Drain n)))
       = tx_wire (Socket c) ++ unsent (_outboundPackets c).
Proof.
  induction n as [|n IH]; intros c Hq Ha Hk Hs Hn.
  - cbn [repeat run_SendOps fold_left].
    rewrite (pending_or_empty _ Hq) by lia. cbn. now rewrite app_nil_r.
  - cbn [repeat run_SendOps fold_left apply_SendOp].
    fold (run_SendOps (SendQueuedPackets c) (repeat Drain n)).
    destruct (SendQueuedPackets_wire c (queue_pending_in_flight _ Hq) Ha)
      as (Hw & _ & Ha1 & _).
    unfold SendQueuedPackets in *.
    destruct (SendQueuedPackets_loop c (_outboundPackets c)) as [c1 q1] eqn:E.
    destruct (SendQueuedPackets_loop_progress _ _ _ _ Hq Ha Hk E)
      as (e & He & Hle & Hlen & Hone & Hq1).
    cbn [Socket _outboundPackets set_outboundPackets] in *.
    destruct (IH (set_outboundPackets c1 q1)) as [Hempty Hwire];
      cbn [Socket _outboundPackets set_outboundPackets]; try assumption.
    + rewrite He. apply Forall_skipn_keep. exact Hk.
    + rewrite He, length_skipn. lia.
    + destruct (_outboundPackets c) as [|p rest] eqn:Eq.
      * cbn in Hlen. lia.
      * pose proof (unsent_pending_nonempty p rest Hq) as H1.
        assert (1 <= e)%nat; [|lia].
        apply Hone; [discriminate|].
        destruct (tx_script (Socket c)); [cbn [length] in Hs; lia | discriminate].
    + split; [exact Hempty|]. rewrite Hwire. exact Hw.
Qed.

(** Queueing messages at the tail of an authenticated connection. *)
Lemma enqueue_all_queue (messages : list (Z * list byte)) :
  forall c,
    AuthStatus c = NetworkAuth.Ok ->
    run_SendOps c (enqueue_all messages)
    = set_outboundPackets c
        (_outboundPackets c
         ++ map (fun m => stamp_Size (make_packet (fst m) (snd m))) messages).
Proof.
  induction messages as [|m messages IH]; intros c Hauth.
  - cbn. rewrite app_nil_r. now destruct c.
  - cbn [enqueue_all map run_SendOps fold_left apply_SendOp].
    fold (enqueue_all messages).
    fold (run_SendOps (QueuePacket c (make_packet (fst m) (snd m)) false)
            (enqueue_all messages)).
    assert (E : QueuePacket c (make_packet (fst m) (snd m)) false
                = set_outboundPackets c
                    (_outboundPackets c
                     ++ [stamp_Size (make_packet (fst m) (snd m))])).
    { unfold QueuePacket. rewrite Hauth. reflexivity. }
    rewrite E, IH by exact Hauth.
    cbn [_outboundPackets set_outboundPackets].
    rewrite <- app_assoc. reflexivity.
Qed.

Lemma sendable_addressable (m : Z * list byte) :
  sendable m -> addressable (stamp_Size (make_packet (fst m) (snd m))).
Proof.
  intros [_ Hlen]. apply addressable_stamp_Size. unfold addressable.
  rewrite length_SendPacket_buffer. unfold data_size, make_packet.
  cbn [Data Write NetworkPacket_new app]. sizes. lia.
Qed.

(** Queue everything, then drain often enough: the queue is empty and the
    wire holds the wire images in order. *)
Lemma send_all (messages : list (Z * list byte)) (n : nat) c :
  Forall sendable messages ->
  AuthStatus c = NetworkAuth.Ok ->
  _outboundPackets c = [] ->
  Forall (fun k => 1 <= k)%nat (tx_script (Socket c)) ->
  (length (concat (map wire_image messages))
   <= length (tx_script (Socket c)))%nat ->
  (length (concat (map wire_image messages)) <= n)%nat ->
  let c' := run_SendOps c (enqueue_all messages ++ repeat Drain n) in
  _outboundPackets c' = []
  /\ tx_wire (Socket c')
     = tx_wire (Socket c) ++ concat (map wire_image messages).
Proof.
  intros Hsend Hauth Hempty Hk Hs Hn. cbv zeta.
  unfold run_SendOps. rewrite fold_left_app.
  fold (run_SendOps c (enqueue_all messages)).
  rewrite (enqueue_all_queue messages c Hauth), Hempty. cbn [app].
  set (queue := map _ messages).
  fold (run_SendOps (set_outboundPackets c queue) (repeat Drain n)).
  assert (Hfresh : Forall (fun p => BytesTransferred p = 0) queue).
  { subst queue. apply Forall_forall. intros p Hin.
    apply in_map_iff in Hin. destruct Hin as (m & <- & _). reflexivity. }
  assert (Hu : unsent queue = concat (map wire_image messages)).
  { rewrite (unsent_untouched queue Hfresh). subst queue.
    now rewrite map_map. }
  assert (Hpend : queue_pending queue) by now apply untouched_pending.
  assert (Haddr : Forall addressable queue).
  { subst queue. apply Forall_forall. intros p Hin.
    apply in_map_iff in Hin. destruct Hin as (m & <- & Hm).
    apply sendable_addressable. rewrite Forall_forall in Hsend. auto. }
  rewrite <- Hu in Hs, Hn.
  destruct (drains_complete n (set_outboundPackets c queue)
              Hpend Haddr Hk Hs Hn) as [Hq Hw].
  split; [exact Hq|]. rewrite Hw. cbn [Socket _outboundPackets
                                         set_outboundPackets].
  now rewrite Hu.
Qed.
End DrainAll.

(** X17. Draining makes progress. When no queued packet is complete, only
    the front one is in flight, and the transport accepts at least one
    byte per send, then as many drains as there are bytes left to send
    empty the queue, and the socket has accepted exactly the unsent bytes,
    in queue order. *)
Theorem drain_empties_the_queue {host : Platform} {ids : NetworkCommand.Ids}
    (c : NetworkConnection) (n : nat) :
  queue_pending (_outboundPackets c) ->
  Forall addressable (_outboundPackets c) ->
  Forall (fun k => 1 <= k)%nat (tx_script (Socket c)) ->
  (length (unsent (_outboundPackets c))
   <= length (tx_script (Socket c)))%nat ->
  (length (unsent (_outboundPackets c)) <= n)%nat ->
  _outboundPackets (run_SendOps c (repeat Drain n)) = []
  /\ tx_wire (Socket (run_SendOps c (repeat Drain n)))
     = tx_wire (Socket c) ++ unsent (_outboundPackets c).
Proof. apply drains_complete. Qed.

(** X18. From one connection to another. Messages that fit the protocol,
    queued on an authenticated connection and drained against a transport
    that accepts at least a byte per send, leave the queue empty; and when
    the bytes that went out are what another connection has pending, and
    its transport hands out at least six bytes per receive, its receive
    loop delivers the same messages in the same order. The two hosts may
    differ in byte order. *)
Theorem connection_to_connection (sender receiver : Platform)
    (ids : NetworkCommand.Ids) (messages : list (Z * list byte))
    (A B : NetworkConnection) (ks : list nat) (n m : nat) (now : Z) :
  let total :=
    length (concat (map (wire_image (host := sender)) messages)) in
  let A' :=
    run_SendOps (host := sender) A (enqueue_all messages ++ repeat Drain n) in
  Forall sendable messages ->
  AuthStatus A = NetworkAuth.Ok ->
  _outboundPackets A = [] ->
  tx_wire (Socket A) = [] ->
  Forall (fun k => 1 <= k)%nat (tx_script (Socket A)) ->
  (total <= length (tx_script (Socket A)))%nat ->
  (total <= n)%nat ->
  BytesTransferred (InboundPacket B) = 0 ->
  Data (InboundPacket B) = [] ->
  rx_pending (Socket B) = tx_wire (Socket A') ->
  rx_script (Socket B) = map RxData ks ->
  Forall (fun k => sizeof_PacketHeader <= k)%nat ks ->
  (total <= length ks)%nat ->
  (total <= m)%nat ->
  _outboundPackets A' = []
  /\ fst (receive_packets (host := receiver) m now B) = messages.
Proof.
  intros total A' Hsend Hauth Hempty Hwire0 Hk Hs Hn Hbt Hdata Hp Hscript
         Hks Hlen Hm.
  destruct (send_all (host := sender) messages n A Hsend Hauth Hempty Hk Hs Hn)
    as [Hq Hw].
  fold A' in Hq, Hw. rewrite Hwire0 in Hw. cbn [app] in Hw.
  split; [exact Hq|].
  rewrite Hw in Hp.
  apply (receive_packets_all (host := receiver)).
  - split; [exact Hsend|]. exists ks.
    split; [exact Hks|]. split; [rewrite Hp; exact Hlen|].
    split; [exact Hscript|].
    left. split; [exact Hbt|]. split; [exact Hdata|].
    rewrite Hp. f_equal. apply map_ext. intros x. apply wire_image_host.
  - rewrite Hp. exact Hm.
Qed.

(** X19. Back-pressure loses nothing. While the transport accepts nothing
    more (its script has run out), [SendQueuedPackets] on a queue of
    incomplete packets leaves the whole connection exactly as it was. *)
Theorem SendQueuedPackets_back_pressure {host : Platform}
    {ids : NetworkCommand.Ids} (c : NetworkConnection) :
  queue_pending (_outboundPackets c) ->
  Forall addressable (_outboundPackets c) ->
  tx_script (Socket c) = [] ->
  SendQueuedPackets c = c.
Proof.
  intros Hq Ha Hs. unfold SendQueuedPackets.
  destruct (_outboundPackets c) as [|p rest] eqn:Eq.
  - cbn. rewrite <- Eq. now destruct c.
  - cbn [SendQueuedPackets_loop].
    destruct (SendPacket c p) as [[b p1] c1] eqn:Hsend.
    destruct Hq as [Hbt _]. pose proof (Forall_inv Ha) as Hap.
    destruct (SendPacket_progress c p b p1 c1 Hbt Hap Hsend)
      as (_ & _ & Hstall & _).
    destruct (Hstall Hs) as [-> ->].
    unfold SendPacket, SendData in Hsend. rewrite Hs in Hsend.
    cbn [Z.gtb Z.compare] in Hsend.
    destruct (BytesTransferred p =? _) in Hsend; [discriminate|].
    injection Hsend as <-. rewrite <- Eq. now destruct c as [[]].
Qed.

(** X20. The wire format does not depend on the host. On a little-endian
    and on a big-endian machine alike, [SendPacket] serialises a packet as
    the 16-bit value [Header.Size + 4] and the 32-bit command, both most
    significant byte first, followed by the body: six bytes more than the
    body. *)
Theorem SendPacket_wire_format (host : Platform) (p : NetworkPacket) :
  SendPacket_buffer (host := host) p
  = bytes_be 2 (uint16_t (Size (Header p) + 4))
    ++ bytes_be 4 (Id (Header p)) ++ Data p
  /\ length (SendPacket_buffer (host := host) p) = (6 + length (Data p))%nat
  /\ SendPacket_buffer (host := little_endian_host) p
     = SendPacket_buffer (host := big_endian_host) p.
Proof.
  split; [apply (@SendPacket_buffer_wire host)|]. split.
  - rewrite (@SendPacket_buffer_wire host), !length_app, !length_bytes_be.
    reflexivity.
  - now rewrite (@SendPacket_buffer_wire little_endian_host),
      (@SendPacket_buffer_wire big_endian_host).
Qed.

(* ------------------------------------------------------------------ *)
(** ** Further properties at concrete inputs *)

Ltac closed :=
  vm_compute; repeat split; try reflexivity; try discriminate.

Lemma traffic_statistics_witness :
  fst (fst (SendPacket (host := little_endian_host) (ids := sample_commands)
              fast_sender packet_50)) = true
  /\ cnt_Commands
       (bytesSent
          (Stats (snd (SendPacket (host := little_endian_host)
                         (ids := sample_commands) fast_sender packet_50))))
     = cnt_Commands (bytesSent (Stats fast_sender)) + 50
  /\ cnt_Total
       (bytesSent
          (Stats (snd (SendPacket (host := little_endian_host)
                         (ids := sample_commands) fast_sender packet_50))))
     = cnt_Total (bytesSent (Stats fast_sender)) + 50
  /\ fst (ReadPacket (host := little_endian_host) (ids := sample_commands)
            7 receiver_50) = NetworkReadPacket.Success
  /\ bytesReceived
       (Stats (snd (ReadPacket (host := little_endian_host)
                      (ids := sample_commands) 7 receiver_50)))
     = {| cnt_Total := 50; cnt_Base := 0; cnt_Commands := 50;
          cnt_MapData := 0 |}.
Proof.
  set (r := SendPacket (host := little_endian_host) (ids := sample_commands)
              fast_sender packet_50).
  assert (Hsend : SendPacket (host := little_endian_host)
                    (ids := sample_commands) fast_sender packet_50
                  = (true, snd (fst r), snd r))
    by reflexivity.
  split; [reflexivity|].
  destruct (proj1 (@traffic_statistics little_endian_host sample_commands)
              fast_sender packet_50 (snd (fst r)) (snd r) eq_refl Hsend eq_refl)
    as (H1 & H2 & _).
  split; [exact H1|]. split; [exact H2|].
  set (q := ReadPacket (host := little_endian_host) (ids := sample_commands)
              7 receiver_50).
  assert (Hread : ReadPacket (host := little_endian_host)
                    (ids := sample_commands) 7 receiver_50 = (fst q, snd q))
    by reflexivity.
  assert (Hok : inbound_ok (InboundPacket receiver_50))
    by (left; split; [vm_compute; split; [discriminate | reflexivity]
                     | reflexivity]).
  destruct (proj1 (proj2 (proj2 (proj2
              (@traffic_statistics little_endian_host sample_commands))))
              7 receiver_50 (fst q) (snd q) Hok Hread) as [Hiff _].
  assert (Hs : fst q = NetworkReadPacket.Success).
  { apply Hiff. vm_compute. split; [discriminate | reflexivity]. }
  split; [exact Hs|].
  rewrite (proj1 (proj2 (proj2
             (@traffic_statistics little_endian_host sample_commands)))
             7 receiver_50 (fst q) (snd q) Hread).
  rewrite Hs. reflexivity.
Defined.

Lemma Read_next_bytes_witness :
  Read false packet_A 2 = (Some [x01; x02], set_BytesRead packet_A 2)
  /\ Read false (NetworkPacket_new 6) 0 = (None, NetworkPacket_new 6)
  /\ Read true packet_A 5 = (None, packet_A).
Proof.
  assert (H1 : 0 <= BytesRead packet_A <= data_size packet_A) by closed.
  split; [|split].
  - destruct (proj1 (Read_next_bytes false packet_A 2 H1
                       ltac:(closed) ltac:(closed))
                ltac:(closed) ltac:(right; discriminate))
      as (bytes & p' & E & _).
    reflexivity.
  - apply (proj1 (proj2 (Read_next_bytes false (NetworkPacket_new 6) 0
                           ltac:(closed) ltac:(closed) ltac:(closed)))
             ltac:(closed) eq_refl eq_refl).
  - apply (proj2 (proj2 (Read_next_bytes true packet_A 5 H1
                           ltac:(closed) ltac:(closed)))).
    closed.
Defined.

Lemma Read_twice_witness :
  (exists a b p1 p2,
      Read false packet_A 1 = (Some a, p1)
      /\ Read false p1 2 = (Some b, p2)
      /\ Read false packet_A (1 + 2) = (Some (a ++ b), p2))
  /\ Read false (NetworkPacket_new 6) (0 + 0) = (None, NetworkPacket_new 6).
Proof.
  split.
  - apply (proj1 (Read_twice false packet_A 1 2 ltac:(closed) ltac:(closed)
                    ltac:(closed) ltac:(closed) ltac:(closed))).
    right. discriminate.
  - apply (proj2 (Read_twice false (NetworkPacket_new 6) 0 0 ltac:(closed)
                    ltac:(closed) ltac:(closed) ltac:(closed) ltac:(closed))
             eq_refl eq_refl).
Defined.

Lemma Write_then_Read_witness :
  fst (Read false (Write (NetworkPacket_new 6) [x01; x02; x03]) 3)
  = Some [x01; x02; x03]
  /\ fst (Read false (Write (NetworkPacket_new 6) []) 0) = None
  /\ fst (Read true (Write (Clear packet_A) []) 0) = Some [].
Proof.
  split; [|split].
  - apply (Write_then_Read false (NetworkPacket_new 6) [x01; x02; x03]
             ltac:(closed) ltac:(closed)).
    right. discriminate.
  - apply (Write_then_Read false (NetworkPacket_new 6) []
             ltac:(closed) ltac:(closed)); reflexivity.
  - apply (Write_then_Read true (Clear packet_A) []
             ltac:(closed) ltac:(closed)).
    left. reflexivity.
Defined.

Lemma ReadString_returns_string_witness :
  fst (fst (ReadString x01 string_packet)) = Some ["a"; "b"; "c"]%byte
  /\ BytesRead (snd (fst (ReadString x01 string_packet))) = 4.
Proof.
  destruct (ReadString_returns_string x01 string_packet []
              ["a"; "b"; "c"]%byte ["d"; "e"; "f"; x00]%byte)
    as (H1 & H2 & _).
  - reflexivity.
  - reflexivity.
  - repeat constructor.
  - split; [exact H1 | exact H2].
Defined.

Lemma WriteString_then_ReadString_witness :
  exists p1 p2 seen1 seen2,
    ReadString x01
      (WriteString (WriteString (NetworkPacket_new 0) ["a"; "b"; "c"]%byte)
         ["d"; "e"; "f"]%byte)
    = (Some ["a"; "b"; "c"]%byte, p1, seen1)
    /\ ReadString x02 p1 = (Some ["d"; "e"; "f"]%byte, p2, seen2)
    /\ BytesRead p2 = data_size p2
    /\ ReadString x03 p2 = (None, p2, []).
Proof.
  apply (WriteString_then_ReadString x01 x02 x03 (NetworkPacket_new 0)).
  - reflexivity.
  - repeat constructor.
  - repeat constructor.
Defined.

Lemma ReadString_unterminated_past_end_witness :
  In (data_size unterminated_packet)
    (inspected (ReadString x01 unterminated_packet)).
Proof.
  apply (ReadString_unterminated_past_end x01 unterminated_packet).
  - closed.
  - repeat constructor.
Defined.

Lemma ReadString_terminated_in_bounds_witness :
  Forall (fun i => 0 <= i < data_size string_packet)
    (inspected (ReadString x01 string_packet)).
Proof.
  apply (ReadString_terminated_in_bounds x01 string_packet).
  - closed.
  - apply Exists_exists. exists x00. split; [|reflexivity].
    cbn. auto 10.
Defined.

Lemma inbound_packet_well_formed_witness :
  inbound_ok
    (InboundPacket
       (run_ConnectionOps (host := little_endian_host)
          (ids := sample_commands) session_connection sample_session)).
Proof.
  apply (@inbound_packet_well_formed little_endian_host sample_commands
           session_connection sample_session).
  left. closed.
Defined.

Lemma ReadPacket_propagates_status_witness :
  ReadPacket (host := little_endian_host) (ids := sample_commands) 5
    failing_receiver
  = (NetworkReadPacket.Disconnected,
     set_Socket failing_receiver (scripted_socket [] [] [])).
Proof.
  apply (@ReadPacket_propagates_status little_endian_host sample_commands 5
           failing_receiver NetworkReadPacket.Disconnected []).
  - reflexivity.
  - discriminate.
  - left. closed.
  - right. closed.
Defined.

Lemma ReadPacket_completed_again_witness :
  ReadPacket (host := little_endian_host) (ids := sample_commands) 9
    completed_receiver
  = (NetworkReadPacket.Success,
     set_Stats (set_lastPacketTime completed_receiver 9)
       (RecordPacketStats (ids := sample_commands) (Stats completed_receiver)
          (InboundPacket completed_receiver) false)).
Proof.
  apply (@ReadPacket_completed_again little_endian_host sample_commands 9
           completed_receiver); closed.
Defined.

Lemma liveness_window_witness :
  fst (ReadPacket (host := little_endian_host) (ids := sample_commands) 5
         undersized_receiver) = NetworkReadPacket.Success
  /\ forall t,
       ReceivedPacketRecently false t completed_receiver = true
       <-> t <= 5 + 7000.
Proof.
  split; [reflexivity|].
  apply (proj1 (@liveness_window little_endian_host sample_commands 5
                  undersized_receiver ltac:(closed) ltac:(closed))).
  reflexivity.
Defined.

Lemma whole_packets_on_the_wire_witness :
  exists done,
    tx_wire
      (Socket (run_ConnectionOps (host := little_endian_host)
                 (ids := sample_commands) session_connection sample_session))
    = tx_wire (Socket session_connection)
      ++ concat (map (SendPacket_buffer (host := little_endian_host)) done)
      ++ in_flight_prefix (host := little_endian_host)
           (_outboundPackets
              (run_ConnectionOps (host := little_endian_host)
                 (ids := sample_commands) session_connection sample_session))
    /\ Permutation
         (map (SendPacket_buffer (host := little_endian_host))
            (done
             ++ _outboundPackets
                  (run_ConnectionOps (host := little_endian_host)
                     (ids := sample_commands) session_connection
                     sample_session)))
         (map (SendPacket_buffer (host := little_endian_host))
            (accepted_packets (ids := sample_commands) session_connection
               sample_session))
    /\ front_only_in_flight (host := little_endian_host)
         (_outboundPackets
            (run_ConnectionOps (host := little_endian_host)
               (ids := sample_commands) session_connection sample_session)).
Proof.
  apply (@whole_packets_on_the_wire little_endian_host sample_commands
           session_connection sample_session).
  - reflexivity.
  - repeat constructor.
Defined.

Lemma stream_reassembly_witness :
  fst (receive_packets (host := big_endian_host) (ids := sample_commands)
         40 5 stream_receiver)
  = sample_messages.
Proof.
  apply (stream_reassembly little_endian_host big_endian_host sample_commands
           sample_messages (repeat 6%nat 40) 5 stream_receiver 40).
  - repeat constructor; closed.
  - reflexivity.
  - reflexivity.
  - reflexivity.
  - reflexivity.
  - repeat constructor.
  - vm_compute. repeat constructor.
  - vm_compute. repeat constructor.
Defined.

Lemma drain_empties_the_queue_witness :
  _outboundPackets
    (run_SendOps (host := little_endian_host) (ids := sample_commands)
       slow_in_flight (repeat Drain 13)) = []
  /\ tx_wire
       (Socket (run_SendOps (host := little_endian_host)
                  (ids := sample_commands) slow_in_flight (repeat Drain 13)))
     = tx_wire (Socket slow_in_flight)
       ++ unsent (host := little_endian_host) (_outboundPackets slow_in_flight).
Proof.
  apply (@drain_empties_the_queue little_endian_host sample_commands
           slow_in_flight 13).
  - split; [closed | repeat constructor].
  - repeat constructor.
  - repeat constructor.
  - vm_compute. repeat constructor.
  - vm_compute. repeat constructor.
Defined.

Lemma connection_to_connection_witness :
  _outboundPackets drained_sender = []
  /\ fst (receive_packets (host := big_endian_host) (ids := sample_commands)
            29 5 peer_receiver)
     = sample_messages.
Proof.
  apply (connection_to_connection little_endian_host big_endian_host
           sample_commands sample_messages slow_sender peer_receiver
           (repeat 6%nat 29) 29 29 5).
  - repeat constructor; closed.
  - reflexivity.
  - reflexivity.
  - reflexivity.
  - repeat constructor.
  - vm_compute. repeat constructor.
  - vm_compute. repeat constructor.
  - reflexivity.
  - reflexivity.
  - reflexivity.
  - reflexivity.
  - repeat constructor.
  - vm_compute. repeat constructor.
  - vm_compute. repeat constructor.
Defined.

Lemma SendQueuedPackets_back_pressure_witness :
  SendQueuedPackets (host := little_endian_host) (ids := sample_commands)
    (connection_in_flight NetworkAuth.Ok)
  = connection_in_flight NetworkAuth.Ok.
Proof.
  apply (@SendQueuedPackets_back_pressure little_endian_host sample_commands
           (connection_in_flight NetworkAuth.Ok)).
  - split; [closed | repeat constructor].
  - repeat constructor.
  - reflexivity.
Defined.
